(** * Inspector surface (assets/ui/js/inspector.surface.js)

    A shallow embedding of the [Surface] class of the Inspector: the value
    map and its change tracking, value aggregation, validation, the group
    expand/collapse machinery and the merging of nested surfaces.

    Conventions of the embedding.
    - JavaScript values are the inductive [jsval].  Numbers are the integers
      (the Inspector stores strings, booleans, integers, lists and
      dictionaries; floating point notation is outside the model), which a
      number holds exactly from -2^53 to 2^53.
    - A JavaScript object used as a map is the association list of its own
      members in insertion order, which is the enumeration order of an
      object whose keys are property names (identifiers, not array
      indices).  The maps are plain objects: a key that the map does not
      hold reads as the member of [Object.prototype] of that name.  An
      assignment under the key [__proto__] sets the prototype of the
      object and adds no member: [obj_set] is the assignment under the
      other keys.
    - The DOM is reduced to what the class reads and writes: the rows of a
      table body, their attributes and class list, and the class of the
      expand/collapse link of a row.
    - Calls into collaborators (editors, the change callback, timers) are
      recorded in a log, in call order; what a collaborator answers is a
      field of its record. *)

From Stdlib Require Import List String Ascii ZArith Bool Arith Lia.
From Stdlib Require Import DecimalString DecimalZ DecimalFacts DecimalPos.
Import ListNotations.

Open Scope bool_scope.
Open Scope list_scope.
Open Scope string_scope.


(** ** JavaScript values *)

Module Js.

Unset Elimination Schemes.

(** [VRemoved] is the one object [$.oc.inspector.removedProperty]
    (line 860); [===] against it is identity, which no other object of the
    same shape satisfies. *)
Inductive jsval : Type :=
| VUndefined
| VNull
| VBool (b : bool)
| VNum (n : Z)
| VStr (s : string)
| VArr (items : list jsval)
| VObj (fields : list (string * jsval))
| VRemoved
| VFun (name : string).         (* the built-in function of that name *)

Set Elimination Schemes.

Section JsvalInduction.
Variable P : jsval -> Prop.
Hypothesis Hundef : P VUndefined.
Hypothesis Hnull : P VNull.
Hypothesis Hbool : forall b, P (VBool b).
Hypothesis Hnum : forall n, P (VNum n).
Hypothesis Hstr : forall s, P (VStr s).
Hypothesis Harr : forall items, Forall P items -> P (VArr items).
Hypothesis Hobj :
  forall fields, Forall (fun kv => P (snd kv)) fields -> P (VObj fields).
Hypothesis Hremoved : P VRemoved.
Hypothesis Hfun : forall name, P (VFun name).

Fixpoint jsval_ind (v : jsval) : P v :=
  match v with
  | VUndefined => Hundef
  | VNull => Hnull
  | VBool b => Hbool b
  | VNum n => Hnum n
  | VStr s => Hstr s
  | VArr items =>
      Harr items
           ((fix go (l : list jsval) : Forall P l :=
               match l with
               | [] => Forall_nil P
               | x :: r => Forall_cons x (jsval_ind x) (go r)
               end) items)
  | VObj fields =>
      Hobj fields
           ((fix go (l : list (string * jsval))
               : Forall (fun kv => P (snd kv)) l :=
               match l with
               | [] => Forall_nil _
               | kv :: r =>
                   Forall_cons kv (jsval_ind (snd kv)) (go r)
               end) fields)
  | VRemoved => Hremoved
  | VFun name => Hfun name
  end.
End JsvalInduction.

Definition is_undefined (v : jsval) : bool :=
  match v with VUndefined => true | _ => false end.

(** [v === $.oc.inspector.removedProperty] *)
Definition is_removed (v : jsval) : bool :=
  match v with VRemoved => true | _ => false end.

(** The [typeof] operator. *)
Definition typeof (v : jsval) : string :=
  match v with
  | VUndefined => "undefined"
  | VNull => "object"
  | VBool _ => "boolean"
  | VNum _ => "number"
  | VStr _ => "string"
  | VArr _ | VObj _ | VRemoved => "object"
  | VFun _ => "function"
  end.

(** *** Strings of characters *)

Definition dquote : ascii := "034"%char.
Definition backslash : ascii := "092"%char.

Definition str1 (c : ascii) : string := String c EmptyString.

Fixpoint join (sep : string) (l : list string) : string :=
  match l with
  | [] => ""
  | [x] => x
  | x :: r => x ++ sep ++ join sep r
  end.

(** Decimal notation of an integer, as [Number.prototype.toString] and
    [JSON.stringify] print it. *)
Definition number_to_string (n : Z) : string :=
  NilEmpty.string_of_int (Z.to_int n).

Definition hex_digit (n : nat) : ascii :=
  if (n <? 10)%nat then ascii_of_nat (48 + n) else ascii_of_nat (87 + n).

(** The JSON escape of one character (the abstract operation Quote):
    the quote and the backslash are escaped, the control characters below
    U+0020 are written with their short form or as [\u00XX]. *)
Definition escape_char (c : ascii) : string :=
  let n := nat_of_ascii c in
  if (n =? 34)%nat then String backslash (str1 dquote)
  else if (n =? 92)%nat then String backslash (str1 backslash)
  else if (n =? 8)%nat then String backslash "b"
  else if (n =? 12)%nat then String backslash "f"
  else if (n =? 10)%nat then String backslash "n"
  else if (n =? 13)%nat then String backslash "r"
  else if (n =? 9)%nat then String backslash "t"
  else if (n <? 32)%nat then
    String backslash
      (String "u" (String "0" (String "0"
         (String (hex_digit (n / 16)) (str1 (hex_digit (n mod 16)))))))
  else str1 c.

Fixpoint escape (s : string) : string :=
  match s with
  | EmptyString => EmptyString
  | String c r => escape_char c ++ escape r
  end.

Definition quote (s : string) : string :=
  String dquote (escape s ++ str1 dquote).

(** *** JSON.stringify

    [None] is the result [undefined] (of [undefined] itself and of a
    function).  Inside an array such a value prints as [null]; inside an
    object a member with such a value is left out. *)
Fixpoint JSON_stringify (v : jsval) : option string :=
  match v with
  | VUndefined => None
  | VNull => Some "null"
  | VBool b => Some (if b then "true" else "false")
  | VNum n => Some (number_to_string n)
  | VStr s => Some (quote s)
  | VArr items =>
      Some ("[" ++ join ","
              (map (fun x => match JSON_stringify x with
                             | Some t => t
                             | None => "null"
                             end) items) ++ "]")
  | VObj fields =>
      Some ("{" ++ join ","
              (flat_map (fun kv => match JSON_stringify (snd kv) with
                                   | Some t => [quote (fst kv) ++ ":" ++ t]
                                   | None => []
                                   end) fields) ++ "}")
  | VRemoved => Some ("{" ++ quote "removed" ++ ":true}")
  | VFun _ => None
  end.

(** *** ToString, ToNumber and the [==] operator

    The text of a built-in function is the one V8 gives it. *)

Fixpoint to_string (v : jsval) : string :=
  match v with
  | VUndefined => "undefined"
  | VNull => "null"
  | VBool b => if b then "true" else "false"
  | VNum n => number_to_string n
  | VStr s => s
  | VArr items =>
      join "," (map (fun x => match x with
                              | VUndefined | VNull => ""
                              | _ => to_string x
                              end) items)
  | VObj _ | VRemoved => "[object Object]"
  | VFun name => "function " ++ name ++ "() { [native code] }"
  end.

Definition is_space (c : ascii) : bool :=
  let n := nat_of_ascii c in
  ((n =? 32) || ((9 <=? n) && (n <=? 13)))%nat.

Fixpoint trim_left (s : string) : string :=
  match s with
  | String c r => if is_space c then trim_left r else s
  | EmptyString => EmptyString
  end.

Fixpoint rev_string (s acc : string) : string :=
  match s with
  | EmptyString => acc
  | String c r => rev_string r (String c acc)
  end.

Definition trim (s : string) : string :=
  rev_string (trim_left (rev_string (trim_left s) "")) "".

Definition digit_of (c : ascii) : option Z :=
  let n := nat_of_ascii c in
  if ((48 <=? n) && (n <=? 57))%nat then Some (Z.of_nat (n - 48)) else None.

Fixpoint parse_digits (s : string) (acc : Z) : option Z :=
  match s with
  | EmptyString => Some acc
  | String c r =>
      match digit_of c with
      | Some d => parse_digits r (10 * acc + d)
      | None => None
      end
  end.

(** ToNumber on a string, for the texts of the integers of the model:
    white space is trimmed, the empty string is [0], a sign may precede
    the digits.  [None] is [NaN].  ToNumber also reads a decimal point,
    an exponent and a radix prefix, and rounds an integer beyond 2^53:
    such texts are outside the model. *)
Definition string_to_number (s : string) : option Z :=
  match trim s with
  | EmptyString => Some 0%Z
  | String c r =>
      if Ascii.eqb c "-" then
        match r with
        | EmptyString => None
        | _ => option_map Z.opp (parse_digits r 0)
        end
      else if Ascii.eqb c "+" then
        match r with
        | EmptyString => None
        | _ => parse_digits r 0
        end
      else parse_digits (String c r) 0
  end.

Definition num_eq_str (a : Z) (s : string) : bool :=
  match string_to_number s with
  | Some b => Z.eqb a b
  | None => false
  end.

Definition bool_to_number (v : jsval) : jsval :=
  match v with
  | VBool b => VNum (if b then 1 else 0)
  | _ => v
  end.

(** The abstract equality comparison [x == y].  A boolean operand is first
    converted to a number; an object compared with a number or a string is
    converted to its primitive, which is its string.  Two objects are equal
    when they are the same object: identity is tracked for the removed
    marker and for the built-in functions only, and
    [comparePropertyValues] never compares two objects with [==]. *)
Definition loose_eq (x y : jsval) : bool :=
  match bool_to_number x, bool_to_number y with
  | VUndefined, (VUndefined | VNull) => true
  | VNull, (VUndefined | VNull) => true
  | VNum a, VNum b => Z.eqb a b
  | VStr a, VStr b => String.eqb a b
  | VNum a, VStr b => num_eq_str a b
  | VStr a, VNum b => num_eq_str b a
  | VNum a, ((VArr _ | VObj _ | VRemoved | VFun _) as o) =>
      num_eq_str a (to_string o)
  | ((VArr _ | VObj _ | VRemoved | VFun _) as o), VNum b =>
      num_eq_str b (to_string o)
  | VStr a, ((VArr _ | VObj _ | VRemoved | VFun _) as o) =>
      String.eqb a (to_string o)
  | ((VArr _ | VObj _ | VRemoved | VFun _) as o), VStr b =>
      String.eqb (to_string o) b
  | VRemoved, VRemoved => true
  | VFun a, VFun b => String.eqb a b
  | _, _ => false
  end.

(** Equality of two results of [JSON.stringify]. *)
Definition opt_string_eqb (a b : option string) : bool :=
  match a, b with
  | Some x, Some y => String.eqb x y
  | None, None => true
  | _, _ => false
  end.

(** *** Objects as maps *)

Definition JsObject := list (string * jsval).

(** The member that the map holds under the key, [undefined] when it
    holds none. *)
Fixpoint obj_get (o : JsObject) (k : string) : jsval :=
  match o with
  | [] => VUndefined
  | (k', v) :: r => if String.eqb k' k then v else obj_get r k
  end.

(** The names of the function members of [Object.prototype]. *)
Definition prototype_methods : list string :=
  ["toString"; "toLocaleString"; "valueOf"; "hasOwnProperty";
   "isPrototypeOf"; "propertyIsEnumerable"; "__defineGetter__";
   "__defineSetter__"; "__lookupGetter__"; "__lookupSetter__"].

(** [Object.prototype[k]], read on a plain object: [constructor] is the
    function [Object], the getter of [__proto__] answers [Object.prototype]
    itself, an object with no enumerable member; any other name that is no
    member reads [undefined]. *)
Definition Object_prototype (k : string) : jsval :=
  if String.eqb k "constructor" then VFun "Object"
  else if String.eqb k "__proto__" then VObj []
  else if existsb (String.eqb k) prototype_methods then VFun k
  else VUndefined.

(** [o[k]] on a plain object: the member of the map, or else the member of
    [Object.prototype]. *)
Fixpoint obj_read (o : JsObject) (k : string) : jsval :=
  match o with
  | [] => Object_prototype k
  | (k', v) :: r => if String.eqb k' k then v else obj_read r k
  end.

(** [o[k] = v] for a key that is a property name other than [__proto__]:
    an existing key keeps its place, a new one goes last. *)
Fixpoint obj_set (o : JsObject) (k : string) (v : jsval) : JsObject :=
  match o with
  | [] => [(k, v)]
  | (k', v') :: r =>
      if String.eqb k' k then (k, v) :: r else (k', v') :: obj_set r k v
  end.

(** [delete o[k]] *)
Definition obj_delete (o : JsObject) (k : string) : JsObject :=
  filter (fun kv => negb (String.eqb (fst kv) k)) o.

(** [k in o] *)
Fixpoint obj_has (o : JsObject) (k : string) : bool :=
  match o with
  | [] => false
  | (k', _) :: r => String.eqb k' k || obj_has r k
  end.

Fixpoint drop_leading_undefined (l : list jsval) : list jsval :=
  match l with
  | VUndefined :: r => drop_leading_undefined r
  | _ => l
  end.

(** The length of a copied array ends at its last element that was
    assigned. *)
Definition strip_trailing_undefined (l : list jsval) : list jsval :=
  rev (drop_leading_undefined (rev l)).

(** [$.extend(true, {}, v)], the deep copy of jQuery: plain objects and
    arrays are copied recursively, a member whose value is [undefined] is
    not copied, anything else (a function too) is assigned as it is.  The
    copy of the removed marker is a new object of the same shape. *)
Fixpoint extend_deep (v : jsval) : jsval :=
  match v with
  | VArr items => VArr (strip_trailing_undefined (map extend_deep items))
  | VObj fields =>
      VObj (flat_map (fun kv => if is_undefined (snd kv) then []
                                else [(fst kv, extend_deep (snd kv))])
              fields)
  | VRemoved => VObj [("removed", VBool true)]
  | _ => v
  end.

End Js.

Import Js.

(** ** Results of calls that may throw *)

Inductive Error : Type :=
| MissingUniqueId          (* 'Inspector surface unique ID should be defined.' *)
| UnknownEditorClass (type : string)
                           (* 'The Inspector editor class ... is not defined' *)
| MissingHeadElement       (* 'Cannot find TH element for the Inspector row' *)
| NullElement              (* a member of a missing element is read *)
| NotAFunction             (* a value that is no function, or no
                              constructor, is called *)
| SelectorSyntax.          (* querySelector is given an invalid selector *)

Inductive result (A : Type) : Type :=
| Ok (a : A)
| Throw (e : Error).

Arguments Ok {A} a.
Arguments Throw {A} e.

Definition bind {A B : Type} (m : result A) (k : A -> result B) : result B :=
  match m with
  | Ok a => k a
  | Throw e => Throw e
  end.

Notation "x <- m ;; k" := (bind m (fun x => k))
  (at level 61, m at next level, right associativity).

Definition opt_eqb (a b : option string) : bool :=
  match a, b with
  | Some x, Some y => String.eqb x y
  | None, None => true
  | _, _ => false
  end.

(** ** Class lists of elements *)

Definition hasClass (classes : list string) (c : string) : bool :=
  existsb (String.eqb c) classes.

Definition addClass (classes : list string) (c : string) : list string :=
  if hasClass classes c then classes else (classes ++ [c])%list.

Definition removeClass (classes : list string) (c : string) : list string :=
  filter (fun x => negb (String.eqb c x)) classes.

(** [toggleClass(el, c, add)] with its third argument given. *)
Definition toggleClass (classes : list string) (c : string) (add : bool)
  : list string :=
  if add then addClass classes c else removeClass classes c.

(** ** Groups *)

Definition GroupIndex := string.

Module GroupManager.

(** Modelled from the spec: the Group class is not under src/.  A group has
    an identifier, unique within its manager, and a reference to the group
    that encloses it (section 3). *)
#[local] Unset Elimination Schemes.
Inductive Group : Type :=
| mkGroup (groupIndex : GroupIndex) (parentGroup : option Group).
#[local] Set Elimination Schemes.

Definition groupIndex (g : Group) : GroupIndex :=
  match g with mkGroup i _ => i end.

Definition parentGroup (g : Group) : option Group :=
  match g with mkGroup _ p => p end.

(** Modelled from the spec: Group.getLevel is not under src/.  The level of
    a group is one more than the level of its parent, and 0 without a
    parent (section 3). *)
Fixpoint getLevel (g : Group) : nat :=
  match g with
  | mkGroup _ None => 0
  | mkGroup _ (Some p) => S (getLevel p)
  end.

(** Modelled from the spec: Group.getGroupAndAllParents is not under src/
    and the spec has no sentence on it; it is the group followed by its
    chain of [parentGroup] references, as the data model of section 3 and
    the name of the method have it. *)
Fixpoint getGroupAndAllParents (g : Group) : list Group :=
  match g with
  | mkGroup _ None => [g]
  | mkGroup _ (Some p) => g :: getGroupAndAllParents p
  end.

(** The ancestors of a group, nearest first. *)
Definition ancestors (g : Group) : list Group :=
  match parentGroup g with
  | Some p => getGroupAndAllParents p
  | None => []
  end.

(** Modelled from the spec: the GroupManager class is not under src/.  It
    owns the groups it created and the record of which of them are
    collapsed or expanded (sections 3 and 4.2). *)
Record t : Type := mk {
  groups : list Group;
  statuses : list (GroupIndex * bool)
}.

Definition empty : t := mk [] [].

(** Modelled from the spec: createGroup makes a new group under the given
    parent at every call (section 4.2). *)
Definition createGroup (i : GroupIndex) (parent : option Group) (m : t)
  : Group * t :=
  let g := mkGroup i parent in
  (g, mk (groups m ++ [g])%list (statuses m)).

(** Modelled from the spec: getGroupIndex answers the identifier of the
    group (section 3). *)
Definition getGroupIndex (g : Group) : GroupIndex := groupIndex g.

Fixpoint lookup_status (st : list (GroupIndex * bool)) (i : GroupIndex)
  : option bool :=
  match st with
  | [] => None
  | (j, b) :: r => if String.eqb j i then Some b else lookup_status r i
  end.

(** Modelled from the spec: a group is expanded unless it was recorded as
    collapsed (section 4.2). *)
Definition isGroupExpanded (m : t) (g : Group) : bool :=
  match lookup_status (statuses m) (groupIndex g) with
  | Some b => b
  | None => true
  end.

(** Modelled from the spec: setGroupStatus records the state of one group
    and of no other (section 4.2). *)
Definition setGroupStatus (i : GroupIndex) (expanded : bool) (m : t) : t :=
  mk (groups m)
     ((i, expanded) :: filter (fun jb => negb (String.eqb (fst jb) i))
                              (statuses m)).

(** A group is a descendant of the group [i] when [i] is the identifier of
    one of its ancestors. *)
Definition is_descendant_of (i : GroupIndex) (g : Group) : bool :=
  existsb (fun a => String.eqb (groupIndex a) i) (ancestors g).

Definition descendants (m : t) (i : GroupIndex) : list GroupIndex :=
  map groupIndex (filter (is_descendant_of i) (groups m)).

Section GroupInduction.
Variable P : Group -> Prop.
Hypothesis Hroot : forall i, P (mkGroup i None).
Hypothesis Hchild : forall i p, P p -> P (mkGroup i (Some p)).

Fixpoint Group_ind (g : Group) : P g :=
  match g with
  | mkGroup i None => Hroot i
  | mkGroup i (Some p) => Hchild i p (Group_ind p)
  end.
End GroupInduction.

End GroupManager.

Export GroupManager (Group, mkGroup).

(** ** Rows of the Inspector table *)

Record Row : Type := mkRow {
  row_id : nat;                                (* the identity of the node *)
  data_property : option string;
  data_group_index : option GroupIndex;
  data_parent_group_index : option GroupIndex;
  data_group_level : option nat;
  row_class : list string;
  has_head : bool;                             (* the row has a TH child *)
  has_cell : bool;                             (* the row has a TD child *)
  link_class : option (list string)            (* class of its first A *)
}.

Definition set_row_class (r : Row) (c : list string) : Row :=
  mkRow (row_id r) (data_property r) (data_group_index r)
        (data_parent_group_index r) (data_group_level r) c
        (has_head r) (has_cell r) (link_class r).

Definition set_link_class (r : Row) (c : option (list string)) : Row :=
  mkRow (row_id r) (data_property r) (data_group_index r)
        (data_parent_group_index r) (data_group_level r) (row_class r)
        (has_head r) (has_cell r) c.

Definition set_group_level (r : Row) (l : option nat) : Row :=
  mkRow (row_id r) (data_property r) (data_group_index r)
        (data_parent_group_index r) l (row_class r)
        (has_head r) (has_cell r) (link_class r).

Definition set_group_attributes (r : Row) (gi pgi : option GroupIndex)
  : Row :=
  mkRow (row_id r) (data_property r) gi pgi (data_group_level r)
        (row_class r) (has_head r) (has_cell r) (link_class r).

Definition set_has_cell (r : Row) (b : bool) : Row :=
  mkRow (row_id r) (data_property r) (data_group_index r)
        (data_parent_group_index r) (data_group_level r) (row_class r)
        (has_head r) b (link_class r).

(** The first row of [rows] that satisfies [p] is replaced by its image. *)
Fixpoint update_first (p : Row -> bool) (f : Row -> Row) (rows : list Row)
  : list Row :=
  match rows with
  | [] => []
  | r :: rest => if p r then f r :: rest else r :: update_first p f rest
  end.

Definition is_row (id : nat) (r : Row) : bool := Nat.eqb (row_id r) id.

(** The document: the rows of the table body under each table container,
    in document order.  A row is a node, and is under one body at most. *)
Definition Dom := list (nat * list Row).

Fixpoint dom_rows (d : Dom) (container : nat) : list Row :=
  match d with
  | [] => []
  | (c, rows) :: rest =>
      if Nat.eqb c container then rows else dom_rows rest container
  end.

Fixpoint dom_set_rows (d : Dom) (container : nat) (rows : list Row) : Dom :=
  match d with
  | [] => [(container, rows)]
  | (c, old) :: rest =>
      if Nat.eqb c container then (c, rows) :: rest
      else (c, old) :: dom_set_rows rest container rows
  end.

(** The name stands for itself between the quotes of a selector: it has
    no double quote, no backslash, no line break and no null character. *)
Definition selector_char (c : ascii) : bool :=
  negb (existsb (Ascii.eqb c)
          ["034"%char; "092"%char; "010"%char; "012"%char; "013"%char;
           "000"%char]).

Definition selector_plain (p : string) : bool :=
  forallb selector_char (list_ascii_of_string p).

(** The row that [querySelector('tr[data-property="' + p + '"]')] finds.
    The name is pasted into the selector as it is: the selector is the
    test of the attribute against [p] only for a name that stands for
    itself there.  For another name the text is either no selector, and
    the call throws, or a selector of something else; no row is found
    under that name. *)
Definition find_property_row (rows : list Row) (p : string) : option Row :=
  if selector_plain p
  then find (fun r => opt_eqb (data_property r) (Some p)) rows
  else None.

Module GroupRows.

(** Modelled from the spec: Group.findGroupRow is not under src/.  The row
    of a group is the row tagged with the identifier of the group
    (section 4.3, step 3). *)
Definition findGroupRow (table : list Row) (g : Group) : option Row :=
  find (fun r => opt_eqb (data_group_index r)
                        (Some (GroupManager.groupIndex g))) table.

Definition belongs_to (i : GroupIndex) (r : Row) : bool :=
  opt_eqb (data_parent_group_index r) (Some i).

(** Modelled from the spec: GroupManager.findGroupRows is not under src/.
    It returns the rows that belong to the group and, if requested, the
    rows of all its nested descendant groups (section 4.2); a row belongs
    to the group whose identifier it carries as its parent (section 4.3,
    step 3).  The rows are returned as references, in document order. *)
Definition findGroupRows (m : GroupManager.t) (table : list Row)
    (i : GroupIndex) (includeDescendants : bool) : list nat :=
  map row_id
    (filter (fun r =>
               belongs_to i r ||
               (includeDescendants &&
                existsb (fun j => belongs_to j r)
                        (GroupManager.descendants m i)))
            table).

End GroupRows.

(** ** The data model of the surface *)

(** An item of [parsedProperties.properties]: a property or a group
    marker.  A member that is absent is [None] (or [VUndefined] for the
    default value). *)
Record PropertyDefinition : Type := mkProperty {
  property : option string;
  itemType : string;
  groupIndex : option GroupIndex;
  title : string;
  description : option string;
  type : option string;
  default : jsval;
  showExternalParam : bool
}.

(** A property name used as a key or written into a selector. *)
Definition prop_key (name : option string) : string :=
  match name with
  | Some n => n
  | None => "undefined"
  end.

Module Editor.

(** What the surface reads from a property editor (the editor classes are
    not part of this file). *)
Record t : Type := mk {
  id : nat;                                (* the identity of the object *)
  propertyDefinition : PropertyDefinition;
  parentGroup : option Group;
  getPropertyName : option string;
  getUndefinedValue : jsval;
  validate : bool;
  isGroupedEditor : bool;
  supportsExternalParameterEditor : bool;
  group : option Group;                    (* of a grouped editor *)
  hasChildSurface : bool;
  cellIsEmpty : bool                       (* it added nothing to its cell *)
}.

(** Modelled from the spec: the editor classes are not under src/.  An
    editor is created for one property definition under one group
    (section 3); the rest is what its class answers. *)
Definition create (cls : PropertyDefinition -> Group -> t) (i : nat)
    (p : PropertyDefinition) (g : Group) : t :=
  let e := cls p g in
  mk i p (Some g) (getPropertyName e) (getUndefinedValue e) (validate e)
     (isGroupedEditor e) (supportsExternalParameterEditor e) (group e)
     (hasChildSurface e) (cellIsEmpty e).

End Editor.

Definition EditorClass := PropertyDefinition -> Group -> Editor.t.

Module ExternalParameterEditor.

(** What the surface reads from an external parameter editor. *)
Record t : Type := mk {
  id : nat;
  getPropertyName : option string;
  isEditorVisible : bool;
  getValue : string;                       (* the text of its input *)
  validate : bool
}.

Definition with_id (i : nat) (e : t) : t :=
  mk i (getPropertyName e) (isEditorVisible e) (getValue e) (validate e).

End ExternalParameterEditor.

(** The part of the [$.oc.inspector] namespace that this file reads. *)
Record Namespace : Type := mkNamespace {
  propertyEditors : list (string * EditorClass);
  externalParameterEditor :
    option PropertyDefinition -> ExternalParameterEditor.t
}.

Fixpoint lookup_class (reg : list (string * EditorClass)) (type : string)
  : option EditorClass :=
  match reg with
  | [] => None
  | (t, c) :: r => if String.eqb t type then Some c else lookup_class r type
  end.

(** [Surface.DEFAULTS] merged with the options of the caller; a callback is
    present or [null]. *)
Record Options : Type := mkOptions {
  enableExternalParameterEditor : bool;
  onChange : bool;
  onPopupDisplayed : bool;
  onPopupHidden : bool
}.

Definition DEFAULTS : Options := mkOptions false false false false.

(** Calls made on collaborators, in call order. *)
Inductive Event : Type :=
| EvPropertyChanged (editor : nat) (property : string) (value : jsval)
| EvOnChange (property : string) (value : jsval)
| EvUpdateDisplayedValue (editor : nat) (value : jsval)
| EvUnmarkInvalidGroups
| EvValidate (editor : nat)
| EvExternalValidate (editor : nat)
| EvMarkInvalid (editor : nat)
| EvFocus (editor : nat)
| EvExternalFocus (editor : nat)
| EvFindGroupRows (groupIndex : GroupIndex) (flag : bool)
| EvSetTimeout (duration : option nat)
| EvToggleRow (row : nat) (collapse : bool)
| EvSetGroupStatus (groupIndex : GroupIndex) (expanded : bool).

(** A callback given to [setTimeout] by [expandOrCollapseRows]: the row it
    toggles, the rows left (the next to be popped first), and the arguments
    of the call that made it. *)
Record Timer : Type := mkTimer {
  timer_row : nat;
  timer_rows : list nat;
  timer_collapse : bool;
  timer_duration : option nat
}.

(** The state of a surface, with the objects of the page that it reaches:
    the document, the group manager of its root surface, the pending
    timers and the log of calls.  [parentSurface] is [None] for the root
    surface and otherwise the table container of the root surface. *)
Record Surface : Type := mkSurface {
  options : Options;
  parsedProperties : list PropertyDefinition;
  hasGroups : bool;
  inspectorUniqueId : string;
  values : JsObject;
  originalValues : JsObject;
  parentSurface : option nat;
  editors : list Editor.t;
  externalParameterEditors : list ExternalParameterEditor.t;
  tableContainer : nat;
  group : option Group;
  document : Dom;
  groupManager : GroupManager.t;
  timers : list Timer;
  log : list Event;
  nextId : nat
}.

Definition set_values (s : Surface) (v : JsObject) : Surface :=
  mkSurface (options s) (parsedProperties s) (hasGroups s)
    (inspectorUniqueId s) v (originalValues s) (parentSurface s)
    (editors s) (externalParameterEditors s) (tableContainer s) (group s)
    (document s) (groupManager s) (timers s) (log s) (nextId s).

Definition set_document (s : Surface) (d : Dom) : Surface :=
  mkSurface (options s) (parsedProperties s) (hasGroups s)
    (inspectorUniqueId s) (values s) (originalValues s) (parentSurface s)
    (editors s) (externalParameterEditors s) (tableContainer s) (group s)
    d (groupManager s) (timers s) (log s) (nextId s).

Definition set_groupManager (s : Surface) (m : GroupManager.t) : Surface :=
  mkSurface (options s) (parsedProperties s) (hasGroups s)
    (inspectorUniqueId s) (values s) (originalValues s) (parentSurface s)
    (editors s) (externalParameterEditors s) (tableContainer s) (group s)
    (document s) m (timers s) (log s) (nextId s).

Definition set_timers (s : Surface) (t : list Timer) : Surface :=
  mkSurface (options s) (parsedProperties s) (hasGroups s)
    (inspectorUniqueId s) (values s) (originalValues s) (parentSurface s)
    (editors s) (externalParameterEditors s) (tableContainer s) (group s)
    (document s) (groupManager s) t (log s) (nextId s).

Definition add_log (s : Surface) (ev : list Event) : Surface :=
  mkSurface (options s) (parsedProperties s) (hasGroups s)
    (inspectorUniqueId s) (values s) (originalValues s) (parentSurface s)
    (editors s) (externalParameterEditors s) (tableContainer s) (group s)
    (document s) (groupManager s) (timers s) (log s ++ ev)%list (nextId s).

(** ** Helpers *)

(** [Surface.prototype.comparePropertyValues] (lines 738-752) *)
Definition comparePropertyValues (oldValue newValue : jsval) : bool :=
  if is_undefined oldValue && negb (is_undefined newValue) then false
  else if negb (is_undefined oldValue) && is_undefined newValue then false
  else if String.eqb (typeof oldValue) "object"
          && String.eqb (typeof newValue) "object"
  then opt_string_eqb (JSON_stringify oldValue) (JSON_stringify newValue)
  else loose_eq oldValue newValue.

(** [Surface.prototype.getRootSurface] (lines 682-692), for what is read
    from it: the table container of the root surface. *)
Definition getRootTableContainer (s : Surface) : nat :=
  match parentSurface s with
  | None => tableContainer s
  | Some c => c
  end.

(** [Surface.prototype.getRootTable] (lines 754-756) *)
Definition getRootTable (s : Surface) : list Row :=
  dom_rows (document s) (getRootTableContainer s).

(** [Surface.prototype.findPropertyEditor] (lines 586-594) *)
Definition findPropertyEditor (s : Surface) (name : option string)
  : option Editor.t :=
  find (fun e => opt_eqb (Editor.getPropertyName e) name) (editors s).

(** [Surface.prototype.findExternalParameterEditor] (lines 596-604) *)
Definition findExternalParameterEditor (s : Surface) (name : option string)
  : option ExternalParameterEditor.t :=
  find (fun e => opt_eqb (ExternalParameterEditor.getPropertyName e) name)
       (externalParameterEditors s).

(** [Surface.prototype.findPropertyDefinition] (lines 606-616) *)
Definition findPropertyDefinition (s : Surface) (name : option string)
  : option PropertyDefinition :=
  find (fun d => opt_eqb (property d) name) (parsedProperties s).

(** [type === undefined] gives ['string'] (lines 480-482, 619-621). *)
Definition editor_type (type : option string) : string :=
  match type with
  | Some t => t
  | None => "string"
  end.

(** [Surface.prototype.validateEditorType] (lines 618-627): the registry
    is a plain object, and the test [=== undefined] of line 623 reads a
    type that is not registered through [Object.prototype]. *)
Definition validateEditorType (ns : Namespace) (type : option string)
  : result unit :=
  match lookup_class (propertyEditors ns) (editor_type type) with
  | None =>
      if is_undefined (Object_prototype (editor_type type))
      then Throw (UnknownEditorClass (editor_type type))
      else Ok tt
  | Some _ => Ok tt
  end.

(** ** Internal API for the editors *)

(** [Surface.prototype.getPropertyValue] (lines 517-519) *)
Definition getPropertyValue (s : Surface) (name : string) : jsval :=
  obj_read (values s) name.

(** [Surface.prototype.markPropertyChanged] (lines 575-584): the class
    helpers read the class list of the row that [querySelector] found.
    For a name that does not stand for itself in the selector the model
    has the syntax error of [querySelector]; a name that would make the
    text another valid selector is not modelled further. *)
Definition markPropertyChanged (name : string) (changed : bool)
    (s : Surface) : result Surface :=
  let rows := dom_rows (document s) (tableContainer s) in
  match find_property_row rows name with
  | None => Throw (if selector_plain name then NullElement
                   else SelectorSyntax)
  | Some _ =>
      let mark r :=
        set_row_class r
          (if changed then addClass (row_class r) "changed"
           else removeClass (row_class r) "changed") in
      Ok (set_document s
            (dom_set_rows (document s) (tableContainer s)
               (update_first
                  (fun r => opt_eqb (data_property r) (Some name))
                  mark rows)))
  end.

(** [Surface.prototype.notifyEditorsPropertyChanged] (lines 556-562) *)
Definition notifyEditorsPropertyChanged (name : string) (value : jsval)
    (s : Surface) : Surface :=
  add_log s
    (map (fun editor => EvPropertyChanged (Editor.id editor) name value)
         (editors s)).

(** [Surface.prototype.setPropertyValue] (lines 521-554) *)
Definition setPropertyValue (name : string) (value : jsval)
    (supressChangeEvents forceEditorUpdate : bool) (s : Surface)
  : result (jsval * Surface) :=
  let s1 :=
    if negb (is_undefined value)
    then set_values s (obj_set (values s) name value)
    else if negb (is_undefined (obj_read (values s) name))
         then set_values s (obj_delete (values s) name)
         else s in
  s2 <- (if negb supressChangeEvents then
           s' <- (if is_undefined (obj_read (originalValues s1) name)
                     || negb (comparePropertyValues
                                (obj_read (originalValues s1) name) value)
                  then markPropertyChanged name true s1
                  else markPropertyChanged name false s1) ;;
           let s'' := notifyEditorsPropertyChanged name value s' in
           Ok (if onChange (options s'')
               then add_log s'' [EvOnChange name value]
               else s'')
         else Ok s1) ;;
  let s3 :=
    if forceEditorUpdate then
      match findPropertyEditor s2 (Some name) with
      | Some editor =>
          add_log s2 [EvUpdateDisplayedValue (Editor.id editor) value]
      | None => s2
      end
    else s2 in
  Ok (value, s3).

(** ** External API *)

(** One turn of the loop of [getValues]. *)
Definition getValues_step (s : Surface) (result : JsObject)
    (p : PropertyDefinition) : JsObject :=
  if negb (String.eqb (itemType p) "property") then result
  else
    let fromValues :=
      let value := getPropertyValue s (prop_key (property p)) in
      let value :=
        if is_undefined value then
          match findPropertyEditor s (property p) with
          | Some editor => Editor.getUndefinedValue editor
          | None => default p
          end
        else value in
      if is_removed value then result
      else obj_set result (prop_key (property p)) value in
    match findExternalParameterEditor s (property p) with
    | None => fromValues
    | Some externalParameterEditor =>
        if negb (ExternalParameterEditor.isEditorVisible
                   externalParameterEditor)
        then fromValues
        else
          let value :=
            ExternalParameterEditor.getValue externalParameterEditor in
          obj_set result (prop_key (property p))
                  (VStr ("{{ " ++ value ++ " }}"))
    end.

(** [Surface.prototype.getValues] (lines 762-802) *)
Definition getValues (s : Surface) : JsObject :=
  fold_left (getValues_step s) (parsedProperties s) [].

(** The loop of [validate] over the editors that are left: its result and
    the calls it makes. *)
Fixpoint validate_loop (s : Surface) (eds : list Editor.t)
  : bool * list Event :=
  match eds with
  | [] => (true, [])
  | editor :: rest =>
      let base :=
        if negb (Editor.validate editor) then
          (false, [EvValidate (Editor.id editor);
                   EvMarkInvalid (Editor.id editor)])
        else
          let (r, ev) := validate_loop s rest in
          (r, EvValidate (Editor.id editor) :: ev) in
      match findExternalParameterEditor s
              (property (Editor.propertyDefinition editor)) with
      | None => base
      | Some externalEditor =>
          if ExternalParameterEditor.isEditorVisible externalEditor then
            if negb (ExternalParameterEditor.validate externalEditor) then
              (false,
               [EvExternalValidate
                  (ExternalParameterEditor.id externalEditor);
                EvMarkInvalid (Editor.id editor)])
            else
              let (r, ev) := validate_loop s rest in
              (r, EvExternalValidate
                    (ExternalParameterEditor.id externalEditor) :: ev)
          else base
      end
  end.

(** [Surface.prototype.validate] (lines 804-828) *)
Definition validate (s : Surface) : bool * Surface :=
  let s1 := add_log s [EvUnmarkInvalidGroups] in
  let (r, ev) := validate_loop s1 (editors s1) in
  (r, add_log s1 ev).

(** [Surface.prototype.hasChanges] (lines 830-832) *)
Definition hasChanges (s : Surface) : bool :=
  negb (comparePropertyValues (VObj (originalValues s)) (VObj (values s))).

(** ** Nodes of the document *)

Fixpoint dom_find_row (d : Dom) (id : nat) : option Row :=
  match d with
  | [] => None
  | (_, rows) :: rest =>
      match find (is_row id) rows with
      | Some r => Some r
      | None => dom_find_row rest id
      end
  end.

(** [row.parentNode]: the body that holds the row. *)
Fixpoint dom_parent (d : Dom) (id : nat) : option nat :=
  match d with
  | [] => None
  | (c, rows) :: rest =>
      if existsb (is_row id) rows then Some c else dom_parent rest id
  end.

Definition dom_update_row (d : Dom) (id : nat) (f : Row -> Row) : Dom :=
  map (fun cr =>
         (fst cr, map (fun r => if is_row id r then f r else r) (snd cr)))
      d.

Definition dom_remove_row (d : Dom) (id : nat) : Dom :=
  map (fun cr => (fst cr, filter (fun r => negb (is_row id r)) (snd cr))) d.

(** [row.nextSibling] *)
Fixpoint next_sibling (rows : list Row) (id : nat) : option nat :=
  match rows with
  | [] => None
  | r :: rest =>
      if is_row id r then option_map row_id (hd_error rest)
      else next_sibling rest id
  end.

Fixpoint insert_before_row (rows : list Row) (r : Row) (ref : nat)
  : list Row :=
  match rows with
  | [] => [r]
  | x :: rest =>
      if is_row ref x then r :: x :: rest
      else x :: insert_before_row rest r ref
  end.

(** [parent.insertBefore(node, ref)]: the node leaves the place it has in
    the document and goes before [ref], or last when [ref] is [null]; when
    [ref] is the node itself, its next sibling is the reference. *)
Definition insertBefore (parent node : nat) (ref : option nat) (d : Dom)
  : result Dom :=
  match dom_find_row d node with
  | None => Throw NullElement
  | Some r =>
      let ref' :=
        match ref with
        | Some j => if Nat.eqb j node
                    then next_sibling (dom_rows d parent) node
                    else ref
        | None => None
        end in
      let d1 := dom_remove_row d node in
      Ok (dom_set_rows d1 parent
            (match ref' with
             | Some j => insert_before_row (dom_rows d1 parent) r j
             | None => (dom_rows d1 parent ++ [r])%list
             end))
  end.

(** ** Field grouping *)

(** [Surface.prototype.applyGroupLevelToRow] (lines 387-402), on a row. *)
Definition applyGroupLevelToRow (row : Row) (g : option Group)
  : result Row :=
  match data_group_level row with
  | Some _ => Ok row
  | None =>
      if negb (has_head row) then Throw MissingHeadElement
      else
        match g with
        | None => Throw NullElement
        | Some g => Ok (set_group_level row (Some (GroupManager.getLevel g)))
        end
  end.

(** The same on a row of the document. *)
Definition applyGroupLevelToRow_in (row : nat) (g : option Group) (d : Dom)
  : result Dom :=
  match dom_find_row d row with
  | None => Throw NullElement
  | Some r =>
      r' <- applyGroupLevelToRow r g ;;
      Ok (dom_update_row d row (fun _ => r'))
  end.

(** An attribute that is missing reads [null], and is written into a
    selector as such. *)
Definition attr_text (a : option string) : string :=
  match a with
  | Some x => x
  | None => "null"
  end.

(** [Math.round(50 / n)]; [None] is [Infinity]. *)
Definition round_50_div (n : nat) : option nat :=
  match n with
  | 0 => None
  | _ => Some ((100 + n) / (2 * n))
  end.

Arguments round_50_div : simpl never.

Definition toggle_row (collapse : bool) (r : Row) : Row :=
  set_row_class r
    (toggleClass (toggleClass (row_class r) "collapsed" collapse)
                 "expanded" (negb collapse)).

(** [Surface.prototype.expandOrCollapseRows] (lines 438-458).  [stack] is
    the array [rows] with its last element first, so that [rows.pop()]
    takes the head.  With animation the row is handed to [setTimeout] and
    the call returns. *)
Fixpoint expandOrCollapseRows_stack (stack : list nat) (collapse : bool)
    (duration : option nat) (noAnimation : bool) (s : Surface) : Surface :=
  match stack with
  | [] => s
  | row :: rest =>
      if negb noAnimation then
        add_log
          (set_timers s
             (timers s ++ [mkTimer row rest collapse duration])%list)
          [EvSetTimeout duration]
      else
        expandOrCollapseRows_stack rest collapse duration noAnimation
          (add_log
             (set_document s
                (dom_update_row (document s) row (toggle_row collapse)))
             [EvToggleRow row collapse])
  end.

Definition expandOrCollapseRows (rows : list nat) (collapse : bool)
    (duration : option nat) (noAnimation : bool) (s : Surface) : Surface :=
  expandOrCollapseRows_stack (rev rows) collapse duration noAnimation s.

(** The callback [toggleRow] of the pending timer that was set first
    runs: it toggles its row and calls [expandOrCollapseRows] on the rows
    left.  An animation has one timer pending at a time, so that this is
    the timer that falls due when one animation is under way. *)
Definition run_timer (s : Surface) : Surface :=
  match timers s with
  | [] => s
  | t :: pending =>
      expandOrCollapseRows_stack (timer_rows t) (timer_collapse t)
        (timer_duration t) false
        (add_log
           (set_document (set_timers s pending)
              (dom_update_row (document s) (timer_row t)
                 (toggle_row (timer_collapse t))))
           [EvToggleRow (timer_row t) (timer_collapse t)])
  end.

Fixpoint run_timers (fuel : nat) (s : Surface) : Surface :=
  match fuel with
  | 0 => s
  | S n => match timers s with
           | [] => s
           | _ => run_timers n (run_timer s)
           end
  end.

(** The callback of the pending timer at the given position runs.  When
    several animations are under way their timers fall due in the order
    that their delays decide: any of them may be the next. *)
Definition fire (position : nat) (s : Surface) : Surface :=
  match nth_error (timers s) position with
  | None => s
  | Some t =>
      expandOrCollapseRows_stack (timer_rows t) (timer_collapse t)
        (timer_duration t) false
        (add_log
           (set_document
              (set_timers s
                 (firstn position (timers s)
                  ++ skipn (S position) (timers s))%list)
              (dom_update_row (document s) (timer_row t)
                 (toggle_row (timer_collapse t))))
           [EvToggleRow (timer_row t) (timer_collapse t)])
  end.

(** Pending timers run one after the other, each taken at the position
    that the list gives. *)
Definition fire_all (positions : list nat) (s : Surface) : Surface :=
  fold_left (fun s position => fire position s) positions s.

(** [Surface.prototype.toggleGroup] (lines 404-423) *)
Definition toggleGroup (row : nat) (forceExpand : bool) (s : Surface)
  : result Surface :=
  match dom_find_row (document s) row with
  | None => Throw NullElement
  | Some r =>
      match link_class r with
      | None => Throw NullElement
      | Some link =>
          let groupIndex := attr_text (data_group_index r) in
          let collapse := hasClass link "expanded" && negb forceExpand in
          let s1 :=
            set_document s
              (dom_update_row (document s) row
                 (fun r => set_link_class r
                    (Some (if collapse then removeClass link "expanded"
                           else addClass link "expanded")))) in
          let propertyRows :=
            GroupRows.findGroupRows (groupManager s1) (getRootTable s1)
              groupIndex (negb collapse) in
          let duration := round_50_div (List.length propertyRows) in
          let s2 :=
            expandOrCollapseRows propertyRows collapse duration forceExpand
              (add_log s1 [EvFindGroupRows groupIndex (negb collapse)]) in
          Ok (add_log
                (set_groupManager s2
                   (GroupManager.setGroupStatus groupIndex (negb collapse)
                      (groupManager s2)))
                [EvSetGroupStatus groupIndex (negb collapse)])
      end
  end.

(** The loop of [expandGroupParents]: [groups] from its last element to
    its first. *)
Fixpoint expandGroupParents_loop (reversed : list Group) (s : Surface)
  : result Surface :=
  match reversed with
  | [] => Ok s
  | g :: rest =>
      match GroupRows.findGroupRow (getRootTable s) g with
      | Some row =>
          s' <- toggleGroup (row_id row) true s ;;
          expandGroupParents_loop rest s'
      | None => expandGroupParents_loop rest s
      end
  end.

(** [Surface.prototype.expandGroupParents] (lines 425-436) *)
Definition expandGroupParents (g : Group) (s : Surface) : result Surface :=
  expandGroupParents_loop (rev (GroupManager.getGroupAndAllParents g)) s.

(** ** Nested surfaces *)

(** The loop of [mergeChildSurface]: [rows] from its last element to its
    first. *)
Fixpoint mergeChildSurface_loop (reversed : list nat)
    (surfaceGroup : option Group) (mergeAfterRow : nat) (d : Dom)
  : result Dom :=
  match reversed with
  | [] => Ok d
  | row :: rest =>
      match dom_parent d mergeAfterRow with
      | None => Throw NullElement
      | Some parent =>
          d1 <- insertBefore parent row
                  (next_sibling (dom_rows d parent) mergeAfterRow) d ;;
          d2 <- applyGroupLevelToRow_in row surfaceGroup d1 ;;
          mergeChildSurface_loop rest surfaceGroup mergeAfterRow d2
      end
  end.

Definition set_tableContainer (s : Surface) (c : nat) : Surface :=
  mkSurface (options s) (parsedProperties s) (hasGroups s)
    (inspectorUniqueId s) (values s) (originalValues s) (parentSurface s)
    (editors s) (externalParameterEditors s) c (group s)
    (document s) (groupManager s) (timers s) (log s) (nextId s).

(** [Surface.prototype.mergeChildSurface] (lines 653-664).  The document is
    the one [this] reaches; the result is [this] and the child surface,
    whose table container is now the one of the root surface. *)
Definition mergeChildSurface (surface : Surface) (mergeAfterRow : nat)
    (this : Surface) : result (Surface * Surface) :=
  let rows := map row_id (dom_rows (document this)
                                   (tableContainer surface)) in
  let surface1 := set_tableContainer surface (getRootTableContainer this) in
  d <- mergeChildSurface_loop (rev rows) (group surface1) mergeAfterRow
         (document this) ;;
  Ok (set_document this d, set_document surface1 d).

(** ** Building *)

(** [Surface.prototype.applyGroupIndexAttribute] (lines 375-385) *)
Definition applyGroupIndexAttribute (p : PropertyDefinition) (row : Row)
    (g : option Group) (isGroupedControl : bool) : result Row :=
  match g with
  | None => Throw NullElement
  | Some g =>
      if String.eqb (itemType p) "group" || isGroupedControl then
        match GroupManager.parentGroup g with
        | None => Throw NullElement
        | Some parent =>
            Ok (set_group_attributes row
                  (Some (GroupManager.getGroupIndex g))
                  (Some (GroupManager.getGroupIndex parent)))
        end
      else
        match GroupManager.parentGroup g with
        | Some _ =>
            Ok (set_group_attributes row (data_group_index row)
                  (Some (GroupManager.getGroupIndex g)))
        | None => Ok row
        end
  end.

(** [Surface.prototype.getRowCssClass] (lines 294-309), as the list of
    the classes in the string it returns. *)
Definition getRowCssClass (s : Surface) (p : PropertyDefinition)
    (g : Group) : list string :=
  ([itemType p]
   ++ (if String.eqb (itemType p) "property" then
         match GroupManager.parentGroup g with
         | Some _ =>
             [if GroupManager.isGroupExpanded (groupManager s) g
              then "expanded" else "collapsed"]
         | None => []
         end
       else [])
   ++ (if String.eqb (itemType p) "property" && negb (showExternalParam p)
       then ["no-external-parameter"] else []))%list.

(** [Surface.prototype.buildGroupExpandControl] (lines 317-331): the link
    is appended to the title; the first link of the row is the one that
    [querySelector('a')] finds. *)
Definition buildGroupExpandControl (s : Surface) (row : Row)
    (p : PropertyDefinition) (force : bool) (g : option Group)
  : result Row :=
  if negb (String.eqb (itemType p) "group") && negb force then Ok row
  else
    match g with
    | None => Throw NullElement
    | Some g =>
        let anchor :=
          ("expandControl" ::
             (if GroupManager.isGroupExpanded (groupManager s) g
              then ["expanded"] else []))%list in
        Ok (match link_class row with
            | None => set_link_class row (Some anchor)
            | Some _ => row
            end)
    end.

Definition is_truthy_string (n : option string) : bool :=
  match n with
  | Some EmptyString | None => false
  | Some _ => true
  end.

Definition set_nextId (s : Surface) (n : nat) : Surface :=
  mkSurface (options s) (parsedProperties s) (hasGroups s)
    (inspectorUniqueId s) (values s) (originalValues s) (parentSurface s)
    (editors s) (externalParameterEditors s) (tableContainer s) (group s)
    (document s) (groupManager s) (timers s) (log s) n.

Definition set_editors (s : Surface) (e : list Editor.t) : Surface :=
  mkSurface (options s) (parsedProperties s) (hasGroups s)
    (inspectorUniqueId s) (values s) (originalValues s) (parentSurface s)
    e (externalParameterEditors s) (tableContainer s) (group s)
    (document s) (groupManager s) (timers s) (log s) (nextId s).

Definition set_externalParameterEditors (s : Surface)
    (e : list ExternalParameterEditor.t) : Surface :=
  mkSurface (options s) (parsedProperties s) (hasGroups s)
    (inspectorUniqueId s) (values s) (originalValues s) (parentSurface s)
    (editors s) e (tableContainer s) (group s)
    (document s) (groupManager s) (timers s) (log s) (nextId s).

Definition set_group (s : Surface) (g : option Group) : Surface :=
  mkSurface (options s) (parsedProperties s) (hasGroups s)
    (inspectorUniqueId s) (values s) (originalValues s) (parentSurface s)
    (editors s) (externalParameterEditors s) (tableContainer s) g
    (document s) (groupManager s) (timers s) (log s) (nextId s).

(** [Surface.prototype.buildRow] (lines 226-265); the markup of the title
    and of the description is left out. *)
Definition buildRow (p : PropertyDefinition) (g : option Group)
    (s : Surface) : result (Row * Surface) :=
  let row :=
    mkRow (nextId s)
          (if is_truthy_string (property p) then property p else None)
          None None None [] false false None in
  row <- applyGroupIndexAttribute p row g false ;;
  match g with
  | None => Throw NullElement
  | Some g' =>
      let row := set_row_class row (getRowCssClass s p g') in
      row <- buildGroupExpandControl s row p false g ;;
      Ok (mkRow (row_id row) (data_property row) (data_group_index row)
                (data_parent_group_index row) (data_group_level row)
                (row_class row) true (has_cell row) (link_class row),
          set_nextId s (S (nextId s)))
  end.

(** [Surface.prototype.buildEditor] (lines 468-505).  A type that passed
    [validateEditorType] and is not registered names a member of
    [Object.prototype]: [new] of a built-in method, or of the prototype
    itself, is a type error, and [new Object(surface, ...)] answers the
    surface, which has no method [isGroupedEditor] (line 486). *)
Definition buildEditor (ns : Namespace) (row : Row)
    (p : PropertyDefinition) (g : option Group) (s : Surface)
  : result (Row * Surface) :=
  if negb (String.eqb (itemType p) "property") then Ok (row, s)
  else
    _ <- validateEditorType ns (type p) ;;
    let row := set_has_cell row true in
    match lookup_class (propertyEditors ns) (editor_type (type p)), g with
    | Some cls, Some g =>
        let editor := Editor.create cls (nextId s) p g in
        let s := set_nextId s (S (nextId s)) in
        row <- (if Editor.isGroupedEditor editor then
                  let row :=
                    set_row_class row
                      (addClass (row_class row) "control-group") in
                  row <- applyGroupIndexAttribute p row
                           (Editor.group editor) true ;;
                  row <- buildGroupExpandControl s row p true
                           (Editor.group editor) ;;
                  Ok (if Editor.cellIsEmpty editor
                      then set_has_cell row false else row)
                else Ok row) ;;
        Ok (row, set_editors s (editors s ++ [editor])%list)
    | None, _ => Throw NotAFunction
    | Some _, None => Throw NullElement
    end.

(** One turn of the loop of [build] (lines 177-204): the group the cursor
    is on, the rows of the table body so far, and the surface. *)
Definition build_item (ns : Namespace)
    (acc : option Group * list Row * Surface) (p : PropertyDefinition)
  : result (option Group * list Row * Surface) :=
  let '(currentGroup, tbody, s) := acc in
  let '(currentGroup, s) :=
    if String.eqb (itemType p) "group" then
      let (g, m) :=
        GroupManager.createGroup (prop_key (groupIndex p)) (group s)
          (groupManager s) in
      (Some g, set_groupManager s m)
    else
      match groupIndex p with
      | None => (group s, s)
      | Some _ => (currentGroup, s)
      end in
  rs <- buildRow p currentGroup s ;;
  let (row, s) := rs in
  row <- (if String.eqb (itemType p) "group" then
            applyGroupLevelToRow row
              (match currentGroup with
               | Some g => GroupManager.parentGroup g
               | None => None
               end)
          else applyGroupLevelToRow row currentGroup) ;;
  rs <- buildEditor ns row p currentGroup s ;;
  let (row, s) := rs in
  Ok (currentGroup, (tbody ++ [row])%list, s).

Fixpoint build_loop (ns : Namespace) (items : list PropertyDefinition)
    (acc : option Group * list Row * Surface)
  : result (option Group * list Row * Surface) :=
  match items with
  | [] => Ok acc
  | p :: rest =>
      acc' <- build_item ns acc p ;;
      build_loop ns rest acc'
  end.

(** [Surface.prototype.buildExternalParameterEditor] (lines 347-369) *)
Fixpoint buildExternalParameterEditor (ns : Namespace) (rows : list Row)
    (s : Surface) : Surface :=
  match rows with
  | [] => s
  | row :: rest =>
      if hasClass (row_class row) "no-external-parameter"
         || negb (is_truthy_string (data_property row))
      then buildExternalParameterEditor ns rest s
      else if match findPropertyEditor s (data_property row) with
              | Some propertyEditor =>
                  negb (Editor.supportsExternalParameterEditor
                          propertyEditor)
              | None => false
              end
      then buildExternalParameterEditor ns rest s
      else
        let editor :=
          ExternalParameterEditor.with_id (nextId s)
            (externalParameterEditor ns
               (findPropertyDefinition s (data_property row))) in
        buildExternalParameterEditor ns rest
          (set_nextId
             (set_externalParameterEditors s
                (externalParameterEditors s ++ [editor])%list)
             (S (nextId s)))
  end.

(** The loop of [focusFirstEditor] (lines 274-291). *)
Fixpoint focusFirstEditor_loop (s : Surface) (eds : list Editor.t)
  : list Event :=
  match eds with
  | [] => []
  | editor :: rest =>
      if match Editor.parentGroup editor with
         | Some g => negb (GroupManager.isGroupExpanded (groupManager s) g)
         | None => false
         end
      then focusFirstEditor_loop s rest
      else
        match findExternalParameterEditor s
                (Editor.getPropertyName editor) with
        | Some externalParameterEditor =>
            if ExternalParameterEditor.isEditorVisible
                 externalParameterEditor
            then [EvExternalFocus
                    (ExternalParameterEditor.id externalParameterEditor)]
            else [EvFocus (Editor.id editor)]
        | None => [EvFocus (Editor.id editor)]
        end
  end.

(** [Surface.prototype.focusFirstEditor] (lines 267-292) *)
Definition focusFirstEditor (s : Surface) : Surface :=
  add_log s (focusFirstEditor_loop s (editors s)).

(** [Surface.prototype.build] (lines 164-218) *)
Definition build (ns : Namespace) (s : Surface) : result Surface :=
  let container := nextId s in
  let s := set_tableContainer (set_nextId s (S container)) container in
  acc <- build_loop ns (parsedProperties s) (group s, [], s) ;;
  let '(_, tbody, s) := acc in
  let s := set_document s (dom_set_rows (document s) container tbody) in
  let s :=
    if enableExternalParameterEditor (options s)
    then buildExternalParameterEditor ns tbody s
    else s in
  Ok (match parentSurface s with
      | None => focusFirstEditor s
      | Some _ => s
      end).

(** [Surface.prototype.init] (lines 104-116); the handlers it registers
    are outside the model. *)
Definition init (ns : Namespace) (s : Surface) : result Surface :=
  let s :=
    match parentSurface s, group s with
    | None, None =>
        let (g, m) :=
          GroupManager.createGroup "root" None (groupManager s) in
        set_group (set_groupManager s m) (Some g)
    | _, _ => s
    end in
  build ns s.

(** The constructor [Surface] (lines 38-71).  [properties] is the result
    of [processPropertyGroups], which is not in this file: the items and
    the flag [hasGroups].  The parent surface, when there is one, gives
    the objects of the page; a root surface makes its group manager. *)
Definition new_Surface (ns : Namespace)
    (properties : list PropertyDefinition * bool)
    (values : option JsObject) (inspectorUniqueId : option string)
    (options : Options) (parentSurface : option Surface)
    (group : option Group) : result Surface :=
  match inspectorUniqueId with
  | None => Throw MissingUniqueId
  | Some uid =>
      let values := match values with Some v => v | None => [] end in
      let originalValues :=
        match extend_deep (VObj values) with
        | VObj o => o
        | _ => []
        end in
      init ns
        (match parentSurface with
         | None =>
             mkSurface options (fst properties) (snd properties) uid
               values originalValues None [] [] 0 group
               [] GroupManager.empty [] [] 0
         | Some parent =>
             mkSurface options (fst properties) (snd properties) uid
               values originalValues (Some (getRootTableContainer parent))
               [] [] 0 group
               (document parent) (groupManager parent) (timers parent)
               (log parent) (nextId parent)
         end)
  end.

(** ** The string editor *)

(** Modelled from the spec: the editor classes are not under src/.  The
    string editor is a plain editor: it is named after its property, and
    the substitute it declares for an undefined value is the default of
    its property, as the example of section 8 has it. *)
Definition stringEditor : EditorClass :=
  fun p g =>
    Editor.mk 0 p (Some g) (property p) (default p) true false true None
              false false.

Definition example_namespace : Namespace :=
  mkNamespace [("string", stringEditor)]
    (fun d =>
       ExternalParameterEditor.mk 0
         (match d with Some p => property p | None => None end)
         false "" true).

(** The schema of the example of section 8. *)
Definition example_schema : list PropertyDefinition :=
  [ mkProperty None "group" (Some "1") "Appearance" None None VUndefined
      false;
    mkProperty (Some "color") "property" (Some "1") "" None (Some "string")
      (VStr "#fff") false ].

(** The surface of the example of section 8, with no stored value. *)
Definition empty_surface : Surface :=
  mkSurface DEFAULTS [] false "" [] [] None [] [] 0 None [] GroupManager.empty
    [] [] 0.

Definition example_surface : Surface :=
  Eval vm_compute in
    match new_Surface example_namespace (example_schema, true) (Some [])
            (Some "inspector") DEFAULTS None None with
    | Ok s => s
    | Throw _ => empty_surface
    end.

(** A schema of two plain properties, and its surface built over the
    values {a: 1, b: 2}. *)
Definition pair_schema : list PropertyDefinition :=
  [ mkProperty (Some "a") "property" None "A" None (Some "string")
      VUndefined false;
    mkProperty (Some "b") "property" None "B" None (Some "string")
      VUndefined false ].

Definition pair_values : JsObject := [("a", VNum 1); ("b", VNum 2)].

Definition pair_surface : Surface :=
  Eval vm_compute in
    match new_Surface example_namespace (pair_schema, false)
            (Some pair_values) (Some "inspector") DEFAULTS None None with
    | Ok s => s
    | Throw _ => empty_surface
    end.

(** A schema of one string property of the given name, and the surfaces
    built over no values for a name that is a member of
    [Object.prototype] and for the empty name. *)
Definition single_schema (name : string) : list PropertyDefinition :=
  [ mkProperty (Some name) "property" None "" None (Some "string")
      (VStr "x") false ].

Definition constructor_surface : Surface :=
  Eval vm_compute in
    match new_Surface example_namespace
            (single_schema "constructor", false) (Some [])
            (Some "inspector") DEFAULTS None None with
    | Ok s => s
    | Throw _ => empty_surface
    end.

Definition unnamed_surface : Surface :=
  Eval vm_compute in
    match new_Surface example_namespace (single_schema "", false)
            (Some []) (Some "inspector") DEFAULTS None None with
    | Ok s => s
    | Throw _ => empty_surface
    end.

Definition proto_surface : Surface :=
  Eval vm_compute in
    match new_Surface example_namespace
            (single_schema "__proto__", false) (Some [])
            (Some "inspector") DEFAULTS None None with
    | Ok s => s
    | Throw _ => empty_surface
    end.

(** An editor class whose editors fail their validation, and a namespace
    whose external parameter editors are visible but for the property
    [a], the one of the property [c] failing its validation. *)
Definition strictEditor : EditorClass :=
  fun p g =>
    Editor.mk 0 p (Some g) (property p) (default p) false false true None
              false false.

Definition validation_namespace : Namespace :=
  mkNamespace [("string", stringEditor); ("strict", strictEditor)]
    (fun d =>
       let name := match d with Some p => property p | None => None end in
       ExternalParameterEditor.mk 0 name
         (negb (opt_eqb name (Some "a"))) "x"
         (negb (opt_eqb name (Some "c")))).

(** A schema of four properties, the second of the failing class, and its
    surface built with the external parameter editors enabled. *)
Definition validation_schema : list PropertyDefinition :=
  [ mkProperty (Some "a") "property" None "A" None (Some "string")
      VUndefined true;
    mkProperty (Some "b") "property" None "B" None (Some "strict")
      VUndefined true;
    mkProperty (Some "c") "property" None "C" None (Some "string")
      VUndefined true;
    mkProperty (Some "d") "property" None "D" None (Some "strict")
      VUndefined true ].

Definition validation_surface : Surface :=
  Eval vm_compute in
    match new_Surface validation_namespace (validation_schema, false)
            (Some []) (Some "inspector") (mkOptions true false false false)
            None None with
    | Ok s => s
    | Throw _ => empty_surface
    end.

(** ** Counters

    [idCounter] and [popupCounter] are fields of the surface that no other
    method reads; the methods that count take the counter and return it. *)

(** [n++] on a counter that holds an integer from 0 to 2^53: the sum is
    exact below 2^53 and is rounded back to 2^53 there. *)
Definition increment (n : Z) : Z :=
  if (n <? 9007199254740992)%Z then (n + 1)%Z else n.

(** [Surface.prototype.generateSequencedId] (lines 507-511) *)
Definition generateSequencedId (inspectorUniqueId : string) (idCounter : Z)
  : string * Z :=
  let idCounter := increment idCounter in
  (inspectorUniqueId ++ "-" ++ number_to_string idCounter, idCounter).

(** The calls of the popup callbacks of the options. *)
Inductive PopupCall : Type :=
| CallOnPopupDisplayed
| CallOnPopupHidden.

(** [Surface.prototype.popupDisplayed] (lines 629-635) *)
Definition popupDisplayed (options : Options) (popupCounter : Z)
  : Z * list PopupCall :=
  (increment popupCounter,
   if (popupCounter =? 0)%Z && onPopupDisplayed options
   then [CallOnPopupDisplayed] else []).

(** [Surface.prototype.popupHidden] (lines 637-647) *)
Definition popupHidden (options : Options) (popupCounter : Z)
  : Z * list PopupCall :=
  let popupCounter := (popupCounter - 1)%Z in
  let popupCounter :=
    if (popupCounter <? 0)%Z then 0%Z else popupCounter in
  (popupCounter,
   if (popupCounter =? 0)%Z && onPopupHidden options
   then [CallOnPopupHidden] else []).

(** [Surface.prototype.onGroupClick] (lines 837-844): the row is toggled
    with no second argument; stopping the event is outside the model. *)
Definition onGroupClick (row : nat) (s : Surface) : result Surface :=
  toggleGroup row false s.

(** ** Notions used in the statements *)

(** What [setPropertyValue] leaves in the map of values. *)
Definition write_value (o : JsObject) (name : string) (value : jsval)
  : JsObject :=
  if negb (is_undefined value) then obj_set o name value
  else if negb (is_undefined (obj_get o name)) then obj_delete o name
  else o.

(** The calls that [setPropertyValue] makes on its collaborators. *)
Definition change_events (s : Surface) (name : string) (value : jsval)
    (supressChangeEvents forceEditorUpdate : bool) : list Event :=
  ((if supressChangeEvents then []
    else
      map (fun e => EvPropertyChanged (Editor.id e) name value) (editors s)
      ++ (if onChange (options s) then [EvOnChange name value] else []))
   ++ (if forceEditorUpdate then
         match findPropertyEditor s (Some name) with
         | Some e => [EvUpdateDisplayedValue (Editor.id e) value]
         | None => []
         end
       else []))%list.

(** The property has a row in the table of the surface, and the selector
    of [markPropertyChanged] finds it. *)
Definition has_row (s : Surface) (name : string) : bool :=
  match find_property_row (dom_rows (document s) (tableContainer s)) name
  with
  | Some _ => true
  | None => false
  end.

(** The row of the property carries the class [changed]. *)
Definition marked_changed (s : Surface) (name : string) : bool :=
  match find_property_row (dom_rows (document s) (tableContainer s)) name
  with
  | Some r => hasClass (row_class r) "changed"
  | None => false
  end.

Definition is_property_item (p : PropertyDefinition) : bool :=
  String.eqb (itemType p) "property".

(** The external parameter editor that is attached to a property: the
    first one made for that name. *)
Fixpoint attached_external (attached : list ExternalParameterEditor.t)
    (name : option string) : option ExternalParameterEditor.t :=
  match attached with
  | [] => None
  | e :: rest =>
      if opt_eqb (ExternalParameterEditor.getPropertyName e) name
      then Some e
      else attached_external rest name
  end.

(** The editor that owns a property: the first one made for that
    name. *)
Fixpoint owning_editor (made : list Editor.t) (name : option string)
  : option Editor.t :=
  match made with
  | [] => None
  | e :: rest =>
      if opt_eqb (Editor.getPropertyName e) name then Some e
      else owning_editor rest name
  end.

(** An external parameter editor is attached to the property and is
    visible. *)
Definition external_visible (s : Surface) (name : option string) : bool :=
  match attached_external (externalParameterEditors s) name with
  | Some e => ExternalParameterEditor.isEditorVisible e
  | None => false
  end.

(** The text of the external parameter editor of a property. *)
Definition external_expression (s : Surface) (name : option string)
  : string :=
  match attached_external (externalParameterEditors s) name with
  | Some e => ExternalParameterEditor.getValue e
  | None => ""
  end.

(** The value of a property of the schema, by the priority of
    [getValues]: the expression of a visible external parameter editor,
    else the value that is read from the map of values, else the
    substitute that the editor of the property declares, else the default
    of the schema. *)
Definition spec_value (s : Surface) (p : PropertyDefinition) : jsval :=
  if external_visible s (property p) then
    VStr ("{{ " ++ external_expression s (property p) ++ " }}")
  else if negb (is_undefined (obj_read (values s) (prop_key (property p))))
  then obj_read (values s) (prop_key (property p))
  else
    match owning_editor (editors s) (property p) with
    | Some editor => Editor.getUndefinedValue editor
    | None => default p
    end.

(** The names of the property items of a schema. *)
Definition property_keys (items : list PropertyDefinition) : list string :=
  map (fun p => prop_key (property p)) (filter is_property_item items).

(** The editor passes validation, its visible external parameter editor
    standing for it. *)
Definition passes (s : Surface) (editor : Editor.t) : bool :=
  match attached_external (externalParameterEditors s)
          (property (Editor.propertyDefinition editor)) with
  | Some externalEditor =>
      if ExternalParameterEditor.isEditorVisible externalEditor
      then ExternalParameterEditor.validate externalEditor
      else Editor.validate editor
  | None => Editor.validate editor
  end.

(** The call of [validate()] that is made for an editor. *)
Definition validation_call (s : Surface) (editor : Editor.t) : Event :=
  match attached_external (externalParameterEditors s)
          (property (Editor.propertyDefinition editor)) with
  | Some externalEditor =>
      if ExternalParameterEditor.isEditorVisible externalEditor
      then EvExternalValidate (ExternalParameterEditor.id externalEditor)
      else EvValidate (Editor.id editor)
  | None => EvValidate (Editor.id editor)
  end.

(** Building adds editors, rows and groups to a surface and leaves the
    rest of it as it is. *)
Definition same_model (s s' : Surface) : Prop :=
  parsedProperties s' = parsedProperties s /\
  values s' = values s /\
  originalValues s' = originalValues s /\
  options s' = options s /\
  parentSurface s' = parentSurface s /\
  externalParameterEditors s' = externalParameterEditors s.

(** The editor class of the item is registered. *)
Definition registered (ns : Namespace) (p : PropertyDefinition) : bool :=
  match lookup_class (propertyEditors ns) (editor_type (type p)) with
  | Some _ => true
  | None => false
  end.

(** The editors that a log records as marked invalid, in call order. *)
Fixpoint marked_invalid (ev : list Event) : list nat :=
  match ev with
  | [] => []
  | EvMarkInvalid e :: r => e :: marked_invalid r
  | _ :: r => marked_invalid r
  end.

Definition row_ids (rows : list Row) : list nat := map row_id rows.

(** The row as [applyGroupLevelToRow] leaves it. *)
Definition level_row (g : option Group) (r : Row) : Row :=
  match applyGroupLevelToRow r g with
  | Ok r' => r'
  | Throw _ => r
  end.

(** [applyGroupLevelToRow] does not throw on the row: its level is set
    already, or it has a head cell and the group is given. *)
Definition can_level (g : option Group) (r : Row) : bool :=
  match applyGroupLevelToRow r g with
  | Ok _ => true
  | Throw _ => false
  end.

(** The state of the document while [mergeChildSurface] runs: the body
    [P] holds the rows [before], the anchor [a], the rows moved so far and
    the rows [after]; the body [C] of the child holds the rows still to be
    moved; a node is in one place. *)
Definition merge_inv (P C : nat) (before : list Row) (a : Row)
    (after done todo : list Row) (d : Dom) : Prop :=
  NoDup (map fst d) /\ P <> C /\
  dom_rows d P = (before ++ a :: done ++ after)%list /\
  dom_rows d C = todo /\
  NoDup (row_ids (before ++ a :: done ++ after)) /\
  NoDup (row_ids todo) /\
  (forall id, In id (row_ids todo) ->
              ~ In id (row_ids (before ++ a :: done ++ after))) /\
  (forall c, c <> P -> c <> C ->
   forall id, In id (row_ids (before ++ a :: done ++ after)
                     ++ row_ids todo)%list ->
              ~ In id (row_ids (dom_rows d c))).

(** A surface and a nested surface before the merge: the table of the
    parent holds the rows 1 and 4, the table of the child the rows 2
    and 3. *)
Definition plain_row (id : nat) (name : string) : Row :=
  mkRow id (Some name) None None None ["property"] true true None.

Definition merge_document : Dom :=
  [(0, [plain_row 1 "a"; plain_row 4 "d"]);
   (5, [plain_row 2 "b"; plain_row 3 "c"])].

Definition merge_parent : Surface :=
  mkSurface DEFAULTS [] false "inspector" [] [] None [] [] 0
    (Some (mkGroup "root" None)) merge_document GroupManager.empty [] [] 6.

Definition merge_child : Surface :=
  mkSurface DEFAULTS [] false "inspector" [] [] (Some 0) [] [] 5
    (Some (mkGroup "object" (Some (mkGroup "root" None))))
    merge_document GroupManager.empty [] [] 6.

(** The rows that [findGroupRows] selects, as a condition on a row: it
    belongs to the group, or the flag is set and it belongs to a
    descendant of the group. *)
Definition selected_row (m : GroupManager.t) (i : GroupIndex) (flag : bool)
    (r : Row) : bool :=
  GroupRows.belongs_to i r ||
  (flag && existsb (fun j => GroupRows.belongs_to j r)
                   (GroupManager.descendants m i)).

(** The calls of [setGroupStatus] that a log records, in call order. *)
Fixpoint status_events (ev : list Event) : list (GroupIndex * bool) :=
  match ev with
  | [] => []
  | EvSetGroupStatus i b :: r => (i, b) :: status_events r
  | _ :: r => status_events r
  end.

(** The calls of [setTimeout] that a log records. *)
Fixpoint timeout_events (ev : list Event) : list (option nat) :=
  match ev with
  | [] => []
  | EvSetTimeout d :: r => d :: timeout_events r
  | _ :: r => timeout_events r
  end.

(** The rows that a log records as toggled, in call order. *)
Fixpoint toggled_rows (ev : list Event) : list (nat * bool) :=
  match ev with
  | [] => []
  | EvToggleRow i b :: r => (i, b) :: toggled_rows r
  | _ :: r => toggled_rows r
  end.

Definition has_group_row (table : list Row) (g : Group) : bool :=
  match GroupRows.findGroupRow table g with
  | Some _ => true
  | None => false
  end.

(** What the toggling of groups leaves as it is in a row: its identity,
    its group attributes and the presence of its link. *)
Definition skeleton (r : Row)
  : nat * option GroupIndex * option GroupIndex * bool :=
  (row_id r, data_group_index r, data_parent_group_index r,
   match link_class r with Some _ => true | None => false end).

(** The root table of a surface is well formed: its rows are different
    nodes, found in no other table, and a row that carries a group index
    has a link. *)
Definition root_table_ok (s : Surface) : Prop :=
  NoDup (map fst (document s)) /\
  NoDup (row_ids (getRootTable s)) /\
  (forall c, c <> getRootTableContainer s ->
   forall id, In id (row_ids (getRootTable s)) ->
              ~ In id (row_ids (dom_rows (document s) c))) /\
  (forall r, In r (getRootTable s) -> data_group_index r <> None ->
             link_class r <> None).

(** A surface with nested groups: the group 1 holds a property (row 2) and
    a grouped editor (row 3) whose group 2 holds a property (row 4). *)
Definition nested_root : Group := mkGroup "root" None.
Definition nested_group1 : Group := mkGroup "1" (Some nested_root).
Definition nested_group2 : Group := mkGroup "2" (Some nested_group1).

Definition nested_surface : Surface :=
  mkSurface DEFAULTS [] true "inspector" [] [] None [] [] 0
    (Some nested_root)
    [(0,
      [ mkRow 1 None (Some "1") (Some "root") (Some 0) ["group"] true false
          (Some ["expandControl"; "expanded"]);
        mkRow 2 (Some "color") None (Some "1") (Some 1)
          ["property"; "expanded"] true true None;
        mkRow 3 (Some "font") (Some "2") (Some "1") (Some 1)
          ["property"; "expanded"; "control-group"] true false
          (Some ["expandControl"; "expanded"]);
        mkRow 4 (Some "size") None (Some "2") (Some 2)
          ["property"; "expanded"] true true None ])]
    (GroupManager.mk [nested_root; nested_group1; nested_group2] [])
    [] [] 5.

(** Two states of the document with the same tables and, row by row, the
    same skeleton. *)
Definition same_skeleton (d d' : Dom) : Prop :=
  map fst d' = map fst d /\
  forall c, map skeleton (dom_rows d' c) = map skeleton (dom_rows d c).

(** ** JSON documents

    [JSON.stringify] prints a value as a JSON document.  The documents are
    the type [json]; [to_json] is the document of a value ([None] for
    [undefined], which has none) and [ser] prints a document. *)
Module Json.

#[local] Unset Elimination Schemes.
Inductive json : Type :=
| JNull
| JBool (b : bool)
| JNum (n : Z)
| JStr (s : string)
| JArr (items : list json)
| JObj (members : list (string * json)).
#[local] Set Elimination Schemes.

Section JsonInduction.
Variable P : json -> Prop.
Hypothesis Hnull : P JNull.
Hypothesis Hbool : forall b, P (JBool b).
Hypothesis Hnum : forall n, P (JNum n).
Hypothesis Hstr : forall s, P (JStr s).
Hypothesis Harr : forall items, Forall P items -> P (JArr items).
Hypothesis Hobj :
  forall members, Forall (fun kv => P (snd kv)) members ->
                  P (JObj members).

Fixpoint json_ind (j : json) : P j :=
  match j with
  | JNull => Hnull
  | JBool b => Hbool b
  | JNum n => Hnum n
  | JStr s => Hstr s
  | JArr items =>
      Harr items
           ((fix go (l : list json) : Forall P l :=
               match l with
               | [] => Forall_nil P
               | x :: r => Forall_cons x (json_ind x) (go r)
               end) items)
  | JObj members =>
      Hobj members
           ((fix go (l : list (string * json))
               : Forall (fun kv => P (snd kv)) l :=
               match l with
               | [] => Forall_nil _
               | kv :: r => Forall_cons kv (json_ind (snd kv)) (go r)
               end) members)
  end.
End JsonInduction.

Definition member (ser : json -> string) (kv : string * json) : string :=
  quote (fst kv) ++ ":" ++ ser (snd kv).

Fixpoint ser (j : json) : string :=
  match j with
  | JNull => "null"
  | JBool b => if b then "true" else "false"
  | JNum n => number_to_string n
  | JStr s => quote s
  | JArr items => "[" ++ join "," (map ser items) ++ "]"
  | JObj members => "{" ++ join "," (map (member ser) members) ++ "}"
  end.

Definition item_json (to_json : jsval -> option json) (x : jsval) : json :=
  match to_json x with
  | Some j => j
  | None => JNull
  end.

Definition member_json (to_json : jsval -> option json)
    (kv : string * jsval) : list (string * json) :=
  match to_json (snd kv) with
  | Some j => [(fst kv, j)]
  | None => []
  end.

Fixpoint to_json (v : jsval) : option json :=
  match v with
  | VUndefined => None
  | VNull => Some JNull
  | VBool b => Some (JBool b)
  | VNum n => Some (JNum n)
  | VStr s => Some (JStr s)
  | VArr items => Some (JArr (map (item_json to_json) items))
  | VObj fields => Some (JObj (flat_map (member_json to_json) fields))
  | VRemoved => Some (JObj [("removed", JBool true)])
  | VFun _ => None
  end.

(** The members of the document of a map. *)
Definition members_of (o : JsObject) : list (string * json) :=
  flat_map (member_json to_json) o.

Fixpoint assoc (k : string) (l : list (string * json)) : option json :=
  match l with
  | [] => None
  | (k', j) :: r => if String.eqb k' k then Some j else assoc k r
  end.

Definition is_digit (c : ascii) : bool :=
  let n := nat_of_ascii c in ((48 <=? n) && (n <=? 57))%nat.

Fixpoint all_digits (s : string) : bool :=
  match s with
  | EmptyString => true
  | String c r => is_digit c && all_digits r
  end.

(** What may follow a number in a document: nothing, or a character that
    is no digit. *)
Definition ok_rest (r : string) : Prop :=
  match r with
  | EmptyString => True
  | String c _ => is_digit c = false
  end.

(** The first character of a document tells its kind. *)
Definition kind_of_char (c : ascii) : nat :=
  if Ascii.eqb c "n" then 0
  else if Ascii.eqb c "t" || Ascii.eqb c "f" then 1
  else if is_digit c || Ascii.eqb c "-" then 2
  else if Ascii.eqb c dquote then 3
  else if Ascii.eqb c "[" then 4
  else if Ascii.eqb c "{" then 5
  else 6.

Definition kind_of_json (j : json) : nat :=
  match j with
  | JNull => 0
  | JBool _ => 1
  | JNum _ => 2
  | JStr _ => 3
  | JArr _ => 4
  | JObj _ => 5
  end.

Definition kind_of_string (s : string) : nat :=
  match s with
  | EmptyString => 7
  | String c _ => kind_of_char c
  end.

Definition hex_value (c : ascii) : nat :=
  let n := nat_of_ascii c in
  if (n <? 58)%nat then n - 48 else n - 87.

(** The character that an escape stands for, and what follows it. *)
Definition unescape_char (s : string) : option (ascii * string) :=
  match s with
  | EmptyString => None
  | String c r =>
      if Ascii.eqb c backslash then
        match r with
        | EmptyString => None
        | String x r' =>
            if Ascii.eqb x dquote then Some (dquote, r')
            else if Ascii.eqb x backslash then Some (backslash, r')
            else if Ascii.eqb x "b" then Some (ascii_of_nat 8, r')
            else if Ascii.eqb x "f" then Some (ascii_of_nat 12, r')
            else if Ascii.eqb x "n" then Some (ascii_of_nat 10, r')
            else if Ascii.eqb x "r" then Some (ascii_of_nat 13, r')
            else if Ascii.eqb x "t" then Some (ascii_of_nat 9, r')
            else
              match r' with
              | String _ (String _ (String h1 (String h2 r''))) =>
                  Some (ascii_of_nat (16 * hex_value h1 + hex_value h2),
                        r'')
              | _ => None
              end
        end
      else Some (c, r)
  end.

(** The text of an element, followed by anything that may follow it in
    a document, is read back in one way only. *)
Definition apart {A : Type} (p : A -> string) (a : A) : Prop :=
  forall b r1 r2,
    ok_rest r1 -> ok_rest r2 -> p a ++ r1 = p b ++ r2 -> a = b /\ r1 = r2.

(** What follows the first element of a list in a document: the closing
    character, or a comma and the elements left. *)
Definition list_tail (close : ascii) (elements : list string)
    (r : string) : string :=
  match elements with
  | [] => String close r
  | _ :: _ => String "," (join "," elements ++ String close r)
  end.


End Json.

Import Json.

(** The data of a surface that its values are read from: the two maps of
    values, the schema and the editors. *)
Definition same_data (s s' : Surface) : Prop :=
  values s' = values s /\
  originalValues s' = originalValues s /\
  parsedProperties s' = parsedProperties s /\
  editors s' = editors s /\
  externalParameterEditors s' = externalParameterEditors s.

(** The row that [build] makes for an item of the schema: it carries the
    name of the item when the item has one, it has a head cell, a group
    level and the type of the item among its classes, and it has a cell
    for the editor only when the item is a property. *)
Definition built_row (p : PropertyDefinition) (row : Row) : Prop :=
  data_property row
  = (if is_truthy_string (property p) then property p else None) /\
  has_head row = true /\
  data_group_level row <> None /\
  hasClass (row_class row) (itemType p) = true /\
  (has_cell row = true -> is_property_item p = true).

(** The rows for which [buildExternalParameterEditor] makes an editor:
    the row has no class [no-external-parameter], it carries a property
    name, and the editor of that property, when there is one, supports
    external parameters. *)
Definition wants_external_editor (s : Surface) (row : Row) : bool :=
  negb (hasClass (row_class row) "no-external-parameter"
        || negb (is_truthy_string (data_property row)))
  && negb match findPropertyEditor s (data_property row) with
          | Some propertyEditor =>
              negb (Editor.supportsExternalParameterEditor propertyEditor)
          | None => false
          end.

(** The external parameter editor that is made for a row, its identity
    left aside. *)
Definition external_editor_of (ns : Namespace) (s : Surface) (row : Row)
  : ExternalParameterEditor.t :=
  ExternalParameterEditor.with_id 0
    (externalParameterEditor ns
       (findPropertyDefinition s (data_property row))).

(** The editor is not under a collapsed group: [focusFirstEditor] passes
    over the editors whose parent group is not expanded. *)
Definition in_expanded_group (s : Surface) (editor : Editor.t) : bool :=
  match Editor.parentGroup editor with
  | Some g => GroupManager.isGroupExpanded (groupManager s) g
  | None => true
  end.

(** The call of [focus()] that is made for an editor: on its external
    parameter editor when that one is visible. *)
Definition focus_call (s : Surface) (editor : Editor.t) : Event :=
  match findExternalParameterEditor s (Editor.getPropertyName editor) with
  | Some externalParameterEditor =>
      if ExternalParameterEditor.isEditorVisible externalParameterEditor
      then EvExternalFocus
             (ExternalParameterEditor.id externalParameterEditor)
      else EvFocus (Editor.id editor)
  | None => EvFocus (Editor.id editor)
  end.

(** The classes that [expandOrCollapseRows] leaves on a row. *)
Definition shown_as (collapse : bool) (r : Row) : Prop :=
  hasClass (row_class r) "collapsed" = collapse /\
  hasClass (row_class r) "expanded" = negb collapse.

(** The document after the rows of a stack were toggled, the head of the
    stack first. *)
Definition toggle_all (collapse : bool) (stack : list nat) (d : Dom) : Dom :=
  fold_left (fun doc id => dom_update_row doc id (toggle_row collapse))
            stack d.

(** A run of popups that are displayed ([true]) and hidden ([false]),
    with the calls of the callbacks in call order. *)
Fixpoint popups (options : Options) (events : list bool) (popupCounter : Z)
  : Z * list PopupCall :=
  match events with
  | [] => (popupCounter, [])
  | displayed :: rest =>
      let (c, calls) :=
        if displayed then popupDisplayed options popupCounter
        else popupHidden options popupCounter in
      let (c', calls') := popups options rest c in
      (c', (calls ++ calls')%list)
  end.

(** The integers that a number holds exactly, and that the text of a
    number stands for without rounding: from -2^53 to 2^53. *)
Definition safe_integer (n : Z) : Prop :=
  (-9007199254740992 <= n <= 9007199254740992)%Z.

(** ** Tactics *)

(** Case analysis on the first computation of a sequence that is known to
    have a result. *)
Ltac bind_ok H :=
  match type of H with
  | bind ?m _ = _ =>
      let E := fresh "E" in
      destruct m eqn:E; simpl in H
  end.

Ltac bind_case H E :=
  match type of H with
  | bind ?m _ = _ => destruct m eqn:E; simpl in H
  end.

(** * Properties *)

(** ** Lookups *)

(** findExternalParameterEditor answers the external parameter editor
    that is attached to the property. *)
Lemma findExternalParameterEditor_attached s name :
  findExternalParameterEditor s name
  = attached_external (externalParameterEditors s) name.
Proof.
  unfold findExternalParameterEditor.
  induction (externalParameterEditors s) as [|e rest IH]; simpl;
    [reflexivity|].
  destruct (opt_eqb (ExternalParameterEditor.getPropertyName e) name);
    [reflexivity|exact IH].
Qed.

(** findPropertyEditor answers the editor that owns the property. *)
Lemma findPropertyEditor_owning s name :
  findPropertyEditor s name = owning_editor (editors s) name.
Proof.
  unfold findPropertyEditor.
  induction (editors s) as [|e rest IH]; simpl; [reflexivity|].
  destruct (opt_eqb (Editor.getPropertyName e) name);
    [reflexivity|exact IH].
Qed.

(** The timer that was set first is the one at the head of the pending
    timers. *)
Lemma fire_first s : fire 0 s = run_timer s.
Proof. unfold fire, run_timer. now destruct (timers s). Qed.

(** ** Maps *)

Lemma obj_get_set_same (o : JsObject) k v : obj_get (obj_set o k v) k = v.
Proof.
  induction o as [|[k' v'] o IH]; simpl.
  - now rewrite String.eqb_refl.
  - destruct (String.eqb k' k) eqn:E; simpl.
    + now rewrite String.eqb_refl.
    + now rewrite E.
Qed.

Lemma obj_get_set_other (o : JsObject) k k' v :
  k' <> k -> obj_get (obj_set o k v) k' = obj_get o k'.
Proof.
  intros Hk.
  induction o as [|[j w] o IH]; simpl.
  - destruct (String.eqb k k') eqn:E; [|reflexivity].
    apply String.eqb_eq in E. congruence.
  - destruct (String.eqb j k) eqn:E; simpl.
    + apply String.eqb_eq in E. subst j.
      destruct (String.eqb k k') eqn:E'; [|reflexivity].
      apply String.eqb_eq in E'. congruence.
    + now rewrite IH.
Qed.

Lemma obj_get_delete_same (o : JsObject) k :
  obj_get (obj_delete o k) k = VUndefined.
Proof.
  induction o as [|[j w] o IH]; simpl; [reflexivity|].
  destruct (String.eqb j k) eqn:E; simpl; [assumption|].
  now rewrite E.
Qed.

Lemma obj_get_delete_other (o : JsObject) k k' :
  k' <> k -> obj_get (obj_delete o k) k' = obj_get o k'.
Proof.
  intros Hk.
  induction o as [|[j w] o IH]; simpl; [reflexivity|].
  destruct (String.eqb j k) eqn:E; simpl.
  - apply String.eqb_eq in E. subst j.
    destruct (String.eqb k k') eqn:E'; [|assumption].
    apply String.eqb_eq in E'. congruence.
  - now rewrite IH.
Qed.

Lemma obj_has_set_other (o : JsObject) k k' v :
  k' <> k -> obj_has (obj_set o k v) k' = obj_has o k'.
Proof.
  intros Hk.
  induction o as [|[j w] o IH]; simpl.
  - destruct (String.eqb k k') eqn:E; [|reflexivity].
    apply String.eqb_eq in E. congruence.
  - destruct (String.eqb j k) eqn:E; simpl.
    + apply String.eqb_eq in E. subst j.
      destruct (String.eqb k k') eqn:E'; [|reflexivity].
      apply String.eqb_eq in E'. congruence.
    + now rewrite IH.
Qed.

Lemma is_undefined_true v : is_undefined v = true <-> v = VUndefined.
Proof. destruct v; simpl; split; congruence. Qed.

Lemma is_removed_true v : is_removed v = true <-> v = VRemoved.
Proof. destruct v; simpl; split; congruence. Qed.

(** ** Rows and class lists *)

Lemma hasClass_addClass cl c : hasClass (addClass cl c) c = true.
Proof.
  unfold addClass.
  destruct (hasClass cl c) eqn:E; [assumption|].
  unfold hasClass. rewrite existsb_app. simpl.
  rewrite String.eqb_refl. now rewrite orb_true_r.
Qed.

Lemma hasClass_removeClass cl c : hasClass (removeClass cl c) c = false.
Proof.
  unfold hasClass, removeClass.
  induction cl as [|x cl IH]; simpl; [reflexivity|].
  destruct (String.eqb c x) eqn:E; simpl; [assumption|].
  now rewrite E.
Qed.

Lemma dom_rows_set_same d c rows : dom_rows (dom_set_rows d c rows) c = rows.
Proof.
  induction d as [|[c' old] d IH]; simpl.
  - now rewrite Nat.eqb_refl.
  - destruct (Nat.eqb c' c) eqn:E; simpl; now rewrite E.
Qed.

Lemma dom_rows_set_other d c c' rows :
  c' <> c -> dom_rows (dom_set_rows d c rows) c' = dom_rows d c'.
Proof.
  intros Hc.
  induction d as [|[j old] d IH]; simpl.
  - destruct (Nat.eqb c c') eqn:E; [|reflexivity].
    apply Nat.eqb_eq in E. congruence.
  - destruct (Nat.eqb j c) eqn:E; simpl.
    + apply Nat.eqb_eq in E. subst j.
      destruct (Nat.eqb c c') eqn:E'; [|reflexivity].
      apply Nat.eqb_eq in E'. congruence.
    + now rewrite IH.
Qed.

Lemma find_update_first (p : Row -> bool) (f : Row -> Row) rows r :
  (forall x, p x = true -> p (f x) = true) ->
  find p rows = Some r ->
  find p (update_first p f rows) = Some (f r).
Proof.
  intros Hp.
  induction rows as [|x rows IH]; simpl; [discriminate|].
  destruct (p x) eqn:E; simpl.
  - intros [= <-]. now rewrite (Hp _ E).
  - rewrite E. exact IH.
Qed.

(** ** setPropertyValue *)

Lemma markPropertyChanged_ok s name changed :
  has_row s name = true ->
  exists s',
    markPropertyChanged name changed s = Ok s' /\
    values s' = values s /\ originalValues s' = originalValues s /\
    parsedProperties s' = parsedProperties s /\ editors s' = editors s /\
    externalParameterEditors s' = externalParameterEditors s /\
    options s' = options s /\ log s' = log s /\
    tableContainer s' = tableContainer s /\
    marked_changed s' name = changed.
Proof.
  unfold has_row, markPropertyChanged, marked_changed.
  destruct (find_property_row _ name) as [r|] eqn:E; [|discriminate].
  intros _. eexists. split; [reflexivity|].
  destruct s; simpl in *. repeat (split; [reflexivity|]).
  rewrite dom_rows_set_same. unfold find_property_row in *.
  destruct (selector_plain name); [|discriminate].
  erewrite find_update_first; [| |exact E].
  - simpl. destruct changed.
    + apply hasClass_addClass.
    + apply hasClass_removeClass.
  - intros x Hx. exact Hx.
Qed.

(** A key that the map does not hold is read from the prototype; a key
    that it holds is read from the map. *)
Lemma obj_read_own o k :
  obj_has o k = true -> obj_read o k = obj_get o k.
Proof.
  induction o as [|[k' v] o IH]; simpl; [discriminate|].
  destruct (String.eqb k' k); [reflexivity|exact IH].
Qed.

Lemma obj_read_inherited o k :
  obj_has o k = false -> obj_read o k = Object_prototype k.
Proof.
  induction o as [|[k' v] o IH]; simpl; [reflexivity|].
  destruct (String.eqb k' k); [discriminate|exact IH].
Qed.

Lemma obj_get_absent o k :
  obj_has o k = false -> obj_get o k = VUndefined.
Proof.
  induction o as [|[k' v] o IH]; simpl; [reflexivity|].
  destruct (String.eqb k' k); [discriminate|exact IH].
Qed.

Lemma obj_delete_not_own o k :
  obj_has o k = false -> obj_delete o k = o.
Proof.
  induction o as [|[k' v] o IH]; simpl; [reflexivity|].
  destruct (String.eqb k' k); [discriminate|].
  intros H. simpl. now rewrite (IH H).
Qed.

(** The write of [setPropertyValue] tests the value that is read; the map
    it leaves is the one that the test on the member itself gives. *)
Lemma write_value_read o name value :
  (if negb (is_undefined value) then obj_set o name value
   else if negb (is_undefined (obj_read o name)) then obj_delete o name
        else o)
  = write_value o name value.
Proof.
  unfold write_value. destruct (is_undefined value); simpl; [|reflexivity].
  destruct (obj_has o name) eqn:E.
  - now rewrite (obj_read_own _ _ E).
  - rewrite (obj_read_inherited _ _ E), (obj_get_absent _ _ E),
      (obj_delete_not_own _ _ E).
    simpl. now destruct (is_undefined (Object_prototype name)).
Qed.

Lemma setPropertyValue_spec s name value supress force :
  (supress = false -> has_row s name = true) ->
  exists s',
    setPropertyValue name value supress force s = Ok (value, s') /\
    values s' = write_value (values s) name value /\
    originalValues s' = originalValues s /\
    parsedProperties s' = parsedProperties s /\
    editors s' = editors s /\
    externalParameterEditors s' = externalParameterEditors s /\
    options s' = options s /\
    tableContainer s' = tableContainer s /\
    log s' = (log s ++ change_events s name value supress force)%list /\
    (supress = false ->
     marked_changed s' name =
       (is_undefined (obj_read (originalValues s) name)
        || negb (comparePropertyValues (obj_read (originalValues s) name)
                   value))).
Proof.
  intros Hrow.
  unfold setPropertyValue.
  set (s1 := if negb (is_undefined value) then _ else _).
  assert (H1 : values s1 = write_value (values s) name value /\
               originalValues s1 = originalValues s /\
               parsedProperties s1 = parsedProperties s /\
               editors s1 = editors s /\
               externalParameterEditors s1 = externalParameterEditors s /\
               options s1 = options s /\
               tableContainer s1 = tableContainer s /\
               log s1 = log s /\
               has_row s1 name = has_row s name).
  { subst s1. rewrite <- write_value_read.
    destruct (negb (is_undefined value));
      [|destruct (negb (is_undefined (obj_read (values s) name)))];
      destruct s; simpl; repeat split. }
  clearbody s1.
  destruct H1 as (Hv & Ho & Hp & He & Hx & Hopt & Ht & Hl & Hr).
  destruct supress; simpl.
  - eexists. split; [reflexivity|].
    unfold change_events, findPropertyEditor. rewrite He. simpl.
    destruct force; [destruct (find _ (editors s))|];
      destruct s1; simpl in *; subst;
      repeat split; rewrite ?List.app_nil_r; try reflexivity; discriminate.
  - specialize (Hrow eq_refl). rewrite <- Hr in Hrow.
    set (changed := is_undefined (obj_read (originalValues s1) name)
                    || negb (comparePropertyValues
                               (obj_read (originalValues s1) name) value)).
    destruct (markPropertyChanged_ok s1 name changed Hrow)
      as (s2 & Hm & Hv2 & Ho2 & Hp2 & He2 & Hx2 & Hopt2 & Hl2 & Ht2 & Hc2).
    assert (Hmark :
      (if changed then markPropertyChanged name true s1
       else markPropertyChanged name false s1) = Ok s2).
    { destruct changed; exact Hm. }
    rewrite Hmark. simpl.
    eexists. split; [reflexivity|].
    unfold change_events, findPropertyEditor, notifyEditorsPropertyChanged.
    rewrite Hopt2, Hopt.
    destruct (onChange (options s)) eqn:Hoc.
    all: destruct force; simpl;
      [destruct (find _ (editors s2)) eqn:Hf;
       rewrite He2, He in Hf; rewrite Hf|].
    all: simpl; rewrite ?Hv2, ?Ho2, ?Hp2, ?He2, ?Hx2, ?Hopt2, ?Hl2, ?Ht2,
           ?Hv, ?Ho, ?Hp, ?He, ?Hx, ?Hopt, ?Hl, ?Ht.
    all: rewrite ?List.app_nil_r, <- ?List.app_assoc; simpl.
    all: repeat (split; [reflexivity|]).
    all: intros _; unfold marked_changed in *; simpl; rewrite Hc2;
      subst changed; now rewrite Ho.
Qed.

Lemma obj_get_write_same o name value :
  obj_get (write_value o name value) name = value.
Proof.
  unfold write_value.
  destruct (is_undefined value) eqn:Ev; simpl.
  - apply is_undefined_true in Ev. subst value.
    destruct (is_undefined (obj_get o name)) eqn:Eo; simpl.
    + now apply is_undefined_true.
    + apply obj_get_delete_same.
  - apply obj_get_set_same.
Qed.

Lemma obj_get_write_other o name value k :
  k <> name -> obj_get (write_value o name value) k = obj_get o k.
Proof.
  intros Hk. unfold write_value.
  destruct (negb (is_undefined value)).
  - now apply obj_get_set_other.
  - destruct (negb (is_undefined (obj_get o name))); [|reflexivity].
    now apply obj_get_delete_other.
Qed.

Lemma obj_read_set_same o k v : obj_read (obj_set o k v) k = v.
Proof.
  induction o as [|[k' v'] o IH]; simpl.
  - now rewrite String.eqb_refl.
  - destruct (String.eqb k' k) eqn:E; simpl.
    + now rewrite String.eqb_refl.
    + now rewrite E.
Qed.

Lemma obj_read_set_other o k v k' :
  k' <> k -> obj_read (obj_set o k v) k' = obj_read o k'.
Proof.
  intros Hk. induction o as [|[k0 v0] o IH]; simpl.
  - apply String.eqb_neq in Hk. rewrite String.eqb_sym in Hk.
    now rewrite Hk.
  - destruct (String.eqb k0 k) eqn:E; simpl.
    + apply String.eqb_eq in E. subst k0.
      apply String.eqb_neq in Hk. rewrite String.eqb_sym in Hk.
      now rewrite Hk.
    + destruct (String.eqb k0 k'); [reflexivity|exact IH].
Qed.

Lemma obj_read_delete_other o k k' :
  k' <> k -> obj_read (obj_delete o k) k' = obj_read o k'.
Proof.
  intros Hk. unfold obj_delete.
  induction o as [|[k0 v0] o IH]; simpl; [reflexivity|].
  destruct (String.eqb k0 k) eqn:E; simpl.
  - apply String.eqb_eq in E. subst k0.
    apply not_eq_sym in Hk. apply String.eqb_neq in Hk.
    now rewrite Hk.
  - destruct (String.eqb k0 k'); [reflexivity|exact IH].
Qed.

Lemma obj_read_write_other o name value k :
  k <> name -> obj_read (write_value o name value) k = obj_read o k.
Proof.
  intros Hk. unfold write_value.
  destruct (negb (is_undefined value)).
  - now apply obj_read_set_other.
  - destruct (negb (is_undefined (obj_get o name))); [|reflexivity].
    now apply obj_read_delete_other.
Qed.

(** C5, as the code has it: for a name other than [__proto__] whose row
    the selector of markPropertyChanged finds (or for any such name when
    the change events are suppressed), setPropertyValue writes the value
    into the map of values, an undefined value deleting the key instead
    of being stored: the map then holds the value under the name, and
    every other key reads as before.  Unless the change events are
    suppressed it then calls onInspectorPropertyChanged(name, value) on
    every editor of the surface, in their order and the owner of the
    property included, and after these calls the onChange callback when
    one was configured. *)
Theorem C5_setPropertyValue_writes_then_notifies :
  forall s name value supress force,
    name <> "__proto__" ->
    (supress = false -> has_row s name = true) ->
    exists s',
      setPropertyValue name value supress force s = Ok (value, s') /\
      values s' =
        (if is_undefined value then
           if is_undefined (obj_get (values s) name) then values s
           else obj_delete (values s) name
         else obj_set (values s) name value) /\
      obj_get (values s') name = value /\
      (value <> VUndefined -> getPropertyValue s' name = value) /\
      (forall k, k <> name ->
                 getPropertyValue s' k = getPropertyValue s k) /\
      log s' =
        (log s
         ++ (if supress then []
             else
               map (fun e => EvPropertyChanged (Editor.id e) name value)
                   (editors s)
               ++ (if onChange (options s) then [EvOnChange name value]
                   else []))
         ++ (if force then
               match findPropertyEditor s (Some name) with
               | Some e => [EvUpdateDisplayedValue (Editor.id e) value]
               | None => []
               end
             else []))%list /\
      (supress = false ->
       forall e, In e (editors s) ->
         In (EvPropertyChanged (Editor.id e) name value) (log s')).
Proof.
  intros s name value supress force _ Hrow.
  destruct (setPropertyValue_spec s name value supress force Hrow)
    as (s' & Hs & Hv & _ & _ & _ & _ & _ & _ & Hl & _).
  exists s'. split; [exact Hs|].
  split.
  { rewrite Hv. unfold write_value.
    destruct (is_undefined value); simpl; [|reflexivity].
    now destruct (is_undefined (obj_get (values s) name)). }
  split; [rewrite Hv; apply obj_get_write_same|].
  split.
  { intros Hne. unfold getPropertyValue. rewrite Hv. unfold write_value.
    destruct (is_undefined value) eqn:Ev.
    - apply is_undefined_true in Ev. now elim Hne.
    - apply obj_read_set_same. }
  split.
  { intros k Hk. unfold getPropertyValue. rewrite Hv.
    now apply obj_read_write_other. }
  split; [exact Hl|].
  intros -> e He. rewrite Hl. unfold change_events.
  apply in_or_app. right. apply in_or_app. left.
  apply in_or_app. left.
  apply in_map_iff. now exists e.
Qed.

Lemma C5_witness :
  "color" <> "__proto__" /\
  (false = false -> has_row example_surface "color" = true) /\
  exists s',
    setPropertyValue "color" (VStr "#000") false false example_surface
      = Ok (VStr "#000", s') /\
    values s' = [("color", VStr "#000")] /\
    log s' = (log example_surface
              ++ [EvPropertyChanged 3 "color" (VStr "#000")])%list.
Proof.
  assert (H0 : "color" <> "__proto__") by discriminate.
  split; [exact H0|].
  split; [intros _; reflexivity|].
  destruct (C5_setPropertyValue_writes_then_notifies example_surface
              "color" (VStr "#000") false false H0 (fun _ => eq_refl))
    as (s' & H1 & H2 & _ & _ & _ & H3 & _).
  exists s'. split; [exact H1|]. split; [exact H2|exact H3].
Defined.

(** C5 as stated fails: the surface of the example has an editor and no
    row for the name "size"; with the change events not suppressed,
    setPropertyValue("size", 12) throws where markPropertyChanged reads
    the row that it did not find, and the call ends there, before any
    editor is notified.  With the events suppressed the same call
    returns. *)
Lemma C5_counterexample :
  has_row example_surface "size" = false /\
  editors example_surface <> [] /\
  setPropertyValue "size" (VNum 12) false false example_surface
  = Throw NullElement /\
  exists s',
    setPropertyValue "size" (VNum 12) true false example_surface
    = Ok (VNum 12, s').
Proof.
  split; [reflexivity|]. split; [discriminate|].
  split; [reflexivity|]. eexists. reflexivity.
Qed.

(** C10 fails on the code at a name that the snapshot does not hold and
    [Object.prototype] does: line 532 reads [originalValues[p]] through
    the prototype, finds a value that is not undefined and goes on to the
    comparison.  The snapshot of the surface holds no member
    [__proto__], the read gives the prototype, which compares equal to an
    empty object, and the row is not marked; it holds no member
    [constructor], the read gives the function [Object], which is equal
    to itself and to its text, and the row is not marked. *)
Theorem C10_inherited_original_is_compared :
  (new_Surface example_namespace (single_schema "__proto__", false)
     (Some []) (Some "inspector") DEFAULTS None None = Ok proto_surface /\
   originalValues proto_surface = [] /\
   has_row proto_surface "__proto__" = true /\
   exists s',
     setPropertyValue "__proto__" (VObj []) false false proto_surface
     = Ok (VObj [], s') /\
     marked_changed s' "__proto__" = false) /\
  (new_Surface example_namespace (single_schema "constructor", false)
     (Some []) (Some "inspector") DEFAULTS None None
   = Ok constructor_surface /\
   originalValues constructor_surface = [] /\
   has_row constructor_surface "constructor" = true /\
   (exists s',
       setPropertyValue "constructor" (VFun "Object") false false
         constructor_surface
       = Ok (VFun "Object", s') /\
       marked_changed s' "constructor" = false) /\
   exists s',
     setPropertyValue "constructor"
       (VStr "function Object() { [native code] }") false false
       constructor_surface
     = Ok (VStr "function Object() { [native code] }", s') /\
     marked_changed s' "constructor" = false).
Proof.
  split.
  - split; [reflexivity|]. split; [reflexivity|]. split; [reflexivity|].
    eexists. split; reflexivity.
  - split; [reflexivity|]. split; [reflexivity|]. split; [reflexivity|].
    split; eexists; split; reflexivity.
Qed.

(** ** getValues *)

Lemma getValues_step_spec s acc p :
  getValues_step s acc p =
    if is_property_item p then
      if is_removed (spec_value s p) then acc
      else obj_set acc (prop_key (property p)) (spec_value s p)
    else acc.
Proof.
  unfold getValues_step, spec_value, external_visible, external_expression,
    is_property_item, getPropertyValue.
  rewrite findExternalParameterEditor_attached, findPropertyEditor_owning.
  destruct (String.eqb (itemType p) "property"); simpl; [|reflexivity].
  destruct (attached_external _ (property p)) as [e|]; simpl.
  - destruct (ExternalParameterEditor.isEditorVisible e); simpl;
      [reflexivity|].
    now destruct (is_undefined (obj_read (values s) (prop_key (property p)))).
  - now destruct (is_undefined (obj_read (values s) (prop_key (property p)))).
Qed.

Lemma getValues_step_other s acc p k :
  (is_property_item p = true -> prop_key (property p) <> k) ->
  obj_get (getValues_step s acc p) k = obj_get acc k /\
  obj_has (getValues_step s acc p) k = obj_has acc k.
Proof.
  intros Hk. rewrite getValues_step_spec.
  destruct (is_property_item p); [|now split].
  destruct (is_removed (spec_value s p)); [now split|].
  specialize (Hk eq_refl).
  split; [apply obj_get_set_other | apply obj_has_set_other]; congruence.
Qed.

Lemma getValues_fold_other s items acc k :
  (forall p, In p items -> is_property_item p = true ->
             prop_key (property p) <> k) ->
  obj_get (fold_left (getValues_step s) items acc) k = obj_get acc k /\
  obj_has (fold_left (getValues_step s) items acc) k = obj_has acc k.
Proof.
  revert acc. induction items as [|p items IH]; intros acc Hk; simpl.
  - now split.
  - destruct (IH (getValues_step s acc p)) as [H1 H2].
    { intros q Hq. apply Hk. now right. }
    destruct (getValues_step_other s acc p k) as [H3 H4].
    { apply Hk. now left. }
    split; congruence.
Qed.

Lemma getValues_fold_removed s items acc k :
  (forall p, In p items -> is_property_item p = true ->
             prop_key (property p) = k -> is_removed (spec_value s p) = true) ->
  obj_has (fold_left (getValues_step s) items acc) k = obj_has acc k.
Proof.
  revert acc. induction items as [|p items IH]; intros acc Hk; simpl.
  - reflexivity.
  - rewrite IH by (intros q Hq; apply Hk; now right).
    rewrite getValues_step_spec.
    destruct (is_property_item p) eqn:Ep; [|reflexivity].
    destruct (is_removed (spec_value s p)) eqn:Er; [reflexivity|].
    apply obj_has_set_other. intros Heq.
    rewrite (Hk p (or_introl eq_refl) Ep (eq_sym Heq)) in Er.
    discriminate.
Qed.

Lemma getValues_fold_same s items acc k v :
  (forall p, In p items -> is_property_item p = true ->
             prop_key (property p) = k -> spec_value s p = v) ->
  is_removed v = false ->
  obj_get acc k = v \/
  (exists p, In p items /\ is_property_item p = true /\
             prop_key (property p) = k) ->
  obj_get (fold_left (getValues_step s) items acc) k = v.
Proof.
  intros Hv Hr. revert acc Hv.
  induction items as [|p items IH]; intros acc Hv Hstart; simpl.
  - destruct Hstart as [H|(p & [] & _)]. exact H.
  - apply IH; [intros q Hq; apply Hv; now right|].
    rewrite getValues_step_spec.
    destruct (is_property_item p) eqn:Ep.
    + destruct (String.eqb (prop_key (property p)) k) eqn:Ek.
      * apply String.eqb_eq in Ek. left.
        rewrite (Hv p (or_introl eq_refl) Ep Ek), Hr, <- Ek.
        apply obj_get_set_same.
      * apply String.eqb_neq in Ek.
        destruct Hstart as [H|(q & [<-|Hq] & Hq1 & Hq2)].
        -- left. destruct (is_removed (spec_value s p)); [exact H|].
           rewrite obj_get_set_other; [exact H|congruence].
        -- congruence.
        -- right. now exists q.
    + destruct Hstart as [H|(q & [<-|Hq] & Hq1 & Hq2)].
      * now left.
      * congruence.
      * right. now exists q.
Qed.

(** For every property of a schema without two properties of one name,
    getValues gives the value that its priority selects: the expression
    of a visible external parameter editor wrapped in braces, else the
    value read from the map of values, else the substitute declared by the
    editor of the property, else the default of the schema (a value that
    is the removed marker being left out). *)
Lemma getValues_priority :
  forall s p,
    NoDup (property_keys (parsedProperties s)) ->
    In p (parsedProperties s) ->
    is_property_item p = true ->
    (external_visible s (property p) = true ->
     obj_get (getValues s) (prop_key (property p)) =
       VStr ("{{ " ++ external_expression s (property p) ++ " }}")) /\
    (if is_removed (spec_value s p)
     then obj_has (getValues s) (prop_key (property p)) = false
     else obj_get (getValues s) (prop_key (property p)) = spec_value s p).
Proof.
  intros s p Hnd Hin Hp.
  assert (Hmain :
    if is_removed (spec_value s p)
    then obj_has (getValues s) (prop_key (property p)) = false
    else obj_get (getValues s) (prop_key (property p)) = spec_value s p).
  { unfold getValues.
    apply in_split in Hin. destruct Hin as (l1 & l2 & Hsplit).
    rewrite Hsplit in *. unfold property_keys in Hnd.
    rewrite filter_app, map_app in Hnd. simpl in Hnd. rewrite Hp in Hnd.
    simpl in Hnd. apply NoDup_remove_2 in Hnd.
    assert (H1 : forall q, In q l1 -> is_property_item q = true ->
              prop_key (property q) <> prop_key (property p)).
    { intros q Hq Hq1 Heq. apply Hnd. apply in_or_app. left.
      rewrite <- Heq. apply in_map_iff. exists q. split; [reflexivity|].
      apply filter_In. now split. }
    assert (H2 : forall q, In q l2 -> is_property_item q = true ->
              prop_key (property q) <> prop_key (property p)).
    { intros q Hq Hq1 Heq. apply Hnd. apply in_or_app. right.
      rewrite <- Heq. apply in_map_iff. exists q. split; [reflexivity|].
      apply filter_In. now split. }
    rewrite fold_left_app. simpl.
    destruct (getValues_fold_other s l1 [] _ H1) as [G1 G1'].
    destruct (getValues_fold_other s l2
                (getValues_step s (fold_left (getValues_step s) l1 []) p)
                _ H2) as [G2 G2'].
    rewrite getValues_step_spec, Hp in G2, G2'.
    rewrite getValues_step_spec, Hp.
    destruct (is_removed (spec_value s p)).
    + rewrite G2', G1'. reflexivity.
    + rewrite G2. apply obj_get_set_same. }
  split; [|exact Hmain].
  intros Hvis. unfold spec_value in Hmain. rewrite Hvis in Hmain.
  exact Hmain.
Qed.

(** C2 fails on the code at a property that is named after a member of
    [Object.prototype].  The schema has the one property [constructor],
    of type string and default "x", and nothing is stored: the map of
    values is empty and no external parameter editor is attached.  Line
    771 reads [values['constructor']] through the prototype and gets the
    function [Object], which is not undefined: getValues returns it as if
    it were the stored value, and goes on neither to the substitute of
    the editor nor to the default of the schema. *)
Theorem C2_inherited_name_is_read_as_stored :
  new_Surface example_namespace (single_schema "constructor", false)
    (Some []) (Some "inspector") DEFAULTS None None
  = Ok constructor_surface /\
  values constructor_surface = [] /\
  externalParameterEditors constructor_surface = [] /\
  map default (parsedProperties constructor_surface) = [VStr "x"] /\
  getPropertyValue constructor_surface "constructor" = VFun "Object" /\
  getValues constructor_surface = [("constructor", VFun "Object")].
Proof.
  repeat split.
Qed.

Lemma external_visible_frame s s' name :
  externalParameterEditors s' = externalParameterEditors s ->
  external_visible s' name = external_visible s name.
Proof.
  unfold external_visible. now intros ->.
Qed.

Lemma obj_read_write_same o name value :
  value <> VUndefined -> obj_read (write_value o name value) name = value.
Proof.
  intros Hne. unfold write_value.
  destruct (is_undefined value) eqn:Ev.
  - apply is_undefined_true in Ev. now elim Hne.
  - apply obj_read_set_same.
Qed.

(** C1, as the code has it: for a name other than [__proto__] that is a
    property item of the schema and whose row the selector of
    markPropertyChanged finds (the row is not looked for when the change
    events are suppressed), and for a value other than undefined, with no
    external parameter editor visible for the name, getValues after
    setPropertyValue has the value under the name, and has no entry for
    the name when the value is the removed marker. *)
Theorem C1_roundtrip_of_schema_property :
  forall s name value supress force,
    name <> "__proto__" ->
    (supress = false -> has_row s name = true) ->
    (exists d, In d (parsedProperties s) /\ is_property_item d = true /\
               prop_key (property d) = name) ->
    (forall d, In d (parsedProperties s) -> prop_key (property d) = name ->
               external_visible s (property d) = false) ->
    value <> VUndefined ->
    exists s',
      setPropertyValue name value supress force s = Ok (value, s') /\
      (if is_removed value then obj_has (getValues s') name = false
       else obj_get (getValues s') name = value).
Proof.
  intros s name value supress force _ Hrow Hschema Hext Hdef.
  destruct (setPropertyValue_spec s name value supress force Hrow)
    as (s' & Hs & Hv & _ & Hp & _ & Hx & _).
  exists s'. split; [exact Hs|].
  assert (Hval : forall p, In p (parsedProperties s') ->
            prop_key (property p) = name -> spec_value s' p = value).
  { intros p Hin Hk. unfold spec_value.
    rewrite (external_visible_frame s s' _ Hx).
    rewrite Hp in Hin. rewrite (Hext p Hin Hk).
    rewrite Hv, Hk, (obj_read_write_same _ _ _ Hdef).
    destruct value; simpl; congruence. }
  unfold getValues.
  destruct (is_removed value) eqn:Er.
  - rewrite getValues_fold_removed; [reflexivity|].
    intros p Hin _ Hk. now rewrite (Hval p Hin Hk).
  - apply getValues_fold_same; [|exact Er|].
    + intros p Hin _ Hk. now apply Hval.
    + right. rewrite Hp. exact Hschema.
Qed.

Lemma C1_witness :
  "color" <> "__proto__" /\
  (false = false -> has_row example_surface "color" = true) /\
  (exists d, In d (parsedProperties example_surface) /\
             is_property_item d = true /\
             prop_key (property d) = "color") /\
  (forall d, In d (parsedProperties example_surface) ->
             prop_key (property d) = "color" ->
             external_visible example_surface (property d) = false) /\
  VStr "#000" <> VUndefined /\
  exists s',
    setPropertyValue "color" (VStr "#000") false false example_surface
      = Ok (VStr "#000", s') /\
    obj_get (getValues s') "color" = VStr "#000".
Proof.
  assert (H0 : "color" <> "__proto__") by discriminate.
  assert (H1 : false = false -> has_row example_surface "color" = true)
    by (intros _; reflexivity).
  assert (H2 : exists d, In d (parsedProperties example_surface) /\
                         is_property_item d = true /\
                         prop_key (property d) = "color").
  { eexists. split; [right; left; reflexivity|]. split; reflexivity. }
  assert (H3 : forall d, In d (parsedProperties example_surface) ->
                         prop_key (property d) = "color" ->
                         external_visible example_surface (property d)
                         = false)
    by (intros d _ _; reflexivity).
  assert (H4 : VStr "#000" <> VUndefined) by discriminate.
  repeat (split; [assumption|]).
  exact (C1_roundtrip_of_schema_property example_surface "color"
           (VStr "#000") false false H0 H1 H2 H3 H4).
Defined.

(** C1 as stated fails, with no external parameter editor visible in any
    of the cases.  An undefined value on a property with a default reads
    back as the default.  The property of the schema whose name is the
    empty string has a row that carries no name (line 234): with the
    change events not suppressed, setPropertyValue on it throws where
    markPropertyChanged reads the row that it did not find.  A name
    outside the schema is stored and is never in the result of
    getValues. *)
Lemma C1_counterexample :
  (external_visible example_surface (Some "color") = false /\
   match setPropertyValue "color" VUndefined false false example_surface
   with
   | Ok (v, s') =>
       v = VUndefined /\ obj_get (getValues s') "color" = VStr "#fff"
   | Throw _ => False
   end) /\
  (new_Surface example_namespace (single_schema "", false) (Some [])
     (Some "inspector") DEFAULTS None None = Ok unnamed_surface /\
   map property (parsedProperties unnamed_surface) = [Some ""] /\
   external_visible unnamed_surface (Some "") = false /\
   map data_property
     (dom_rows (document unnamed_surface) (tableContainer unnamed_surface))
   = [None] /\
   setPropertyValue "" (VStr "x") false false unnamed_surface
   = Throw NullElement) /\
  (external_visible example_surface (Some "width") = false /\
   match setPropertyValue "width" (VStr "10") true false example_surface
   with
   | Ok (v, s') =>
       v = VStr "10" /\ obj_get (values s') "width" = VStr "10" /\
       obj_has (getValues s') "width" = false
   | Throw _ => False
   end).
Proof.
  vm_compute. repeat split; reflexivity.
Qed.

(** ** validate *)

Lemma validate_loop_pass s eds :
  forallb (passes s) eds = true ->
  validate_loop s eds = (true, map (validation_call s) eds).
Proof.
  induction eds as [|e eds IH]; simpl; [reflexivity|].
  intros H. apply andb_true_iff in H. destruct H as [He Hr].
  specialize (IH Hr). rewrite IH.
  unfold passes in He. unfold validation_call.
  rewrite findExternalParameterEditor_attached.
  destruct (attached_external _ _) as [x|].
  - destruct (ExternalParameterEditor.isEditorVisible x);
      rewrite He; reflexivity.
  - rewrite He. reflexivity.
Qed.

Lemma validate_loop_fail s before e after :
  forallb (passes s) before = true ->
  passes s e = false ->
  validate_loop s (before ++ e :: after) =
    (false,
     (map (validation_call s) (before ++ [e])
      ++ [EvMarkInvalid (Editor.id e)])%list).
Proof.
  induction before as [|b before IH]; simpl; intros Hb He.
  - unfold passes in He. unfold validation_call.
    rewrite findExternalParameterEditor_attached.
    destruct (attached_external _ _) as [x|].
    + destruct (ExternalParameterEditor.isEditorVisible x);
        rewrite He; reflexivity.
    + rewrite He. reflexivity.
  - apply andb_true_iff in Hb. destruct Hb as [Hb1 Hb2].
    rewrite (IH Hb2 He).
    unfold passes in Hb1.
    change (map (validation_call s) ((b :: before) ++ [e]))
      with (validation_call s b :: map (validation_call s) (before ++ [e])).
    generalize (map (validation_call s) (before ++ [e])). intros evs.
    unfold validation_call.
    rewrite findExternalParameterEditor_attached.
    destruct (attached_external _ _) as [x|].
    + destruct (ExternalParameterEditor.isEditorVisible x);
        rewrite Hb1; reflexivity.
    + rewrite Hb1. reflexivity.
Qed.

Lemma first_failing {A : Type} (f : A -> bool) (l : list A) :
  forallb f l = false ->
  exists before x after,
    l = (before ++ x :: after)%list /\ forallb f before = true /\
    f x = false.
Proof.
  induction l as [|a l IH]; simpl; [discriminate|].
  destruct (f a) eqn:Ea; simpl.
  - intros H. destruct (IH H) as (before & x & after & -> & Hb & Hx).
    exists (a :: before), x, after. simpl. rewrite Ea. auto.
  - intros _. exists [], a, l. auto.
Qed.

Lemma validate_spec s :
  validate s =
    let (r, ev) := validate_loop s (editors s) in
    (r, add_log s (EvUnmarkInvalidGroups :: ev)).
Proof.
  unfold validate.
  change (validate_loop (add_log s [EvUnmarkInvalidGroups])
            (editors (add_log s [EvUnmarkInvalidGroups])))
    with (validate_loop (add_log s [EvUnmarkInvalidGroups]) (editors s)).
  assert (H : forall eds,
             validate_loop (add_log s [EvUnmarkInvalidGroups]) eds
             = validate_loop s eds).
  { induction eds as [|e eds IH]; simpl; [reflexivity|].
    rewrite IH. reflexivity. }
  rewrite H. destruct (validate_loop s (editors s)) as [r ev].
  destruct s; unfold add_log; simpl. now rewrite <- List.app_assoc.
Qed.

(** ** Building *)

Lemma same_model_refl s : same_model s s.
Proof. repeat split. Qed.

Lemma same_model_trans s1 s2 s3 :
  same_model s1 s2 -> same_model s2 s3 -> same_model s1 s3.
Proof.
  unfold same_model. intuition congruence.
Qed.

Lemma applyGroupIndexAttribute_error p row g b e :
  applyGroupIndexAttribute p row g b = Throw e -> e = NullElement.
Proof.
  unfold applyGroupIndexAttribute.
  destruct g as [g|]; [|congruence].
  destruct (_ || _); destruct (GroupManager.parentGroup g); congruence.
Qed.

Lemma buildGroupExpandControl_error s row p force g e :
  buildGroupExpandControl s row p force g = Throw e -> e = NullElement.
Proof.
  unfold buildGroupExpandControl.
  destruct (_ && _); [congruence|].
  destruct g; congruence.
Qed.

Lemma applyGroupLevelToRow_error row g t :
  applyGroupLevelToRow row g <> Throw (UnknownEditorClass t).
Proof.
  unfold applyGroupLevelToRow.
  destruct (data_group_level row); [congruence|].
  destruct (negb (has_head row)); [congruence|].
  destruct g; congruence.
Qed.

Lemma buildRow_ok p g s row s' :
  buildRow p g s = Ok (row, s') -> s' = set_nextId s (S (nextId s)).
Proof.
  unfold buildRow. intros H.
  bind_ok H; [|discriminate].
  destruct g as [g|]; [|discriminate].
  bind_ok H; [|discriminate].
  now inversion H.
Qed.

Lemma buildRow_error p g s t :
  buildRow p g s <> Throw (UnknownEditorClass t).
Proof.
  unfold buildRow. intros H.
  bind_ok H.
  - destruct g as [g|]; [|discriminate].
    bind_ok H; [discriminate|].
    apply buildGroupExpandControl_error in E0. congruence.
  - apply applyGroupIndexAttribute_error in E. congruence.
Qed.

Lemma buildEditor_ok ns row p g s row' s' :
  buildEditor ns row p g s = Ok (row', s') ->
  (is_property_item p = false /\ s' = s) \/
  (is_property_item p = true /\ registered ns p = true /\
   exists cls g',
     s' = set_editors (set_nextId s (S (nextId s)))
            (editors s ++ [Editor.create cls (nextId s) p g'])%list).
Proof.
  unfold buildEditor, is_property_item, registered, validateEditorType.
  destruct (String.eqb (itemType p) "property"); simpl.
  - intros H. right. split; [reflexivity|].
    destruct (lookup_class _ _) as [cls|]; simpl in H;
      [|destruct (is_undefined _); discriminate].
    split; [reflexivity|].
    destruct g as [g|]; [|discriminate].
    bind_ok H; [|discriminate].
    inversion H. now exists cls, g.
  - intros [= _ <-]. now left.
Qed.

Lemma buildEditor_error ns row p g s t :
  buildEditor ns row p g s = Throw (UnknownEditorClass t) ->
  is_property_item p = true /\ registered ns p = false /\
  t = editor_type (type p).
Proof.
  unfold buildEditor, is_property_item, registered, validateEditorType.
  destruct (String.eqb (itemType p) "property"); simpl; [|discriminate].
  destruct (lookup_class _ _) as [cls|]; simpl.
  - destruct g as [g|]; [|discriminate].
    intros H. bind_ok H; [discriminate|].
    destruct (Editor.isGroupedEditor _); [|discriminate].
    bind_ok E.
    + bind_ok E; [discriminate|].
      apply buildGroupExpandControl_error in E1. congruence.
    + apply applyGroupIndexAttribute_error in E0. congruence.
  - destruct (is_undefined _); simpl; [|discriminate].
    intros [= <-]. auto.
Qed.

Lemma buildEditor_unregistered ns row p g s :
  is_property_item p = true -> registered ns p = false ->
  buildEditor ns row p g s
  = Throw (if is_undefined (Object_prototype (editor_type (type p)))
           then UnknownEditorClass (editor_type (type p))
           else NotAFunction).
Proof.
  unfold buildEditor, is_property_item, registered, validateEditorType.
  intros -> H. simpl.
  destruct (lookup_class _ _); [discriminate|].
  now destruct (is_undefined _).
Qed.

Lemma build_item_cases ns cg tbody s p :
  exists cg1 s1,
    same_model s s1 /\ editors s1 = editors s /\
    build_item ns (cg, tbody, s) p =
      (rs <- buildRow p cg1 s1 ;;
       let (row, s2) := rs in
       row <- (if String.eqb (itemType p) "group" then
                 applyGroupLevelToRow row
                   (match cg1 with
                    | Some g => GroupManager.parentGroup g
                    | None => None
                    end)
               else applyGroupLevelToRow row cg1) ;;
       rs <- buildEditor ns row p cg1 s2 ;;
       let (row, s3) := rs in
       Ok (cg1, (tbody ++ [row])%list, s3)).
Proof.
  unfold build_item.
  destruct (String.eqb (itemType p) "group").
  - destruct (GroupManager.createGroup _ _ _) as [g m].
    exists (Some g), (set_groupManager s m).
    split; [repeat split|]. split; reflexivity.
  - destruct (groupIndex p).
    + exists cg, s. split; [apply same_model_refl|]. split; reflexivity.
    + exists (group s), s. split; [apply same_model_refl|].
      split; reflexivity.
Qed.

Lemma build_item_ok ns cg tbody s p cg' tbody' s' :
  build_item ns (cg, tbody, s) p = Ok (cg', tbody', s') ->
  same_model s s' /\
  map Editor.propertyDefinition (editors s') =
    (map Editor.propertyDefinition (editors s)
     ++ (if is_property_item p then [p] else []))%list /\
  (is_property_item p = true -> registered ns p = true).
Proof.
  destruct (build_item_cases ns cg tbody s p)
    as (cg1 & s1 & Hm & He & ->).
  intros H.
  bind_case H E1; [|discriminate].
  destruct a as [row s2]. apply buildRow_ok in E1. subst s2.
  bind_case H E2; [|discriminate].
  bind_case H E3; [|discriminate].
  destruct a0 as [row' s3]. inversion H; subst; clear H.
  apply buildEditor_ok in E3.
  destruct E3 as [[Hp ->]|(Hp & Hr & cls & g' & ->)]; rewrite Hp.
  - split; [|split].
    + eapply same_model_trans; [exact Hm|]. repeat split.
    + simpl. now rewrite List.app_nil_r, He.
    + discriminate.
  - split; [|split].
    + eapply same_model_trans; [exact Hm|]. repeat split.
    + simpl. now rewrite map_app, He.
    + intros _. exact Hr.
Qed.

Lemma build_item_error ns acc p t :
  build_item ns acc p = Throw (UnknownEditorClass t) ->
  is_property_item p = true /\ registered ns p = false /\
  t = editor_type (type p).
Proof.
  destruct acc as [[cg tbody] s].
  destruct (build_item_cases ns cg tbody s p)
    as (cg1 & s1 & Hm & He & ->).
  intros H.
  bind_case H E1;
    [|inversion H; subst; now apply buildRow_error in E1].
  destruct a as [row s2].
  bind_case H E2.
  - bind_case H E3.
    + destruct a0. discriminate.
    + inversion H; subst. now apply buildEditor_error in E3.
  - inversion H; subst.
    destruct (String.eqb (itemType p) "group");
      now apply applyGroupLevelToRow_error in E2.
Qed.

Lemma build_item_unregistered ns acc p :
  is_property_item p = true -> registered ns p = false ->
  exists e, build_item ns acc p = Throw e.
Proof.
  intros Hp Hr.
  destruct acc as [[cg tbody] s].
  destruct (build_item_cases ns cg tbody s p)
    as (cg1 & s1 & Hm & He & ->).
  destruct (buildRow p cg1 s1) as [[row s2]|e]; simpl; [|now exists e].
  destruct (if String.eqb (itemType p) "group" then _ else _) as [row'|e];
    simpl; [|now exists e].
  rewrite (buildEditor_unregistered ns row' p cg1 s2 Hp Hr). simpl.
  now eexists.
Qed.

Lemma build_loop_ok ns items cg tbody s cg' tbody' s' :
  build_loop ns items (cg, tbody, s) = Ok (cg', tbody', s') ->
  same_model s s' /\
  map Editor.propertyDefinition (editors s') =
    (map Editor.propertyDefinition (editors s)
     ++ filter is_property_item items)%list /\
  (forall p, In p items -> is_property_item p = true ->
             registered ns p = true).
Proof.
  revert cg tbody s.
  induction items as [|p items IH]; intros cg tbody s; simpl.
  - intros [= -> -> ->]. split; [apply same_model_refl|].
    split; [now rewrite List.app_nil_r|]. intros p [].
  - intros H. bind_case H E; [|discriminate].
    destruct a as [[cg1 tbody1] s1].
    apply build_item_ok in E. destruct E as (Hm1 & He1 & Hr1).
    apply IH in H. destruct H as (Hm2 & He2 & Hr2).
    split; [eapply same_model_trans; eassumption|]. split.
    + rewrite He2, He1, <- List.app_assoc.
      now destruct (is_property_item p).
    + intros q [<-|Hq]; [exact Hr1|now apply Hr2].
Qed.

Lemma build_loop_error ns items acc t :
  build_loop ns items acc = Throw (UnknownEditorClass t) ->
  exists p, In p items /\ is_property_item p = true /\
            registered ns p = false /\ t = editor_type (type p).
Proof.
  revert acc. induction items as [|p items IH]; intros acc; simpl.
  - discriminate.
  - intros H. bind_case H E.
    + apply IH in H. destruct H as (q & Hq & H).
      exists q. split; [now right|exact H].
    + inversion H; subst. apply build_item_error in E.
      exists p. split; [now left|exact E].
Qed.

Lemma build_loop_unregistered ns items acc p :
  In p items -> is_property_item p = true -> registered ns p = false ->
  exists e, build_loop ns items acc = Throw e.
Proof.
  revert acc. induction items as [|q items IH]; intros acc; simpl.
  - intros [].
  - intros [->|Hin] Hp Hr.
    + destruct (build_item_unregistered ns acc p Hp Hr) as (e & ->).
      now exists e.
    + destruct (build_item ns acc q) as [acc'|e]; simpl; [|now exists e].
      now apply IH.
Qed.

Lemma buildExternalParameterEditor_frame ns rows s :
  parsedProperties (buildExternalParameterEditor ns rows s)
    = parsedProperties s /\
  values (buildExternalParameterEditor ns rows s) = values s /\
  originalValues (buildExternalParameterEditor ns rows s)
    = originalValues s /\
  options (buildExternalParameterEditor ns rows s) = options s /\
  parentSurface (buildExternalParameterEditor ns rows s)
    = parentSurface s /\
  editors (buildExternalParameterEditor ns rows s) = editors s.
Proof.
  revert s. induction rows as [|row rows IH]; intros s; simpl.
  - repeat split.
  - destruct (_ || _); [apply IH|].
    destruct (match findPropertyEditor s (data_property row) with
              | Some _ => _ | None => _ end); [apply IH|].
    match goal with
    | |- context [buildExternalParameterEditor ns rows ?s1] =>
        destruct (IH s1) as (H1 & H2 & H3 & H4 & H5 & H6)
    end.
    rewrite H1, H2, H3, H4, H5, H6. repeat split.
Qed.

Lemma build_ok ns s s' :
  build ns s = Ok s' ->
  parsedProperties s' = parsedProperties s /\
  values s' = values s /\
  originalValues s' = originalValues s /\
  options s' = options s /\
  map Editor.propertyDefinition (editors s') =
    (map Editor.propertyDefinition (editors s)
     ++ filter is_property_item (parsedProperties s))%list /\
  (forall p, In p (parsedProperties s) -> is_property_item p = true ->
             registered ns p = true).
Proof.
  unfold build. intros H.
  bind_case H E; [|discriminate].
  destruct a as [[cg tbody] s1].
  apply build_loop_ok in E. simpl in E.
  destruct E as ((M1 & M2 & M3 & M4 & M5 & M6) & He & Hr).
  simpl in *.
  set (s2 := set_document s1 _) in H.
  assert (F : parsedProperties s2 = parsedProperties s /\
              values s2 = values s /\
              originalValues s2 = originalValues s /\
              options s2 = options s /\
              parentSurface s2 = parentSurface s /\
              editors s2 = editors s1) by (subst s2; simpl; auto 10).
  clearbody s2. destruct F as (F1 & F2 & F3 & F4 & F5 & F6).
  set (s3 := if enableExternalParameterEditor _ then _ else s2) in H.
  assert (G : parsedProperties s3 = parsedProperties s /\
              values s3 = values s /\
              originalValues s3 = originalValues s /\
              options s3 = options s /\
              parentSurface s3 = parentSurface s /\
              editors s3 = editors s1).
  { subst s3. destruct (enableExternalParameterEditor _); [|auto 10].
    destruct (buildExternalParameterEditor_frame ns tbody s2)
      as (H1 & H2 & H3 & H4 & H5 & H6).
    rewrite H1, H2, H3, H4, H5, H6. auto 10. }
  clearbody s3. destruct G as (G1 & G2 & G3 & G4 & G5 & G6).
  assert (Hfin : parsedProperties s' = parsedProperties s3 /\
                 values s' = values s3 /\
                 originalValues s' = originalValues s3 /\
                 options s' = options s3 /\ editors s' = editors s3).
  { inversion H. destruct (parentSurface s3); simpl; auto. }
  destruct Hfin as (K1 & K2 & K3 & K4 & K5).
  rewrite K1, K2, K3, K4, K5, G1, G2, G3, G4, G6. auto 10.
Qed.

Lemma build_error ns s t :
  build ns s = Throw (UnknownEditorClass t) ->
  exists p, In p (parsedProperties s) /\ is_property_item p = true /\
            registered ns p = false /\ t = editor_type (type p).
Proof.
  unfold build. intros H.
  bind_case H E.
  - destruct a as [[cg tbody] s1]. discriminate.
  - inversion H; subst. now apply build_loop_error in E.
Qed.

Lemma build_unregistered ns s p :
  In p (parsedProperties s) -> is_property_item p = true ->
  registered ns p = false ->
  exists e, build ns s = Throw e.
Proof.
  intros Hin Hp Hr. unfold build.
  match goal with
  | |- context [build_loop ns ?items ?acc] =>
      destruct (build_loop_unregistered ns items acc p Hin Hp Hr)
        as (e & ->)
  end.
  now exists e.
Qed.

Lemma init_model ns s :
  exists s0,
    init ns s = build ns s0 /\
    parsedProperties s0 = parsedProperties s /\
    values s0 = values s /\ originalValues s0 = originalValues s /\
    options s0 = options s /\ editors s0 = editors s.
Proof.
  unfold init.
  destruct (parentSurface s); [exists s; auto 10|].
  destruct (group s); [exists s; auto 10|].
  destruct (GroupManager.createGroup _ _ _) as [g m].
  eexists. split; [reflexivity|]. simpl. auto 10.
Qed.

Lemma new_Surface_model ns props vals uid opts parent grp :
  exists s0,
    new_Surface ns props vals (Some uid) opts parent grp = build ns s0 /\
    parsedProperties s0 = fst props /\
    values s0 = match vals with Some v => v | None => [] end /\
    VObj (originalValues s0) = extend_deep (VObj (values s0)) /\
    options s0 = opts /\ editors s0 = [].
Proof.
  unfold new_Surface.
  match goal with
  | |- context [init ns ?s] =>
      destruct (init_model ns s) as (s0 & H0 & H1 & H2 & H3 & H4 & H5);
      exists s0; rewrite H0, H1, H2, H3, H4, H5
  end.
  split; [reflexivity|].
  destruct parent; simpl; auto 10.
Qed.

Lemma new_Surface_ok ns props vals uid opts parent grp s :
  new_Surface ns props vals (Some uid) opts parent grp = Ok s ->
  parsedProperties s = fst props /\
  values s = match vals with Some v => v | None => [] end /\
  VObj (originalValues s) = extend_deep (VObj (values s)) /\
  options s = opts /\
  map Editor.propertyDefinition (editors s)
    = filter is_property_item (fst props) /\
  (forall p, In p (fst props) -> is_property_item p = true ->
             registered ns p = true).
Proof.
  destruct (new_Surface_model ns props vals uid opts parent grp)
    as (s0 & -> & H1 & H2 & H3 & H4 & H5).
  intros H. apply build_ok in H.
  destruct H as (K1 & K2 & K3 & K4 & K5 & K6).
  split; [congruence|]. split; [congruence|].
  split; [rewrite K3, K2; exact H3|]. split; [congruence|].
  split; [rewrite K5, H5, H1; reflexivity|].
  rewrite H1 in K6. exact K6.
Qed.

Lemma new_Surface_error ns props vals uid opts parent grp t :
  new_Surface ns props vals uid opts parent grp
  = Throw (UnknownEditorClass t) ->
  exists p, In p (fst props) /\ is_property_item p = true /\
            registered ns p = false /\ t = editor_type (type p).
Proof.
  destruct uid as [uid|]; [|discriminate].
  destruct (new_Surface_model ns props vals uid opts parent grp)
    as (s0 & -> & H1 & _).
  intros H. apply build_error in H. now rewrite H1 in H.
Qed.

Lemma new_Surface_unregistered ns props vals uid opts parent grp p :
  In p (fst props) -> is_property_item p = true ->
  registered ns p = false ->
  exists e, new_Surface ns props vals uid opts parent grp = Throw e.
Proof.
  intros Hin Hp Hr.
  destruct uid as [uid|]; [|now eexists].
  destruct (new_Surface_model ns props vals uid opts parent grp)
    as (s0 & -> & H1 & _).
  rewrite <- H1 in Hin. now apply build_unregistered with p.
Qed.


Lemma marked_invalid_app a b :
  marked_invalid (a ++ b) = (marked_invalid a ++ marked_invalid b)%list.
Proof.
  induction a as [|e a IH]; simpl; [reflexivity|].
  destruct e; simpl; now rewrite IH.
Qed.

Lemma marked_invalid_calls s eds :
  marked_invalid (map (validation_call s) eds) = [].
Proof.
  induction eds as [|e eds IH]; simpl; [reflexivity|].
  unfold validation_call at 1.
  destruct (attached_external _ _) as [x|];
    [destruct (ExternalParameterEditor.isEditorVisible x)|]; exact IH.
Qed.

(** C4: validate goes through the editors in their order, which for a
    surface that was built is the order of the schema; for each editor its
    visible external parameter editor is validated in its place; at the
    first editor that fails, that editor and no other is marked invalid
    and false is returned with no further editor validated; the result is
    true exactly when every editor, or its visible external parameter
    editor, passes. *)
Theorem C4_validate_short_circuit :
  (forall ns props vals uid opts parent grp s,
      new_Surface ns props vals uid opts parent grp = Ok s ->
      map Editor.propertyDefinition (editors s)
      = filter is_property_item (fst props)) /\
  (forall s,
      (fst (validate s) = true <-> forallb (passes s) (editors s) = true) /\
      (fst (validate s) = true ->
       log (snd (validate s)) =
         (log s ++ EvUnmarkInvalidGroups
                   :: map (validation_call s) (editors s))%list /\
       marked_invalid (log (snd (validate s))) = marked_invalid (log s)) /\
      (fst (validate s) = false ->
       exists before editor after,
         editors s = (before ++ editor :: after)%list /\
         forallb (passes s) before = true /\
         passes s editor = false /\
         log (snd (validate s)) =
           (log s ++ EvUnmarkInvalidGroups
                     :: map (validation_call s) (before ++ [editor])
                     ++ [EvMarkInvalid (Editor.id editor)])%list /\
         marked_invalid (log (snd (validate s))) =
           (marked_invalid (log s) ++ [Editor.id editor])%list)).
Proof.
  split.
  { intros ns props vals [uid|] opts parent grp s H; [|discriminate].
    now apply new_Surface_ok in H. }
  intros s. rewrite validate_spec.
  destruct (forallb (passes s) (editors s)) eqn:Hall.
  - rewrite (validate_loop_pass s (editors s) Hall). simpl.
    split; [tauto|]. split; [|discriminate].
    intros _. split; [reflexivity|].
    rewrite marked_invalid_app. simpl.
    now rewrite marked_invalid_calls, List.app_nil_r.
  - destruct (first_failing (passes s) (editors s) Hall)
      as (before & e & after & Hsplit & Hb & He).
    rewrite Hsplit, (validate_loop_fail s before e after Hb He). simpl.
    split; [split; discriminate|]. split; [discriminate|].
    intros _. exists before, e, after.
    repeat (split; [tauto|]).
    rewrite !marked_invalid_app. simpl.
    rewrite marked_invalid_app, marked_invalid_calls. reflexivity.
Qed.

Lemma C4_witness :
  new_Surface validation_namespace (validation_schema, false) (Some [])
    (Some "inspector") (mkOptions true false false false) None None
  = Ok validation_surface /\
  map Editor.propertyDefinition (editors validation_surface)
  = filter is_property_item validation_schema /\
  map Editor.id (editors validation_surface) = [2; 4; 6; 8] /\
  map Editor.validate (editors validation_surface)
  = [true; false; true; false] /\
  map (fun e => (ExternalParameterEditor.id e,
                 ExternalParameterEditor.getPropertyName e,
                 ExternalParameterEditor.isEditorVisible e,
                 ExternalParameterEditor.validate e))
      (externalParameterEditors validation_surface)
  = [(9, Some "a", false, true); (10, Some "b", true, true);
     (11, Some "c", true, false); (12, Some "d", true, true)] /\
  fst (validate validation_surface) = false /\
  log (snd (validate validation_surface))
  = (log validation_surface
     ++ [EvUnmarkInvalidGroups; EvValidate 2; EvExternalValidate 10;
         EvExternalValidate 11; EvMarkInvalid 6])%list /\
  exists before editor after,
    editors validation_surface = (before ++ editor :: after)%list /\
    forallb (passes validation_surface) before = true /\
    passes validation_surface editor = false /\
    log (snd (validate validation_surface)) =
      (log validation_surface
       ++ EvUnmarkInvalidGroups
          :: map (validation_call validation_surface) (before ++ [editor])
          ++ [EvMarkInvalid (Editor.id editor)])%list /\
    marked_invalid (log (snd (validate validation_surface))) =
      (marked_invalid (log validation_surface) ++ [Editor.id editor])%list.
Proof.
  assert (H : new_Surface validation_namespace (validation_schema, false)
                (Some []) (Some "inspector")
                (mkOptions true false false false) None None
              = Ok validation_surface) by (vm_compute; reflexivity).
  assert (Hf : fst (validate validation_surface) = false) by reflexivity.
  split; [exact H|].
  split; [exact (proj1 C4_validate_short_circuit _ _ _ _ _ _ _ _ H)|].
  split; [reflexivity|]. split; [reflexivity|]. split; [reflexivity|].
  split; [exact Hf|]. split; [reflexivity|].
  exact (proj2 (proj2 (proj2 C4_validate_short_circuit validation_surface))
           Hf).
Defined.


(** ** The document *)

Lemma find_is_row_none rows id :
  ~ In id (row_ids rows) -> find (is_row id) rows = None.
Proof.
  induction rows as [|r rows IH]; simpl; [reflexivity|].
  intros H. unfold is_row at 1.
  destruct (Nat.eqb (row_id r) id) eqn:E.
  - apply Nat.eqb_eq in E. tauto.
  - apply IH. tauto.
Qed.

Lemma existsb_is_row_false rows id :
  ~ In id (row_ids rows) -> existsb (is_row id) rows = false.
Proof.
  induction rows as [|r rows IH]; simpl; [reflexivity|].
  intros H. unfold is_row at 1.
  destruct (Nat.eqb (row_id r) id) eqn:E.
  - apply Nat.eqb_eq in E. tauto.
  - apply IH. tauto.
Qed.

Lemma existsb_is_row_true rows r :
  In r rows -> existsb (is_row (row_id r)) rows = true.
Proof.
  intros H. apply existsb_exists. exists r. split; [exact H|].
  apply Nat.eqb_refl.
Qed.

Lemma find_is_row_split before r after :
  ~ In (row_id r) (row_ids before) ->
  find (is_row (row_id r)) (before ++ r :: after) = Some r.
Proof.
  induction before as [|b before IH]; simpl; intros H.
  - unfold is_row. now rewrite Nat.eqb_refl.
  - unfold is_row at 1. destruct (Nat.eqb (row_id b) (row_id r)) eqn:E.
    + apply Nat.eqb_eq in E. tauto.
    + apply IH. tauto.
Qed.

Lemma filter_not_row rows id :
  ~ In id (row_ids rows) ->
  filter (fun r => negb (is_row id r)) rows = rows.
Proof.
  induction rows as [|r rows IH]; simpl; [reflexivity|].
  intros H. unfold is_row at 1.
  destruct (Nat.eqb (row_id r) id) eqn:E.
  - apply Nat.eqb_eq in E. tauto.
  - simpl. f_equal. apply IH. tauto.
Qed.

Lemma filter_last_row rows r :
  ~ In (row_id r) (row_ids rows) ->
  filter (fun x => negb (is_row (row_id r) x)) (rows ++ [r]) = rows.
Proof.
  intros H. rewrite filter_app, (filter_not_row _ _ H). simpl.
  unfold is_row. rewrite Nat.eqb_refl. simpl. apply List.app_nil_r.
Qed.

Lemma map_update_not_row rows id f :
  ~ In id (row_ids rows) ->
  map (fun r => if is_row id r then f r else r) rows = rows.
Proof.
  induction rows as [|r rows IH]; simpl; [reflexivity|].
  intros H. unfold is_row at 1.
  destruct (Nat.eqb (row_id r) id) eqn:E.
  - apply Nat.eqb_eq in E. tauto.
  - f_equal. apply IH. tauto.
Qed.

Lemma next_sibling_split before r after :
  ~ In (row_id r) (row_ids before) ->
  next_sibling (before ++ r :: after) (row_id r)
  = option_map row_id (hd_error after).
Proof.
  induction before as [|b before IH]; simpl; intros H.
  - unfold is_row. now rewrite Nat.eqb_refl.
  - unfold is_row at 1. destruct (Nat.eqb (row_id b) (row_id r)) eqn:E.
    + apply Nat.eqb_eq in E. tauto.
    + apply IH. tauto.
Qed.

Lemma insert_before_row_split before y after r :
  ~ In (row_id y) (row_ids before) ->
  insert_before_row (before ++ y :: after) r (row_id y)
  = (before ++ r :: y :: after)%list.
Proof.
  induction before as [|b before IH]; simpl; intros H.
  - unfold is_row. now rewrite Nat.eqb_refl.
  - unfold is_row at 1. destruct (Nat.eqb (row_id b) (row_id y)) eqn:E.
    + apply Nat.eqb_eq in E. tauto.
    + f_equal. apply IH. tauto.
Qed.

Lemma dom_rows_remove d id c :
  dom_rows (dom_remove_row d id) c
  = filter (fun r => negb (is_row id r)) (dom_rows d c).
Proof.
  induction d as [|[k rows] d IH]; simpl; [reflexivity|].
  now destruct (Nat.eqb k c).
Qed.

Lemma dom_rows_update d id f c :
  dom_rows (dom_update_row d id f) c
  = map (fun r => if is_row id r then f r else r) (dom_rows d c).
Proof.
  induction d as [|[k rows] d IH]; simpl; [reflexivity|].
  now destruct (Nat.eqb k c).
Qed.

Lemma dom_keys_remove d id : map fst (dom_remove_row d id) = map fst d.
Proof. unfold dom_remove_row. rewrite map_map. reflexivity. Qed.

Lemma dom_keys_update d id f : map fst (dom_update_row d id f) = map fst d.
Proof. unfold dom_update_row. rewrite map_map. reflexivity. Qed.

Lemma dom_keys_set d c rows :
  In c (map fst d) -> map fst (dom_set_rows d c rows) = map fst d.
Proof.
  induction d as [|[k old] d IH]; simpl; [intros []|].
  destruct (Nat.eqb k c) eqn:E; simpl.
  - reflexivity.
  - intros [H|H]; [apply Nat.eqb_neq in E; congruence|].
    now rewrite IH.
Qed.

Lemma dom_rows_missing d c : ~ In c (map fst d) -> dom_rows d c = [].
Proof.
  induction d as [|[k rows] d IH]; simpl; [reflexivity|].
  intros H. destruct (Nat.eqb k c) eqn:E.
  - apply Nat.eqb_eq in E. tauto.
  - apply IH. tauto.
Qed.

(** A node that is under no other body than [c] is found under [c]. *)
Lemma dom_find_row_view d c id :
  NoDup (map fst d) ->
  (forall c', c' <> c -> ~ In id (row_ids (dom_rows d c'))) ->
  dom_find_row d id = find (is_row id) (dom_rows d c).
Proof.
  induction d as [|[k rows] d IH]; simpl; [reflexivity|].
  intros Hnd Hout. inversion Hnd as [|? ? Hk Hnd']; subst.
  destruct (Nat.eqb k c) eqn:E.
  - apply Nat.eqb_eq in E. subst k.
    destruct (find (is_row id) rows) eqn:F; [reflexivity|].
    rewrite (IH Hnd').
    + now rewrite (dom_rows_missing d c Hk).
    + intros c' Hc'. specialize (Hout c' Hc').
      destruct (Nat.eqb c c') eqn:E'; [|exact Hout].
      apply Nat.eqb_eq in E'. congruence.
  - apply Nat.eqb_neq in E.
    assert (Hk' : ~ In id (row_ids rows)).
    { specialize (Hout k E). now rewrite Nat.eqb_refl in Hout. }
    rewrite (find_is_row_none _ _ Hk').
    apply IH; [exact Hnd'|].
    intros c' Hc'. specialize (Hout c' Hc').
    destruct (Nat.eqb k c') eqn:E'; [|exact Hout].
    apply Nat.eqb_eq in E'. subst c'.
    now rewrite (dom_rows_missing d k Hk).
Qed.

Lemma dom_parent_view d c id :
  NoDup (map fst d) ->
  (forall c', c' <> c -> ~ In id (row_ids (dom_rows d c'))) ->
  existsb (is_row id) (dom_rows d c) = true ->
  dom_parent d id = Some c.
Proof.
  induction d as [|[k rows] d IH]; simpl; [discriminate|].
  intros Hnd Hout Hin. inversion Hnd as [|? ? Hk Hnd']; subst.
  destruct (Nat.eqb k c) eqn:E.
  - apply Nat.eqb_eq in E. subst k. now rewrite Hin.
  - apply Nat.eqb_neq in E.
    assert (Hk' : ~ In id (row_ids rows)).
    { specialize (Hout k E). now rewrite Nat.eqb_refl in Hout. }
    rewrite (existsb_is_row_false _ _ Hk').
    apply IH; [exact Hnd'| |exact Hin].
    intros c' Hc'. specialize (Hout c' Hc').
    destruct (Nat.eqb k c') eqn:E'; [|exact Hout].
    apply Nat.eqb_eq in E'. subst c'.
    now rewrite (dom_rows_missing d k Hk).
Qed.

(** ** mergeChildSurface *)

Lemma in_row_ids_middle id l1 x l2 :
  In id (row_ids (l1 ++ x :: l2)) <->
  id = row_id x \/ In id (row_ids (l1 ++ l2)).
Proof.
  unfold row_ids. rewrite !map_app. simpl. rewrite !in_app_iff. simpl.
  intuition congruence.
Qed.

Lemma NoDup_row_ids_middle l1 x l2 :
  NoDup (row_ids (l1 ++ x :: l2)) <->
  ~ In (row_id x) (row_ids (l1 ++ l2)) /\ NoDup (row_ids (l1 ++ l2)).
Proof.
  unfold row_ids. rewrite !map_app. simpl. split.
  - intros H. split; [now apply NoDup_remove_2|now apply NoDup_remove_1 in H].
  - intros [H1 H2].
    apply (NoDup_Add (Add_app (row_id x) (map row_id l1) (map row_id l2))).
    now split.
Qed.

Lemma in_row_ids_app id l1 l2 :
  In id (row_ids (l1 ++ l2)) <-> In id (row_ids l1) \/ In id (row_ids l2).
Proof. unfold row_ids. rewrite map_app. apply in_app_iff. Qed.

Lemma level_row_id g r : row_id (level_row g r) = row_id r.
Proof.
  unfold level_row, applyGroupLevelToRow.
  destruct (data_group_level r); [reflexivity|].
  destruct (negb (has_head r)); [reflexivity|].
  now destruct g.
Qed.

Lemma can_level_ok g r :
  can_level g r = true -> applyGroupLevelToRow r g = Ok (level_row g r).
Proof.
  unfold can_level, level_row.
  now destruct (applyGroupLevelToRow r g).
Qed.

Lemma dom_key_of_rows d c : dom_rows d c <> [] -> In c (map fst d).
Proof.
  intros H. destruct (in_dec Nat.eq_dec c (map fst d)) as [Hin|Hout].
  - exact Hin.
  - now rewrite dom_rows_missing in H.
Qed.

Lemma insertBefore_after_anchor d P x a before rest :
  dom_find_row d (row_id x) = Some x ->
  dom_rows d P = (before ++ a :: rest)%list ->
  NoDup (row_ids (before ++ a :: rest)) ->
  ~ In (row_id x) (row_ids (before ++ a :: rest)) ->
  insertBefore P (row_id x) (next_sibling (dom_rows d P) (row_id a)) d
  = Ok (dom_set_rows (dom_remove_row d (row_id x)) P
          (before ++ a :: x :: rest)%list).
Proof.
  intros Hfind HP Hnd Hx.
  unfold insertBefore. rewrite Hfind, HP.
  apply NoDup_row_ids_middle in Hnd. destruct Hnd as [Ha Hnd].
  rewrite next_sibling_split
    by (intros H; apply Ha; apply in_row_ids_app; now left).
  rewrite dom_rows_remove, HP, (filter_not_row _ _ Hx).
  destruct rest as [|y rest]; simpl.
  - rewrite <- List.app_assoc. reflexivity.
  - destruct (Nat.eqb (row_id y) (row_id x)) eqn:E.
    + apply Nat.eqb_eq in E. exfalso. apply Hx.
      apply in_row_ids_middle. right. apply in_row_ids_middle. now left.
    + change (before ++ a :: y :: rest)%list
        with (before ++ [a] ++ y :: rest)%list.
      rewrite List.app_assoc, insert_before_row_split.
      * now rewrite <- List.app_assoc.
      * apply NoDup_row_ids_middle in Hnd. destruct Hnd as [Hy _].
        intros H. apply in_row_ids_app in H.
        destruct H as [H|[H|[]]].
        -- apply Hy. apply in_row_ids_app. now left.
        -- apply Ha. apply in_row_ids_middle. left. congruence.
Qed.

Lemma merge_step P C before a after done todo x g d :
  merge_inv P C before a after done (todo ++ [x]) d ->
  can_level g x = true ->
  exists d1 d2,
    dom_parent d (row_id a) = Some P /\
    insertBefore P (row_id x)
      (next_sibling (dom_rows d P) (row_id a)) d = Ok d1 /\
    applyGroupLevelToRow_in (row_id x) g d1 = Ok d2 /\
    merge_inv P C before a after (level_row g x :: done) todo d2 /\
    (forall c, c <> P -> c <> C -> dom_rows d2 c = dom_rows d c).
Proof.
  intros (Hnd & Hpc & HP & HC & HndP & HndT & Hdisj & Hoth) Hlevel.
  set (prow := (before ++ a :: done ++ after)%list) in *.
  assert (F2 : ~ In (row_id x) (row_ids todo)).
  { apply NoDup_row_ids_middle in HndT. rewrite List.app_nil_r in HndT.
    tauto. }
  assert (F3 : ~ In (row_id x) (row_ids prow)).
  { apply Hdisj. apply in_row_ids_middle. now left. }
  assert (Fa : In (row_id a) (row_ids prow)).
  { apply in_row_ids_middle. now left. }
  assert (F4 : ~ In (row_id a) (row_ids (todo ++ [x]))).
  { intros H. now apply (Hdisj _ H). }
  assert (HinP : In P (map fst d)).
  { apply dom_key_of_rows. rewrite HP. subst prow.
    now destruct before. }
  assert (Hparent : dom_parent d (row_id a) = Some P).
  { apply dom_parent_view; [exact Hnd| |].
    - intros c' Hc'. destruct (Nat.eq_dec c' C) as [->|Hc].
      + now rewrite HC.
      + apply Hoth; [exact Hc'|exact Hc|]. apply in_or_app. now left.
    - rewrite HP. apply existsb_is_row_true. subst prow.
      apply in_or_app. right. now left. }
  assert (Hfind : dom_find_row d (row_id x) = Some x).
  { rewrite (dom_find_row_view d C (row_id x) Hnd).
    - rewrite HC. now apply find_is_row_split.
    - intros c' Hc'. destruct (Nat.eq_dec c' P) as [->|Hp].
      + now rewrite HP.
      + apply Hoth; [exact Hp|exact Hc'|]. apply in_or_app. right.
        apply in_row_ids_middle. now left. }
  set (d1 := dom_set_rows (dom_remove_row d (row_id x)) P
               (before ++ a :: x :: done ++ after)%list).
  assert (Hins : insertBefore P (row_id x)
                   (next_sibling (dom_rows d P) (row_id a)) d = Ok d1).
  { now apply insertBefore_after_anchor. }
  assert (Hoth_x : forall c, c <> P -> c <> C ->
                     ~ In (row_id x) (row_ids (dom_rows d c))).
  { intros c Hp Hc. apply Hoth; [exact Hp|exact Hc|].
    apply in_or_app. right. apply in_row_ids_middle. now left. }
  assert (V1P : dom_rows d1 P = (before ++ a :: x :: done ++ after)%list)
    by apply dom_rows_set_same.
  assert (V1C : dom_rows d1 C = todo).
  { unfold d1. rewrite dom_rows_set_other by congruence.
    rewrite dom_rows_remove, HC. now apply filter_last_row. }
  assert (V1o : forall c, c <> P -> c <> C -> dom_rows d1 c = dom_rows d c).
  { intros c Hp Hc. unfold d1. rewrite dom_rows_set_other by exact Hp.
    rewrite dom_rows_remove. apply filter_not_row. now apply Hoth_x. }
  assert (K1 : map fst d1 = map fst d).
  { unfold d1. rewrite dom_keys_set; [apply dom_keys_remove|].
    now rewrite dom_keys_remove. }
  assert (Fx : ~ In (row_id x) (row_ids (before ++ [a]))).
  { intros H. apply F3. subst prow. apply in_row_ids_app in H.
    apply in_row_ids_middle. destruct H as [H|[H|[]]].
    - right. apply in_row_ids_app. now left.
    - now left. }
  assert (Hfind1 : dom_find_row d1 (row_id x) = Some x).
  { rewrite (dom_find_row_view d1 P (row_id x)).
    - rewrite V1P.
      change (before ++ a :: x :: done ++ after)%list
        with (before ++ [a] ++ x :: done ++ after)%list.
      rewrite List.app_assoc. now apply find_is_row_split.
    - now rewrite K1.
    - intros c' Hc'. destruct (Nat.eq_dec c' C) as [->|Hc].
      + now rewrite V1C.
      + rewrite V1o by assumption. now apply Hoth_x. }
  set (d2 := dom_update_row d1 (row_id x) (fun _ => level_row g x)).
  assert (Hlev : applyGroupLevelToRow_in (row_id x) g d1 = Ok d2).
  { unfold applyGroupLevelToRow_in.
    now rewrite Hfind1, (can_level_ok g x Hlevel). }
  assert (Fda : ~ In (row_id x) (row_ids (done ++ after))).
  { intros H. apply F3. subst prow. apply in_row_ids_middle. right.
    apply in_row_ids_app in H. apply in_row_ids_app.
    destruct H as [H|H]; right; apply in_row_ids_app; tauto. }
  assert (V2P : dom_rows d2 P
                = (before ++ a :: (level_row g x :: done) ++ after)%list).
  { unfold d2. rewrite dom_rows_update, V1P.
    change (before ++ a :: x :: done ++ after)%list
      with (before ++ [a] ++ x :: done ++ after)%list.
    rewrite List.app_assoc, map_app. simpl.
    rewrite (map_update_not_row _ _ _ Fx), (map_update_not_row _ _ _ Fda).
    unfold is_row. rewrite Nat.eqb_refl.
    now rewrite <- List.app_assoc. }
  assert (V2C : dom_rows d2 C = todo).
  { unfold d2. rewrite dom_rows_update, V1C.
    now apply map_update_not_row. }
  assert (V2o : forall c, c <> P -> c <> C -> dom_rows d2 c = dom_rows d c).
  { intros c Hp Hc. unfold d2. rewrite dom_rows_update, V1o by assumption.
    apply map_update_not_row. now apply Hoth_x. }
  assert (Hids : forall id,
            In id (row_ids (before ++ a :: (level_row g x :: done) ++ after))
            <-> id = row_id x \/ In id (row_ids prow)).
  { intros id. subst prow. rewrite !in_row_ids_middle. simpl.
    change (before ++ level_row g x :: done ++ after)%list
      with (before ++ level_row g x :: (done ++ after))%list.
    rewrite in_row_ids_middle, level_row_id.
    rewrite !in_row_ids_app. tauto. }
  exists d1, d2. repeat (split; [assumption|]).
  split; [|exact V2o].
  unfold merge_inv. split; [unfold d2; now rewrite dom_keys_update, K1|].
  repeat (split; [assumption|]).
  split; [|split; [|split]].
  - change (before ++ a :: (level_row g x :: done) ++ after)%list
      with (before ++ [a] ++ level_row g x :: (done ++ after))%list.
    rewrite List.app_assoc. apply NoDup_row_ids_middle.
    rewrite <- List.app_assoc, level_row_id. simpl.
    split; [exact F3|exact HndP].
  - apply NoDup_row_ids_middle in HndT. rewrite List.app_nil_r in HndT.
    tauto.
  - intros id Hid H. apply Hids in H. destruct H as [->|H].
    + now apply F2.
    + revert H. apply Hdisj. apply in_row_ids_app. now left.
  - intros c Hp Hc id Hid. rewrite V2o by assumption.
    apply Hoth; [exact Hp|exact Hc|].
    apply in_app_iff in Hid. apply in_app_iff.
    destruct Hid as [H|H].
    + apply Hids in H. destruct H as [->|H]; [|now left].
      right. apply in_row_ids_middle. now left.
    + right. apply in_row_ids_app. now left.
Qed.

Lemma NoDup_app_apart (l1 l2 : list nat) id :
  NoDup (l1 ++ l2) -> In id l1 -> ~ In id l2.
Proof.
  induction l1 as [|x l1 IH]; simpl; intros H Hin H2; [tauto|].
  inversion H as [|? ? Hx Hnd]; subst.
  destruct Hin as [->|Hin].
  - apply Hx. apply in_or_app. now right.
  - now apply (IH Hnd Hin).
Qed.

Lemma merge_loop P C before a after g part :
  forall todo done d,
    merge_inv P C before a after done (todo ++ part) d ->
    forallb (can_level g) part = true ->
    exists d',
      mergeChildSurface_loop (rev (row_ids part)) g (row_id a) d = Ok d' /\
      merge_inv P C before a after (map (level_row g) part ++ done) todo d'
      /\ (forall c, c <> P -> c <> C -> dom_rows d' c = dom_rows d c).
Proof.
  induction part as [|x part IH] using rev_ind; intros todo done d Hinv Hl.
  - exists d. rewrite List.app_nil_r in Hinv. simpl. auto.
  - rewrite forallb_app in Hl. apply andb_true_iff in Hl.
    destruct Hl as [Hl Hx]. simpl in Hx. rewrite andb_true_r in Hx.
    rewrite List.app_assoc in Hinv.
    destruct (merge_step P C before a after done (todo ++ part) x g d
                Hinv Hx)
      as (d1 & d2 & Hp & Hi & Ha & Hinv2 & Hoth2).
    destruct (IH todo (level_row g x :: done) d2 Hinv2 Hl)
      as (d' & Hloop & Hinv' & Hoth').
    exists d'. split; [|split].
    + unfold row_ids. rewrite map_app, rev_app_distr. simpl.
      rewrite Hp. rewrite Hi. simpl. rewrite Ha. simpl. exact Hloop.
    + rewrite map_app, <- List.app_assoc. exact Hinv'.
    + intros c Hc1 Hc2. rewrite Hoth' by assumption. now apply Hoth2.
Qed.

(** C8: mergeChildSurface moves the rows of the child surface into the
    body that holds the anchor row, each one to the place right after the
    anchor, from the last row to the first: at every stage the rows moved
    so far follow the anchor in the order they had in the child, and at
    the end all the rows r1..rn of the child follow the anchor in that
    order, before the rows that followed the anchor. *)
Theorem C8_merge_keeps_child_order :
  forall this surface P a before after,
    NoDup (map fst (document this)) ->
    P <> tableContainer surface ->
    dom_rows (document this) P = (before ++ a :: after)%list ->
    NoDup (row_ids (before ++ a :: after)
           ++ row_ids (dom_rows (document this) (tableContainer surface)))
    ->
    (forall c, c <> P -> c <> tableContainer surface ->
     forall id,
       In id (row_ids (before ++ a :: after)
              ++ row_ids (dom_rows (document this)
                            (tableContainer surface)))%list ->
       ~ In id (row_ids (dom_rows (document this) c))) ->
    forallb (can_level (group surface))
      (dom_rows (document this) (tableContainer surface)) = true ->
    (forall todo moved,
        dom_rows (document this) (tableContainer surface)
        = (todo ++ moved)%list ->
        exists d,
          mergeChildSurface_loop (rev (row_ids moved)) (group surface)
            (row_id a) (document this) = Ok d /\
          dom_rows d P =
            (before ++ a :: map (level_row (group surface)) moved
                    ++ after)%list /\
          dom_rows d (tableContainer surface) = todo) /\
    exists this' surface',
      mergeChildSurface surface (row_id a) this = Ok (this', surface') /\
      dom_rows (document this') P =
        (before ++ a
                :: map (level_row (group surface))
                       (dom_rows (document this) (tableContainer surface))
                ++ after)%list /\
      row_ids (dom_rows (document this') P) =
        (row_ids before ++ row_id a
           :: row_ids (dom_rows (document this) (tableContainer surface))
           ++ row_ids after)%list /\
      dom_rows (document this') (tableContainer surface) = [] /\
      tableContainer surface' = getRootTableContainer this /\
      document surface' = document this'.
Proof.
  intros this surface P a before after Hnd Hpc HP Hnodup Hoth Hlevel.
  set (C := tableContainer surface) in *.
  set (child := dom_rows (document this) C) in *.
  assert (Hinv : merge_inv P C before a after [] child (document this)).
  { unfold merge_inv. simpl.
    split; [exact Hnd|]. split; [exact Hpc|]. split; [exact HP|].
    split; [reflexivity|].
    split; [now apply NoDup_app_remove_r in Hnodup|].
    split; [now apply NoDup_app_remove_l in Hnodup|].
    split; [|exact Hoth].
    intros id Hid H.
    exact (NoDup_app_apart _ _ id Hnodup H Hid). }
  split.
  - intros todo moved Hsplit.
    rewrite Hsplit in Hinv, Hlevel.
    rewrite forallb_app in Hlevel. apply andb_true_iff in Hlevel.
    destruct (merge_loop P C before a after (group surface) moved todo []
                (document this) Hinv (proj2 Hlevel))
      as (d & Hloop & Hinv' & _).
    exists d. split; [exact Hloop|].
    destruct Hinv' as (_ & _ & H1 & H2 & _).
    rewrite List.app_nil_r in H1. now split.
  - rewrite <- (List.app_nil_l child) in Hinv.
    destruct (merge_loop P C before a after (group surface) child [] []
                (document this) Hinv Hlevel)
      as (d & Hloop & Hinv' & _).
    destruct Hinv' as (_ & _ & H1 & H2 & _).
    rewrite List.app_nil_r in H1.
    unfold mergeChildSurface. fold C. fold child.
    change (map row_id child) with (row_ids child).
    change (group (set_tableContainer surface (getRootTableContainer this)))
      with (group surface).
    rewrite Hloop. simpl.
    eexists. eexists. split; [reflexivity|]. simpl.
    split; [exact H1|]. split.
    + rewrite H1. unfold row_ids. rewrite !map_app. simpl.
      rewrite map_app, map_map.
      f_equal. f_equal. f_equal.
      apply map_ext. intros r. apply level_row_id.
    + split; [exact H2|]. split; reflexivity.
Qed.

Lemma C8_witness :
  NoDup (map fst (document merge_parent)) /\
  0 <> tableContainer merge_child /\
  dom_rows (document merge_parent) 0
  = ([] ++ plain_row 1 "a" :: [plain_row 4 "d"])%list /\
  exists this' surface',
    mergeChildSurface merge_child 1 merge_parent = Ok (this', surface') /\
    row_ids (dom_rows (document this') 0) = [1; 2; 3; 4].
Proof.
  assert (H1 : NoDup (map fst (document merge_parent))).
  { repeat (constructor; [simpl; intuition discriminate|]). constructor. }
  assert (H2 : 0 <> tableContainer merge_child) by discriminate.
  assert (H3 : dom_rows (document merge_parent) 0
               = ([] ++ plain_row 1 "a" :: [plain_row 4 "d"])%list)
    by reflexivity.
  repeat (split; [assumption|]).
  assert (H4 : NoDup (row_ids ([] ++ plain_row 1 "a" :: [plain_row 4 "d"])
                      ++ row_ids (dom_rows (document merge_parent)
                                    (tableContainer merge_child)))).
  { repeat (constructor; [simpl; intuition discriminate|]). constructor. }
  assert (H5 : forall c, c <> 0 -> c <> tableContainer merge_child ->
               forall id,
                 In id (row_ids ([] ++ plain_row 1 "a" :: [plain_row 4 "d"])
                        ++ row_ids (dom_rows (document merge_parent)
                                      (tableContainer merge_child)))%list ->
                 ~ In id (row_ids (dom_rows (document merge_parent) c))).
  { intros c Hc0 Hc5 id _.
    unfold merge_parent, merge_document. cbn [document dom_rows].
    destruct (Nat.eqb 0 c) eqn:E0;
      [apply Nat.eqb_eq in E0; congruence|].
    destruct (Nat.eqb 5 c) eqn:E5;
      [apply Nat.eqb_eq in E5; simpl in Hc5; congruence|].
    simpl. tauto. }
  destruct (C8_merge_keeps_child_order merge_parent merge_child 0
              (plain_row 1 "a") [] [plain_row 4 "d"] H1 H2 H3 H4 H5
              eq_refl)
    as (_ & this' & surface' & Hm & _ & Hids & _).
  exists this', surface'. split; [exact Hm|exact Hids].
Defined.

(** ** toggleGroup *)


Lemma status_events_app a b :
  status_events (a ++ b) = (status_events a ++ status_events b)%list.
Proof.
  induction a as [|e a IH]; simpl; [reflexivity|].
  destruct e; simpl; now rewrite IH.
Qed.

Lemma timeout_events_app a b :
  timeout_events (a ++ b) = (timeout_events a ++ timeout_events b)%list.
Proof.
  induction a as [|e a IH]; simpl; [reflexivity|].
  destruct e; simpl; now rewrite IH.
Qed.

Lemma toggled_rows_toggles c stack :
  toggled_rows (map (fun id => EvToggleRow id c) stack)
  = map (fun id => (id, c)) stack.
Proof.
  induction stack as [|x stack IH]; simpl; [reflexivity|].
  now rewrite IH.
Qed.

Lemma stack_sync stack c d :
  forall s,
    log (expandOrCollapseRows_stack stack c d true s)
    = (log s ++ map (fun id => EvToggleRow id c) stack)%list /\
    timers (expandOrCollapseRows_stack stack c d true s) = timers s /\
    groupManager (expandOrCollapseRows_stack stack c d true s)
    = groupManager s /\
    document (expandOrCollapseRows_stack stack c d true s)
    = fold_left (fun doc id => dom_update_row doc id (toggle_row c)) stack
        (document s) /\
    parentSurface (expandOrCollapseRows_stack stack c d true s)
    = parentSurface s /\
    tableContainer (expandOrCollapseRows_stack stack c d true s)
    = tableContainer s.
Proof.
  induction stack as [|x stack IH]; intros s; simpl.
  - rewrite List.app_nil_r. auto 10.
  - destruct (IH (add_log
                    (set_document s
                       (dom_update_row (document s) x (toggle_row c)))
                    [EvToggleRow x c]))
      as (H1 & H2 & H3 & H4 & H5 & H6).
    rewrite H1, H2, H3, H4, H5, H6. simpl.
    rewrite <- List.app_assoc. auto 10.
Qed.

Lemma stack_async stack c d s :
  expandOrCollapseRows_stack stack c d false s =
    match stack with
    | [] => s
    | x :: rest =>
        add_log (set_timers s (timers s ++ [mkTimer x rest c d])%list)
                [EvSetTimeout d]
    end.
Proof. now destruct stack. Qed.


Lemma selected_rows_update m i flag id f table :
  (forall r, data_parent_group_index (f r) = data_parent_group_index r /\
             row_id (f r) = row_id r) ->
  GroupRows.findGroupRows m
    (map (fun r => if is_row id r then f r else r) table) i flag
  = map row_id (filter (selected_row m i flag) table).
Proof.
  intros Hf. unfold GroupRows.findGroupRows.
  induction table as [|r table IH]; simpl; [reflexivity|].
  assert (E : (GroupRows.belongs_to i (if is_row id r then f r else r)
               || (flag && existsb
                     (fun j => GroupRows.belongs_to j
                                 (if is_row id r then f r else r))
                     (GroupManager.descendants m i)))
              = selected_row m i flag r).
  { unfold selected_row, GroupRows.belongs_to.
    destruct (is_row id r); [|reflexivity].
    now rewrite (proj1 (Hf r)). }
  rewrite E. destruct (selected_row m i flag r); simpl; [|exact IH].
  rewrite IH. f_equal.
  destruct (is_row id r); [apply Hf|reflexivity].
Qed.


Lemma getRootTable_set_document s d :
  getRootTable (set_document s d) = dom_rows d (getRootTableContainer s).
Proof. reflexivity. Qed.

Lemma toggleGroup_unfold s row forceExpand r link :
  dom_find_row (document s) row = Some r ->
  link_class r = Some link ->
  toggleGroup row forceExpand s =
    let i := attr_text (data_group_index r) in
    let collapse := hasClass link "expanded" && negb forceExpand in
    let s1 :=
      set_document s
        (dom_update_row (document s) row
           (fun r => set_link_class r
              (Some (if collapse then removeClass link "expanded"
                     else addClass link "expanded")))) in
    let selected :=
      map row_id (filter (selected_row (groupManager s) i (negb collapse))
                         (getRootTable s)) in
    let s2 :=
      expandOrCollapseRows selected collapse
        (round_50_div (List.length selected)) forceExpand
        (add_log s1 [EvFindGroupRows i (negb collapse)]) in
    Ok (add_log
          (set_groupManager s2
             (GroupManager.setGroupStatus i (negb collapse)
                (groupManager s2)))
          [EvSetGroupStatus i (negb collapse)]).
Proof.
  intros Hfind Hlink. unfold toggleGroup. rewrite Hfind, Hlink.
  cbv zeta.
  match goal with
  | |- context [GroupRows.findGroupRows ?m (getRootTable ?s1) ?i ?b] =>
      assert (Hsel : GroupRows.findGroupRows m (getRootTable s1) i b
                     = map row_id (filter (selected_row (groupManager s) i b)
                                          (getRootTable s)))
  end.
  { rewrite getRootTable_set_document, dom_rows_update.
    apply selected_rows_update. intros x. split; reflexivity. }
  rewrite Hsel. reflexivity.
Qed.




(** ** expandGroupParents *)

Lemma same_skeleton_refl d : same_skeleton d d.
Proof. split; auto. Qed.

Lemma same_skeleton_trans d1 d2 d3 :
  same_skeleton d1 d2 -> same_skeleton d2 d3 -> same_skeleton d1 d3.
Proof.
  intros [K1 S1] [K2 S2]. split; [congruence|].
  intros c. now rewrite S2, S1.
Qed.

Lemma skeleton_row_ids l l' :
  map skeleton l' = map skeleton l -> row_ids l' = row_ids l.
Proof.
  intros H. unfold row_ids.
  assert (E : forall x, map row_id x
                        = map (fun t => fst (fst (fst t))) (map skeleton x)).
  { intros x. rewrite map_map. reflexivity. }
  now rewrite (E l'), (E l), H.
Qed.

Lemma map_eq_in {A B : Type} (f : A -> B) l l' x' :
  map f l' = map f l -> In x' l' -> exists x, In x l /\ f x = f x'.
Proof.
  revert l'. induction l as [|y l IH]; intros [|y' l']; simpl;
    try discriminate; [tauto|].
  intros [= Hy Hl] [<-|Hin].
  - exists y. split; [now left|congruence].
  - destruct (IH l' Hl Hin) as (x & Hx & Hs). exists x. auto.
Qed.

Lemma map_eq_find {A B : Type} (f : A -> B) (p : A -> bool) l l' :
  (forall x y, f x = f y -> p x = p y) ->
  map f l' = map f l ->
  option_map f (find p l') = option_map f (find p l).
Proof.
  intros Hp. revert l'.
  induction l as [|y l IH]; intros [|y' l']; simpl; try discriminate;
    [reflexivity|].
  intros [= Hy Hl]. rewrite (Hp y' y Hy).
  destruct (p y); simpl; [now rewrite Hy|now apply IH].
Qed.

Lemma group_row_skeleton g x y :
  skeleton x = skeleton y ->
  opt_eqb (data_group_index x) (Some (GroupManager.groupIndex g))
  = opt_eqb (data_group_index y) (Some (GroupManager.groupIndex g)).
Proof. unfold skeleton. intros [= _ -> _ _]. reflexivity. Qed.

Lemma has_group_row_skeleton l l' g :
  map skeleton l' = map skeleton l ->
  has_group_row l' g = has_group_row l g.
Proof.
  intros H. unfold has_group_row, GroupRows.findGroupRow.
  pose proof (map_eq_find skeleton
                (fun r => opt_eqb (data_group_index r)
                            (Some (GroupManager.groupIndex g)))
                l l' (group_row_skeleton g) H) as E.
  destruct (find _ l'), (find _ l); simpl in E; congruence.
Qed.

Lemma find_is_row_in rows r :
  NoDup (row_ids rows) -> In r rows ->
  find (is_row (row_id r)) rows = Some r.
Proof.
  intros Hnd Hin. apply in_split in Hin.
  destruct Hin as (l1 & l2 & ->).
  apply find_is_row_split.
  apply NoDup_row_ids_middle in Hnd. destruct Hnd as [H _].
  intros Hx. apply H. apply in_row_ids_app. now left.
Qed.

Lemma same_id_same_row rows r y :
  NoDup (row_ids rows) -> In r rows -> In y rows ->
  row_id y = row_id r -> y = r.
Proof.
  intros Hnd Hr Hy Hid.
  pose proof (find_is_row_in rows r Hnd Hr) as F1.
  pose proof (find_is_row_in rows y Hnd Hy) as F2.
  rewrite Hid in F2. congruence.
Qed.

Lemma map_skeleton_update rows id f :
  (forall y, In y rows -> row_id y = id -> skeleton (f y) = skeleton y) ->
  map skeleton (map (fun r => if is_row id r then f r else r) rows)
  = map skeleton rows.
Proof.
  intros Hf. rewrite map_map. apply map_ext_in.
  intros y Hy. unfold is_row.
  destruct (Nat.eqb (row_id y) id) eqn:E; [|reflexivity].
  apply Nat.eqb_eq in E. now apply Hf.
Qed.

Lemma toggle_rows_skeleton c stack :
  forall d,
    same_skeleton d
      (fold_left (fun doc id => dom_update_row doc id (toggle_row c)) stack
         d).
Proof.
  induction stack as [|x stack IH]; intros d; simpl.
  - apply same_skeleton_refl.
  - eapply same_skeleton_trans; [|apply IH].
    split; [apply dom_keys_update|].
    intros k. rewrite dom_rows_update. apply map_skeleton_update.
    reflexivity.
Qed.

Lemma status_events_toggles c stack :
  status_events (map (fun id => EvToggleRow id c) stack) = [].
Proof. induction stack; simpl; auto. Qed.

Lemma timeout_events_toggles c stack :
  timeout_events (map (fun id => EvToggleRow id c) stack) = [].
Proof. induction stack; simpl; auto. Qed.

Lemma root_table_ok_skeleton s s' :
  root_table_ok s ->
  same_skeleton (document s) (document s') ->
  getRootTableContainer s' = getRootTableContainer s ->
  root_table_ok s'.
Proof.
  intros (Hnd & HndR & Hoth & Hlink) [Hk Hs] Hc.
  unfold root_table_ok, getRootTable. rewrite Hc, Hk.
  rewrite (skeleton_row_ids _ _ (Hs (getRootTableContainer s))).
  split; [exact Hnd|]. split; [exact HndR|]. split.
  - intros c Hne id Hid. rewrite (skeleton_row_ids _ _ (Hs c)).
    now apply Hoth.
  - intros r' Hin Hgi.
    destruct (map_eq_in skeleton _ _ r' (Hs (getRootTableContainer s)) Hin)
      as (r0 & Hin0 & Hsk).
    unfold skeleton in Hsk. injection Hsk as _ Hg _ Hl.
    specialize (Hlink r0 Hin0). rewrite Hg in Hlink.
    specialize (Hlink Hgi).
    destruct (link_class r0); [|congruence].
    destruct (link_class r'); congruence.
Qed.

Lemma toggleGroup_force s r i :
  root_table_ok s ->
  In r (getRootTable s) ->
  data_group_index r = Some i ->
  exists s',
    toggleGroup (row_id r) true s = Ok s' /\
    status_events (log s') = (status_events (log s) ++ [(i, true)])%list /\
    timeout_events (log s') = timeout_events (log s) /\
    timers s' = timers s /\
    same_skeleton (document s) (document s') /\
    getRootTableContainer s' = getRootTableContainer s.
Proof.
  intros (Hnd & HndR & Hoth & Hlink) Hin Hgi.
  assert (Hfind : dom_find_row (document s) (row_id r) = Some r).
  { rewrite (dom_find_row_view (document s) (getRootTableContainer s)
               (row_id r) Hnd).
    - now apply find_is_row_in.
    - intros c Hc. apply Hoth; [exact Hc|].
      apply in_map_iff. now exists r. }
  destruct (link_class r) as [link|] eqn:Hl.
  2:{ exfalso. apply (Hlink r Hin); congruence. }
  rewrite (toggleGroup_unfold s (row_id r) true r link Hfind Hl).
  cbv zeta. rewrite Hgi. simpl attr_text.
  rewrite andb_false_r. simpl negb.
  eexists. split; [reflexivity|].
  unfold expandOrCollapseRows.
  match goal with
  | |- context [expandOrCollapseRows_stack ?st ?c ?d true ?s0] =>
      destruct (stack_sync st c d s0) as (H1 & H2 & H3 & H4 & H5 & H6);
      set (s2 := expandOrCollapseRows_stack st c d true s0) in *;
      set (stack := st) in *
  end.
  clearbody s2.
  cbn [log timers document add_log set_groupManager set_document
       getRootTableContainer parentSurface tableContainer] in *.
  assert (Hroot : getRootTableContainer
                    (add_log
                       (set_groupManager s2
                          (GroupManager.setGroupStatus i true
                             (groupManager s2)))
                       [EvSetGroupStatus i true])
                  = getRootTableContainer s).
  { unfold getRootTableContainer. cbn [parentSurface tableContainer
      add_log set_groupManager]. now rewrite H5, H6. }
  rewrite Hroot, H1, H2, H4.
  rewrite !status_events_app, !timeout_events_app.
  rewrite status_events_toggles, timeout_events_toggles. simpl.
  rewrite !List.app_nil_r.
  repeat (split; [reflexivity|]).
  split; [|reflexivity].
  eapply same_skeleton_trans; [|apply toggle_rows_skeleton].
  split; [apply dom_keys_update|].
  intros c. rewrite dom_rows_update. apply map_skeleton_update.
  intros y Hy Hid.
  destruct (Nat.eq_dec c (getRootTableContainer s)) as [->|Hc].
  - rewrite (same_id_same_row _ r y HndR Hin Hy Hid).
    unfold skeleton. simpl. now rewrite Hl.
  - exfalso. apply (Hoth c Hc (row_id r)).
    + apply in_map_iff. now exists r.
    + rewrite <- Hid. apply in_map_iff. now exists y.
Qed.

Lemma expandGroupParents_loop_spec groups :
  forall s,
    root_table_ok s ->
    exists s',
      expandGroupParents_loop groups s = Ok s' /\
      status_events (log s') =
        (status_events (log s)
         ++ map (fun g => (GroupManager.groupIndex g, true))
                (filter (has_group_row (getRootTable s)) groups))%list /\
      timeout_events (log s') = timeout_events (log s) /\
      timers s' = timers s.
Proof.
  induction groups as [|g groups IH]; intros s Hok; simpl.
  - exists s. rewrite List.app_nil_r. auto.
  - unfold has_group_row at 1.
    destruct (GroupRows.findGroupRow (getRootTable s) g) as [r|] eqn:Hf.
    + unfold GroupRows.findGroupRow in Hf.
      pose proof (find_some _ _ Hf) as [Hin Hgi].
      assert (Hgi' : data_group_index r
                     = Some (GroupManager.groupIndex g)).
      { destruct (data_group_index r) as [j|]; simpl in Hgi;
          [|discriminate].
        apply String.eqb_eq in Hgi. now subst. }
      destruct (toggleGroup_force s r _ Hok Hin Hgi')
        as (s1 & Ht & Hst & Hto & Htm & Hsk & Hc).
      rewrite Ht. simpl.
      pose proof (root_table_ok_skeleton s s1 Hok Hsk Hc) as Hok1.
      destruct (IH s1 Hok1) as (s' & Hl & Hst' & Hto' & Htm').
      exists s'. split; [exact Hl|].
      rewrite Hst', Hto', Htm', Hst, Hto, Htm, <- List.app_assoc.
      simpl. repeat split.
      f_equal. f_equal. f_equal.
      apply filter_ext. intros g'.
      apply has_group_row_skeleton.
      unfold getRootTable. rewrite Hc. apply Hsk.
    + destruct (IH s Hok) as (s' & Hl & Hst' & Hto' & Htm').
      exists s'. auto.
Qed.

Lemma getGroupAndAllParents_ancestors g :
  GroupManager.getGroupAndAllParents g = g :: GroupManager.ancestors g.
Proof. now destruct g as [i [p|]]. Qed.

(** C7, as the code has it: expandGroupParents(g) force-expands the
    ancestors of g and then g itself, from the outermost ancestor down to
    g, each of them that has a group row in the root table and no other
    group, with no animation: no timer is set. *)
Theorem C7_expandGroupParents_expands_group_and_ancestors :
  forall s g,
    root_table_ok s ->
    exists s',
      expandGroupParents g s = Ok s' /\
      status_events (log s') =
        (status_events (log s)
         ++ map (fun g' => (GroupManager.groupIndex g', true))
                (filter (has_group_row (getRootTable s))
                        (rev (GroupManager.ancestors g) ++ [g])))%list /\
      timeout_events (log s') = timeout_events (log s) /\
      timers s' = timers s.
Proof.
  intros s g Hok. unfold expandGroupParents.
  rewrite getGroupAndAllParents_ancestors. simpl rev.
  now apply expandGroupParents_loop_spec.
Qed.

Lemma C7_witness :
  root_table_ok nested_surface /\
  exists s',
    expandGroupParents nested_group2 nested_surface = Ok s' /\
    status_events (log s') = [("1", true); ("2", true)].
Proof.
  assert (Hok : root_table_ok nested_surface).
  { unfold root_table_ok. split; [|split; [|split]].
    - repeat (constructor; [simpl; intuition discriminate|]). constructor.
    - repeat (constructor; [simpl; intuition discriminate|]). constructor.
    - intros c Hc id _. change (c <> 0) in Hc.
      unfold nested_surface. cbn [document dom_rows].
      destruct (Nat.eqb 0 c) eqn:E;
        [apply Nat.eqb_eq in E; congruence|].
      simpl. tauto.
    - intros r Hin Hgi. simpl in Hin.
      destruct Hin as [<-|[<-|[<-|[<-|[]]]]]; simpl in *;
        first [discriminate | exfalso; apply Hgi; reflexivity]. }
  split; [exact Hok|].
  destruct (C7_expandGroupParents_expands_group_and_ancestors
              nested_surface nested_group2 Hok) as (s' & H1 & H2 & _).
  exists s'. split; [exact H1|exact H2].
Defined.

(** C7 as stated fails: expandGroupParents on the group 2 of the nested
    surface force-expands the group 2 itself, which is not one of its
    ancestors, after its parent 1; the root group, which is an ancestor
    and has no row, is not expanded. *)
Lemma C7_counterexample :
  map GroupManager.groupIndex (GroupManager.ancestors nested_group2)
  = ["1"; "root"] /\
  match expandGroupParents nested_group2 nested_surface with
  | Ok s' => status_events (log s') = [("1", true); ("2", true)]
  | Throw _ => False
  end.
Proof.
  vm_compute. split; reflexivity.
Qed.

(** ** JSON.stringify and the documents *)

Lemma append_assoc (a b c : string) : (a ++ b) ++ c = a ++ (b ++ c).
Proof. induction a as [|x a IH]; simpl; [reflexivity|now rewrite IH]. Qed.

Lemma append_nil_r (a : string) : a ++ "" = a.
Proof. induction a as [|x a IH]; simpl; [reflexivity|now rewrite IH]. Qed.

Lemma stringify_to_json v : JSON_stringify v = option_map ser (to_json v).
Proof.
  induction v as [| | | | |items IH|fields IH| |] using jsval_ind;
    try reflexivity.
  - assert (E : map (fun x => match JSON_stringify x with
                              | Some t => t
                              | None => "null"
                              end) items
                = map ser (map (item_json to_json) items)).
    { rewrite map_map.
      induction IH as [|x items Hx _ IHitems]; simpl; [reflexivity|].
      rewrite IHitems. f_equal.
      unfold item_json. rewrite Hx. now destruct (to_json x). }
    cbn [JSON_stringify to_json option_map ser]. now rewrite E.
  - assert (E : flat_map (fun kv => match JSON_stringify (snd kv) with
                                    | Some t => [quote (fst kv) ++ ":" ++ t]
                                    | None => []
                                    end) fields
                = map (member ser) (flat_map (member_json to_json) fields)).
    { induction IH as [|kv fields Hx _ IHfields]; [reflexivity|].
      cbn [flat_map]. rewrite map_app, IHfields. f_equal.
      unfold member_json. rewrite Hx. now destruct (to_json (snd kv)). }
    cbn [JSON_stringify to_json option_map ser]. now rewrite E.
Qed.

Lemma to_json_none v :
  to_json v = None <-> v = VUndefined \/ exists name, v = VFun name.
Proof.
  split.
  - destruct v; simpl; try discriminate; intros _;
      [now left|right; now eexists].
  - intros [->|[n ->]]; reflexivity.
Qed.

Lemma kind_of_ser_char c r :
  kind_of_string (String c r) = kind_of_char c.
Proof. reflexivity. Qed.

Lemma string_of_uint_digits d :
  all_digits (NilEmpty.string_of_uint d) = true.
Proof. induction d; simpl; auto. Qed.

Lemma number_to_string_shape n :
  exists c s, number_to_string n = String c s /\
              (is_digit c = true \/ c = "-"%char) /\
              all_digits s = true.
Proof.
  unfold number_to_string.
  destruct n as [|p|p]; simpl.
  - exists "0"%char, EmptyString. auto.
  - pose proof (string_of_uint_digits (Pos.to_uint p)) as H.
    destruct (NilEmpty.string_of_uint (Pos.to_uint p)) as [|c s] eqn:E.
    + exfalso. pose proof (NilEmpty.usu (Pos.to_uint p)) as U.
      rewrite E in U. simpl in U. injection U as U.
      symmetry in U. revert U. apply DecimalPos.Unsigned.to_uint_nonnil.
    + simpl in H. apply andb_true_iff in H. exists c, s. tauto.
  - exists "-"%char, (NilEmpty.string_of_uint (Pos.to_uint p)).
    split; [reflexivity|]. split; [now right|].
    apply string_of_uint_digits.
Qed.

Lemma digits_apart s1 :
  forall s2 r1 r2,
    all_digits s1 = true -> all_digits s2 = true ->
    ok_rest r1 -> ok_rest r2 ->
    s1 ++ r1 = s2 ++ r2 -> s1 = s2 /\ r1 = r2.
Proof.
  induction s1 as [|c1 s1 IH]; intros [|c2 s2] r1 r2 H1 H2 O1 O2 E;
    simpl in *.
  - auto.
  - subst r1. simpl in O1. apply andb_true_iff in H2. destruct H2 as [H2 _].
    congruence.
  - subst r2. simpl in O2. apply andb_true_iff in H1. destruct H1 as [H1 _].
    congruence.
  - injection E as -> E.
    apply andb_true_iff in H1. apply andb_true_iff in H2.
    destruct (IH s2 r1 r2) as [-> ->]; tauto.
Qed.

Lemma number_to_string_inj n1 n2 :
  number_to_string n1 = number_to_string n2 -> n1 = n2.
Proof.
  unfold number_to_string. intros H.
  apply DecimalZ.to_int_inj.
  pose proof (NilEmpty.isi (Z.to_int n1)) as I1.
  pose proof (NilEmpty.isi (Z.to_int n2)) as I2.
  rewrite H in I1. congruence.
Qed.

Lemma is_digit_minus : is_digit "-" = false.
Proof. reflexivity. Qed.

Lemma number_apart n1 n2 r1 r2 :
  ok_rest r1 -> ok_rest r2 ->
  number_to_string n1 ++ r1 = number_to_string n2 ++ r2 ->
  n1 = n2 /\ r1 = r2.
Proof.
  intros O1 O2 E.
  destruct (number_to_string_shape n1) as (c1 & s1 & E1 & C1 & D1).
  destruct (number_to_string_shape n2) as (c2 & s2 & E2 & C2 & D2).
  rewrite E1, E2 in E. simpl in E. injection E as -> E.
  destruct (digits_apart s1 s2 r1 r2 D1 D2 O1 O2 E) as [-> ->].
  split; [|reflexivity].
  apply number_to_string_inj. congruence.
Qed.

Lemma unescape_escape c t :
  unescape_char (escape_char c ++ t) = Some (c, t).
Proof.
  destruct c as [[] [] [] [] [] [] [] []]; reflexivity.
Qed.

Lemma escape_char_head c t r : escape_char c ++ t <> String dquote r.
Proof.
  destruct c as [[] [] [] [] [] [] [] []]; discriminate.
Qed.

Lemma escape_apart s1 :
  forall s2 r1 r2,
    escape s1 ++ String dquote r1 = escape s2 ++ String dquote r2 ->
    s1 = s2 /\ r1 = r2.
Proof.
  induction s1 as [|c1 s1 IH]; intros [|c2 s2] r1 r2 E; simpl in E.
  - injection E as ->. auto.
  - rewrite append_assoc in E. symmetry in E.
    now apply escape_char_head in E.
  - rewrite append_assoc in E. now apply escape_char_head in E.
  - rewrite !append_assoc in E.
    apply (f_equal unescape_char) in E.
    rewrite !unescape_escape in E. injection E as -> E.
    destruct (IH s2 r1 r2 E) as [-> ->]. auto.
Qed.

Lemma quote_apart s1 s2 r1 r2 :
  quote s1 ++ r1 = quote s2 ++ r2 -> s1 = s2 /\ r1 = r2.
Proof.
  unfold quote, str1. simpl. rewrite !append_assoc. simpl.
  intros [= E]. now apply escape_apart.
Qed.

Lemma kind_of_digit c : is_digit c = true -> kind_of_char c = 2.
Proof.
  destruct c as [[] [] [] [] [] [] [] []]; simpl; intros H;
    first [reflexivity | discriminate].
Qed.

Lemma kind_of_ser j r : kind_of_string (ser j ++ r) = kind_of_json j.
Proof.
  destruct j as [|[]|n|s|items|members]; try reflexivity.
  simpl.
  destruct (number_to_string_shape n) as (c & s & -> & [C| ->] & _).
  - simpl. now apply kind_of_digit.
  - reflexivity.
Qed.

Lemma join_cons_tail close x l r :
  join "," (x :: l) ++ String close r = x ++ list_tail close l r.
Proof.
  destruct l as [|y l]; [reflexivity|].
  change (join "," (x :: y :: l)) with (x ++ "," ++ join "," (y :: l)).
  now rewrite !append_assoc.
Qed.

Section ListsOfDocuments.
Variable A : Type.
Variable p : A -> string.
Variable close : ascii.
Hypothesis close_kind : kind_of_char close = 6.
Hypothesis close_comma : close <> ","%char.
Hypothesis close_digit : is_digit close = false.
Hypothesis p_kind : forall a r, kind_of_string (p a ++ r) <> 6.

Lemma ok_rest_tail l r : ok_rest (list_tail close l r).
Proof. destruct l; simpl; [exact close_digit|reflexivity]. Qed.

Lemma tails_apart l1 :
  Forall (apart p) l1 ->
  forall l2 r1 r2,
    list_tail close (map p l1) r1 = list_tail close (map p l2) r2 ->
    l1 = l2 /\ r1 = r2.
Proof.
  induction 1 as [|a l1 Ha _ IH]; intros [|b l2] r1 r2 E.
  - simpl in E. injection E as ->. auto.
  - simpl in E. injection E as E _. congruence.
  - simpl in E. injection E as E _. congruence.
  - cbn [map list_tail] in E. injection E as E.
    change (join "," (p a :: map p l1) ++ String close r1
            = join "," (p b :: map p l2) ++ String close r2) in E.
    rewrite !join_cons_tail in E.
    destruct (Ha b _ _ (ok_rest_tail _ _) (ok_rest_tail _ _) E)
      as [-> E'].
    destruct (IH l2 r1 r2 E') as [-> ->]. auto.
Qed.

Lemma lists_apart l1 l2 r1 r2 :
  Forall (apart p) l1 ->
  join "," (map p l1) ++ String close r1
  = join "," (map p l2) ++ String close r2 ->
  l1 = l2 /\ r1 = r2.
Proof.
  intros H E. destruct l1 as [|a l1], l2 as [|b l2].
  - simpl in E. injection E as ->. auto.
  - exfalso. cbn [map] in E. rewrite join_cons_tail in E.
    apply (f_equal kind_of_string) in E. simpl in E.
    rewrite close_kind in E. symmetry in E. revert E. apply p_kind.
  - exfalso. cbn [map] in E. rewrite join_cons_tail in E.
    apply (f_equal kind_of_string) in E. simpl in E.
    rewrite close_kind in E. revert E. apply p_kind.
  - cbn [map] in E. rewrite !join_cons_tail in E.
    inversion H as [|? ? Ha Hl]; subst.
    destruct (Ha b _ _ (ok_rest_tail _ _) (ok_rest_tail _ _) E)
      as [-> E'].
    destruct (tails_apart l1 Hl l2 r1 r2 E') as [-> ->]. auto.
Qed.
End ListsOfDocuments.

Lemma ok_rest_colonless r : ok_rest (String "," r) /\ ok_rest (String "]" r)
                            /\ ok_rest (String "}" r).
Proof. repeat split. Qed.

(** A document is read back from its text in one way only. *)
Lemma ser_apart j1 :
  forall j2 r1 r2,
    ok_rest r1 -> ok_rest r2 ->
    ser j1 ++ r1 = ser j2 ++ r2 -> j1 = j2 /\ r1 = r2.
Proof.
  induction j1 as [|b1|n1|s1|items1 IH|members1 IH] using json_ind;
    intros j2 r1 r2 O1 O2 E;
    pose proof (f_equal kind_of_string E) as K;
    rewrite !kind_of_ser in K;
    destruct j2 as [|b2|n2|s2|items2|members2]; try discriminate K;
    clear K.
  - simpl in E. injection E as ->. auto.
  - destruct b1, b2; simpl in E; try discriminate E;
      injection E as ->; auto.
  - simpl in E. destruct (number_apart n1 n2 r1 r2 O1 O2 E) as [-> ->].
    auto.
  - simpl in E. destruct (quote_apart s1 s2 r1 r2 E) as [-> ->]. auto.
  - cbn [ser] in E. simpl in E. injection E as E.
    rewrite !append_assoc in E. simpl in E.
    destruct (lists_apart json ser "]" eq_refl ltac:(discriminate) eq_refl
                ltac:(intros a r; rewrite kind_of_ser;
                      destruct a; discriminate)
                items1 items2 r1 r2 IH E) as [-> ->].
    auto.
  - cbn [ser] in E. simpl in E. injection E as E.
    rewrite !append_assoc in E. simpl in E.
    assert (Hm : Forall (apart (member ser)) members1).
    { apply Forall_forall. intros [k1 v1] Hin [k2 v2] R1 R2 OR1 OR2 E1.
      rewrite Forall_forall in IH. specialize (IH (k1, v1) Hin).
      unfold member in E1. cbn [fst snd] in E1, IH.
      rewrite !append_assoc in E1.
      destruct (quote_apart k1 k2 _ _ E1) as [-> E2].
      simpl in E2. injection E2 as E2.
      destruct (IH v2 R1 R2 OR1 OR2 E2) as [-> ->]. auto. }
    destruct (lists_apart (string * json) (member ser) "}" eq_refl
                ltac:(discriminate) eq_refl
                ltac:(intros a r; unfold member, quote; simpl;
                      discriminate)
                members1 members2 r1 r2 Hm E) as [-> ->].
    auto.
Qed.

Lemma ser_inj j1 j2 : ser j1 = ser j2 -> j1 = j2.
Proof.
  intros E.
  destruct (ser_apart j1 j2 "" "" I I) as [H _]; [|exact H].
  now rewrite !append_nil_r.
Qed.

(** ** hasChanges *)

Lemma hasChanges_members s :
  hasChanges s = false <->
  members_of (originalValues s) = members_of (values s).
Proof.
  unfold hasChanges, comparePropertyValues.
  cbn [is_undefined typeof negb andb String.eqb Ascii.eqb Bool.eqb].
  rewrite !stringify_to_json. cbn [to_json option_map opt_string_eqb].
  fold (members_of (originalValues s)). fold (members_of (values s)).
  rewrite negb_false_iff, String.eqb_eq. split.
  - intros H. apply ser_inj in H. now injection H.
  - now intros ->.
Qed.






Lemma assoc_members_none a k :
  ~ In k (map fst a) -> assoc k (members_of a) = None.
Proof.
  induction a as [|[k' v] a IH]; [reflexivity|].
  cbn [map fst]. intros H. cbn [members_of flat_map].
  fold (members_of a). unfold member_json at 1. cbn [fst snd].
  destruct (to_json v); cbn [app assoc].
  - destruct (String.eqb k' k) eqn:E.
    + apply String.eqb_eq in E. exfalso. apply H. now left.
    + apply IH. intros Hin. apply H. now right.
  - apply IH. intros Hin. apply H. now right.
Qed.

(** The document of the value under a key is the member of that key. *)
Lemma to_json_obj_get a k :
  NoDup (map fst a) -> to_json (obj_get a k) = assoc k (members_of a).
Proof.
  induction a as [|[k' v] a IH]; [reflexivity|].
  cbn [map fst]. intros H. inversion H as [|? ? Hk Hnd]; subst.
  cbn [obj_get members_of flat_map]. fold (members_of a).
  unfold member_json at 1. cbn [fst snd].
  destruct (String.eqb k' k) eqn:E.
  - apply String.eqb_eq in E. subst k'.
    destruct (to_json v) eqn:Ev; cbn [app assoc].
    + now rewrite String.eqb_refl.
    + symmetry. now apply assoc_members_none.
  - destruct (to_json v); cbn [app assoc]; [rewrite E|]; now apply IH.
Qed.

Lemma keys_obj_set a k v :
  In k (map fst a) -> map fst (obj_set a k v) = map fst a.
Proof.
  induction a as [|[k' v'] a IH]; [intros []|].
  cbn [map fst obj_set]. destruct (String.eqb k' k) eqn:E.
  - apply String.eqb_eq in E. now subst.
  - intros [H|H]; [apply String.eqb_neq in E; congruence|].
    cbn [map fst]. now rewrite IH.
Qed.

Lemma keys_obj_set_new a k v :
  ~ In k (map fst a) -> map fst (obj_set a k v) = (map fst a ++ [k])%list.
Proof.
  induction a as [|[k' v'] a IH]; [reflexivity|].
  cbn [map fst obj_set]. intros H.
  destruct (String.eqb k' k) eqn:E.
  - apply String.eqb_eq in E. exfalso. apply H. now left.
  - cbn [map fst app]. rewrite IH; [reflexivity|].
    intros Hin. apply H. now right.
Qed.

Lemma NoDup_obj_set a k v :
  NoDup (map fst a) -> NoDup (map fst (obj_set a k v)).
Proof.
  intros H. destruct (in_dec string_dec k (map fst a)) as [Hin|Hout].
  - now rewrite keys_obj_set.
  - rewrite keys_obj_set_new by exact Hout.
    apply NoDup_app; [exact H|repeat constructor; intros []|].
    intros x Hx [<-|[]]. contradiction.
Qed.

Lemma NoDup_obj_delete a k :
  NoDup (map fst a) -> NoDup (map fst (obj_delete a k)).
Proof.
  unfold obj_delete. induction a as [|[k' v'] a IH]; [auto|].
  cbn [map fst filter]. intros H. inversion H as [|? ? Hk Hnd]; subst.
  destruct (negb (String.eqb k' k)); [|now apply IH].
  cbn [map fst]. constructor; [|now apply IH].
  intros Hin. apply Hk. apply in_map_iff in Hin.
  destruct Hin as ([k2 v2] & Hf & Hin). apply filter_In in Hin.
  apply in_map_iff. exists (k2, v2). tauto.
Qed.

Lemma NoDup_write_value a k v :
  NoDup (map fst a) -> NoDup (map fst (write_value a k v)).
Proof.
  intros H. unfold write_value.
  destruct (negb (is_undefined v)); [now apply NoDup_obj_set|].
  destruct (negb (is_undefined (obj_get a k))); [|exact H].
  now apply NoDup_obj_delete.
Qed.






Lemma find_update_first_other (q p : Row -> bool) f rows :
  (forall x, q (f x) = q x) ->
  match find q (update_first p f rows) with Some _ => true | None => false
  end = match find q rows with Some _ => true | None => false end.
Proof.
  intros Hq. induction rows as [|x rows IH]; [reflexivity|].
  cbn [update_first]. destruct (p x); cbn [find].
  - rewrite Hq. now destruct (q x).
  - destruct (q x); [reflexivity|exact IH].
Qed.

Lemma markPropertyChanged_has_row name changed s s' n :
  markPropertyChanged name changed s = Ok s' ->
  has_row s' n = has_row s n.
Proof.
  unfold markPropertyChanged, has_row.
  destruct (find_property_row _ name); [|discriminate].
  intros [= <-]. cbn [document tableContainer set_document].
  rewrite dom_rows_set_same. unfold find_property_row.
  destruct (selector_plain n); [|reflexivity].
  apply find_update_first_other. reflexivity.
Qed.

Lemma setPropertyValue_has_row s name value supress force v s' n :
  setPropertyValue name value supress force s = Ok (v, s') ->
  has_row s' n = has_row s n.
Proof.
  unfold setPropertyValue.
  set (s1 := if negb (is_undefined value) then _ else _).
  assert (H1 : has_row s1 n = has_row s n).
  { subst s1. destruct (negb (is_undefined value));
      [|destruct (negb (is_undefined (obj_read (values s) name)))];
      reflexivity. }
  clearbody s1. rewrite <- H1. clear H1.
  destruct supress; cbn [negb bind].
  - intros [= _ <-].
    destruct force; [destruct (findPropertyEditor s1 (Some name))|];
      reflexivity.
  - set (changed := is_undefined (obj_read (originalValues s1) name)
                    || negb (comparePropertyValues
                               (obj_read (originalValues s1) name) value)).
    destruct (if changed then markPropertyChanged name true s1
              else markPropertyChanged name false s1) as [s2|] eqn:Em;
      cbn [bind]; [|discriminate].
    assert (H2 : has_row s2 n = has_row s1 n).
    { destruct changed; exact (markPropertyChanged_has_row _ _ _ _ n Em). }
    rewrite <- H2. intros [= _ <-].
    destruct (onChange _); destruct force;
      try destruct (findPropertyEditor _ (Some name)); reflexivity.
Qed.

Lemma obj_set_set a k v w : obj_set (obj_set a k v) k w = obj_set a k w.
Proof.
  induction a as [|[k' v'] a IH]; cbn [obj_set].
  - now rewrite String.eqb_refl.
  - destruct (String.eqb k' k) eqn:E; cbn [obj_set];
      rewrite ?String.eqb_refl, ?E; [reflexivity|now rewrite IH].
Qed.

Lemma members_write_differs a b k v :
  NoDup (map fst a) -> NoDup (map fst b) ->
  to_json v <> to_json (obj_get b k) ->
  members_of b <> members_of (write_value a k v).
Proof.
  intros Ha Hb Hv E. apply Hv.
  rewrite (to_json_obj_get b k Hb), E.
  rewrite <- (to_json_obj_get _ k (NoDup_write_value a k v Ha)).
  now rewrite obj_get_write_same.
Qed.





(** ** More on comparePropertyValues *)

Lemma loose_eq_sym x y : loose_eq x y = loose_eq y x.
Proof.
  destruct x as [| |[|]| | | | | |], y as [| |[|]| | | | | |];
    cbv beta iota delta [loose_eq bool_to_number];
    try reflexivity;
    first [apply Z.eqb_sym | apply String.eqb_sym].
Qed.

Lemma opt_string_eqb_sym a b : opt_string_eqb a b = opt_string_eqb b a.
Proof.
  destruct a, b; simpl; try reflexivity. apply String.eqb_sym.
Qed.

Lemma opt_string_eqb_refl a : opt_string_eqb a a = true.
Proof. destruct a; simpl; [apply String.eqb_refl|reflexivity]. Qed.

(** X1: comparePropertyValues does not depend on the order of its two
    arguments. *)
Theorem X1_comparePropertyValues_symmetric :
  forall oldValue newValue,
    comparePropertyValues oldValue newValue
    = comparePropertyValues newValue oldValue.
Proof.
  intros a b. unfold comparePropertyValues.
  rewrite (opt_string_eqb_sym (JSON_stringify a)), (loose_eq_sym a).
  rewrite (andb_comm (String.eqb (typeof a) "object")).
  destruct (is_undefined a), (is_undefined b); reflexivity.
Qed.

Lemma comparePropertyValues_same v : comparePropertyValues v v = true.
Proof.
  unfold comparePropertyValues.
  destruct v as [| |b|n|s|items|fields| |f];
    cbn [is_undefined negb andb typeof String.eqb Ascii.eqb Bool.eqb];
    try apply opt_string_eqb_refl.
  - reflexivity.
  - now destruct b.
  - apply Z.eqb_refl.
  - apply String.eqb_refl.
  - apply String.eqb_refl.
Qed.

(** X2: every value of the model (undefined, null, a boolean, an integer,
    a string, an array, an object) compares as equal to itself, and a
    value that is undefined never compares as equal to one that is not,
    null included. *)
Theorem X2_comparePropertyValues_reflexive :
  forall value other,
    comparePropertyValues value value = true /\
    (other <> VUndefined ->
     comparePropertyValues VUndefined other = false /\
     comparePropertyValues other VUndefined = false).
Proof.
  intros v w. split; [apply comparePropertyValues_same|].
  intros Hw. unfold comparePropertyValues.
  assert (U : is_undefined w = false)
    by (destruct w; try reflexivity; now elim Hw).
  rewrite U. split; reflexivity.
Qed.

Lemma to_json_object v : typeof v = "object" -> to_json v <> None.
Proof. destruct v; simpl; congruence. Qed.

(** X3: two values of type object (null, arrays and objects) compare as
    equal exactly when JSON.stringify prints the same document for both:
    the same members with the same values in the same order, a member
    whose value is undefined counting as absent. *)
Theorem X3_comparePropertyValues_of_objects :
  forall oldValue newValue,
    typeof oldValue = "object" -> typeof newValue = "object" ->
    (comparePropertyValues oldValue newValue = true <->
     to_json oldValue = to_json newValue).
Proof.
  intros a b Ha Hb. unfold comparePropertyValues.
  assert (Ua : is_undefined a = false) by (destruct a; auto; discriminate).
  assert (Ub : is_undefined b = false) by (destruct b; auto; discriminate).
  rewrite Ua, Ub, Ha, Hb. cbn [negb andb].
  change (String.eqb "object" "object") with true. cbn [andb].
  rewrite !stringify_to_json.
  pose proof (to_json_object a Ha) as Na.
  pose proof (to_json_object b Hb) as Nb.
  destruct (to_json a) as [ja|], (to_json b) as [jb|]; try congruence.
  cbn [option_map opt_string_eqb]. rewrite String.eqb_eq. split.
  - intros H. now rewrite (ser_inj _ _ H).
  - now intros [= ->].
Qed.

Lemma X3_witness :
  comparePropertyValues (VObj [("a", VNum 1); ("b", VUndefined)])
                        (VObj [("a", VNum 1)]) = true.
Proof.
  apply (X3_comparePropertyValues_of_objects
           (VObj [("a", VNum 1); ("b", VUndefined)]) (VObj [("a", VNum 1)]));
    reflexivity.
Defined.

(** ** More on setPropertyValue *)

Lemma find_update_first_apart (q p : Row -> bool) f rows :
  (forall x, p x = true -> q x = false) ->
  (forall x, q (f x) = q x) ->
  find q (update_first p f rows) = find q rows.
Proof.
  intros Hpq Hq. induction rows as [|x rows IH]; [reflexivity|].
  cbn [update_first]. destruct (p x) eqn:Ep; cbn [find].
  - now rewrite Hq, (Hpq x Ep).
  - destruct (q x); [reflexivity|exact IH].
Qed.

Lemma markPropertyChanged_other name changed s s' n :
  markPropertyChanged name changed s = Ok s' -> n <> name ->
  marked_changed s' n = marked_changed s n.
Proof.
  unfold markPropertyChanged, marked_changed.
  destruct (find_property_row _ name); [|discriminate].
  intros [= <-] Hn. cbn [document tableContainer set_document].
  rewrite dom_rows_set_same. unfold find_property_row.
  destruct (selector_plain n); [|reflexivity].
  rewrite find_update_first_apart; [reflexivity| |reflexivity].
  intros x Hx. destruct (data_property x) as [d|]; [|discriminate].
  cbn [opt_eqb] in *. apply String.eqb_eq in Hx. subst d.
  apply String.eqb_neq. congruence.
Qed.

Lemma setPropertyValue_marker_other s name value supress force v s' n :
  setPropertyValue name value supress force s = Ok (v, s') -> n <> name ->
  marked_changed s' n = marked_changed s n.
Proof.
  intros H Hn. revert H. unfold setPropertyValue.
  set (s1 := if negb (is_undefined value) then _ else _).
  assert (H1 : marked_changed s1 n = marked_changed s n).
  { subst s1. destruct (negb (is_undefined value));
      [|destruct (negb (is_undefined (obj_read (values s) name)))];
      reflexivity. }
  clearbody s1. rewrite <- H1. clear H1.
  destruct supress; cbn [negb bind].
  - intros [= _ <-].
    destruct force; [destruct (findPropertyEditor s1 (Some name))|];
      reflexivity.
  - set (changed := is_undefined (obj_read (originalValues s1) name)
                    || negb (comparePropertyValues
                               (obj_read (originalValues s1) name) value)).
    destruct (if changed then markPropertyChanged name true s1
              else markPropertyChanged name false s1) as [s2|] eqn:Em;
      cbn [bind]; [|discriminate].
    assert (H2 : marked_changed s2 n = marked_changed s1 n).
    { destruct changed;
        exact (markPropertyChanged_other _ _ _ _ n Em Hn). }
    rewrite <- H2. intros [= _ <-].
    destruct (onChange _); destruct force;
      try destruct (findPropertyEditor _ (Some name)); reflexivity.
Qed.

(** X4: with the change events not suppressed, setPropertyValue leaves the
    row of the property marked as changed exactly when the original value,
    as line 532 reads it, is undefined or does not compare as equal to the
    new value; writing back an original value that is not undefined
    removes the marker, and the marker of no other property is touched. *)
Theorem X4_changed_marker_follows_the_comparison :
  forall s name value force,
    has_row s name = true ->
    exists s',
      setPropertyValue name value false force s = Ok (value, s') /\
      marked_changed s' name =
        (is_undefined (obj_read (originalValues s) name)
         || negb (comparePropertyValues (obj_read (originalValues s) name)
                    value)) /\
      (value = obj_read (originalValues s) name -> value <> VUndefined ->
       marked_changed s' name = false) /\
      (forall other, other <> name ->
                     marked_changed s' other = marked_changed s other).
Proof.
  intros s name value force Hrow.
  destruct (setPropertyValue_spec s name value false force (fun _ => Hrow))
    as (s' & Hs & _ & _ & _ & _ & _ & _ & _ & _ & Hm).
  exists s'. split; [exact Hs|]. split; [exact (Hm eq_refl)|]. split.
  - intros E Hv. rewrite (Hm eq_refl), <- E, comparePropertyValues_same.
    destruct value; try reflexivity. now elim Hv.
  - intros other Ho.
    exact (setPropertyValue_marker_other _ _ _ _ _ _ _ other Hs Ho).
Qed.

Lemma X4_witness :
  exists s',
    setPropertyValue "a" (VNum 1) false false pair_surface
      = Ok (VNum 1, s') /\
    marked_changed s' "a" = false.
Proof.
  destruct (X4_changed_marker_follows_the_comparison pair_surface "a"
              (VNum 1) false eq_refl) as (s' & H1 & _ & H2 & _).
  exists s'. split; [exact H1|]. apply H2; [reflexivity|discriminate].
Defined.

Lemma write_value_twice o k v :
  write_value (write_value o k v) k v = write_value o k v.
Proof.
  unfold write_value at 1. rewrite obj_get_write_same.
  destruct (is_undefined v) eqn:Ev; cbn [negb]; [reflexivity|].
  unfold write_value. rewrite Ev. cbn [negb]. apply obj_set_set.
Qed.

(** X5: a second call of setPropertyValue with the same name and value
    leaves the map of values, the original values and the marker of the
    row as the first call left them. *)
Theorem X5_setPropertyValue_twice :
  forall s name value force force',
    has_row s name = true ->
    exists s1 s2,
      setPropertyValue name value false force s = Ok (value, s1) /\
      setPropertyValue name value false force' s1 = Ok (value, s2) /\
      values s2 = values s1 /\
      originalValues s2 = originalValues s /\
      marked_changed s2 name = marked_changed s1 name.
Proof.
  intros s name value force force' Hrow.
  destruct (setPropertyValue_spec s name value false force (fun _ => Hrow))
    as (s1 & Hs1 & Hv1 & Ho1 & _ & _ & _ & _ & _ & _ & Hm1).
  assert (Hrow1 : has_row s1 name = true)
    by (rewrite (setPropertyValue_has_row _ _ _ _ _ _ _ name Hs1);
        exact Hrow).
  destruct (setPropertyValue_spec s1 name value false force'
              (fun _ => Hrow1))
    as (s2 & Hs2 & Hv2 & Ho2 & _ & _ & _ & _ & _ & _ & Hm2).
  exists s1, s2. split; [exact Hs1|]. split; [exact Hs2|].
  split; [rewrite Hv2, Hv1; apply write_value_twice|].
  split; [congruence|].
  now rewrite (Hm2 eq_refl), (Hm1 eq_refl), Ho1.
Qed.

Lemma X5_witness :
  exists s1 s2,
    setPropertyValue "a" VUndefined false false pair_surface
      = Ok (VUndefined, s1) /\
    setPropertyValue "a" VUndefined false true s1 = Ok (VUndefined, s2) /\
    values s2 = values s1.
Proof.
  destruct (X5_setPropertyValue_twice pair_surface "a" VUndefined false
              true eq_refl) as (s1 & s2 & H1 & H2 & H3 & _).
  exists s1, s2. auto.
Defined.

(** X6: with the change events suppressed setPropertyValue succeeds
    whether the property has a row or not, writes the map of values and
    leaves the document as it is; it calls nothing but, when the update is
    forced, updateDisplayedValue of the editor of the property. *)
Theorem X6_suppressed_write_is_silent :
  forall s name value force,
    exists s',
      setPropertyValue name value true force s = Ok (value, s') /\
      values s' = write_value (values s) name value /\
      document s' = document s /\
      log s' =
        (log s ++ (if force then
                     match findPropertyEditor s (Some name) with
                     | Some e => [EvUpdateDisplayedValue (Editor.id e) value]
                     | None => []
                     end
                   else []))%list.
Proof.
  intros s name value force. unfold setPropertyValue.
  set (s1 := if negb (is_undefined value) then _ else _).
  assert (H1 : values s1 = write_value (values s) name value /\
               document s1 = document s /\ log s1 = log s /\
               editors s1 = editors s).
  { subst s1. rewrite <- write_value_read.
    destruct (negb (is_undefined value));
      [|destruct (negb (is_undefined (obj_read (values s) name)))];
      repeat split. }
  clearbody s1. destruct H1 as (Hv & Hd & Hl & He).
  cbn [negb bind]. eexists. split; [reflexivity|].
  unfold findPropertyEditor. rewrite He.
  destruct force; [destruct (find _ (editors s))|];
    cbn [values document log add_log];
    rewrite ?List.app_nil_r, ?Hl; auto.
Qed.

(** ** More on getValues *)





Lemma getValues_frame s s' :
  values s' = values s -> parsedProperties s' = parsedProperties s ->
  editors s' = editors s ->
  externalParameterEditors s' = externalParameterEditors s ->
  getValues s' = getValues s.
Proof.
  intros Hv Hp He Hx. unfold getValues. rewrite Hp.
  assert (E : forall acc p, getValues_step s' acc p = getValues_step s acc p).
  { intros acc p.
    unfold getValues_step, getPropertyValue, findPropertyEditor,
      findExternalParameterEditor.
    now rewrite Hv, He, Hx. }
  clear Hp. generalize (@nil (string * jsval)).
  induction (parsedProperties s) as [|p items IH]; intros acc;
    cbn [fold_left]; [reflexivity|].
  now rewrite IH, E.
Qed.

(** ** What the group operations and validate leave as it is *)

Lemma same_data_refl s : same_data s s.
Proof. repeat split. Qed.

Lemma same_data_trans s1 s2 s3 :
  same_data s1 s2 -> same_data s2 s3 -> same_data s1 s3.
Proof. unfold same_data. intuition congruence. Qed.

Lemma same_data_reads s s' :
  same_data s s' ->
  getValues s' = getValues s /\ hasChanges s' = hasChanges s.
Proof.
  intros (Hv & Ho & Hp & He & Hx). split.
  - now apply getValues_frame.
  - unfold hasChanges. now rewrite Hv, Ho.
Qed.

Lemma expandOrCollapseRows_stack_data stack c d b :
  forall s, same_data s (expandOrCollapseRows_stack stack c d b s).
Proof.
  induction stack as [|x stack IH]; intros s; cbn [expandOrCollapseRows_stack].
  - apply same_data_refl.
  - destruct b; cbn [negb].
    + eapply same_data_trans; [|apply IH]. repeat split.
    + repeat split.
Qed.

Lemma run_timer_data s : same_data s (run_timer s).
Proof.
  unfold run_timer. destruct (timers s) as [|t pending].
  - apply same_data_refl.
  - eapply same_data_trans; [|apply expandOrCollapseRows_stack_data].
    repeat split.
Qed.

Lemma run_timers_data n : forall s, same_data s (run_timers n s).
Proof.
  induction n as [|n IH]; intros s; cbn [run_timers].
  - apply same_data_refl.
  - destruct (timers s); [apply same_data_refl|].
    eapply same_data_trans; [apply run_timer_data|apply IH].
Qed.

Lemma toggleGroup_data row force s s' :
  toggleGroup row force s = Ok s' -> same_data s s'.
Proof.
  unfold toggleGroup.
  destruct (dom_find_row (document s) row) as [r|]; [|discriminate].
  destruct (link_class r) as [link|]; [|discriminate].
  intros [= <-]. unfold expandOrCollapseRows.
  match goal with
  | |- context [expandOrCollapseRows_stack ?st ?c ?d ?b ?s0] =>
      pose proof (expandOrCollapseRows_stack_data st c d b s0) as H;
      set (s2 := expandOrCollapseRows_stack st c d b s0) in *
  end.
  eapply same_data_trans; [|eapply same_data_trans; [exact H|]];
    repeat split.
Qed.

Lemma expandGroupParents_loop_data groups :
  forall s s', expandGroupParents_loop groups s = Ok s' -> same_data s s'.
Proof.
  induction groups as [|g groups IH]; intros s s';
    cbn [expandGroupParents_loop].
  - intros [= <-]. apply same_data_refl.
  - destruct (GroupRows.findGroupRow (getRootTable s) g) as [row|];
      [|apply IH].
    destruct (toggleGroup (row_id row) true s) as [s1|] eqn:Et;
      cbn [bind]; [|discriminate].
    intros H. eapply same_data_trans; [|apply (IH _ _ H)].
    now apply toggleGroup_data in Et.
Qed.

Lemma validate_data s : same_data s (snd (validate s)).
Proof.
  rewrite validate_spec.
  destruct (validate_loop s (editors s)) as [r ev]. repeat split.
Qed.

(** X8: toggling a group, expanding the parents of a group, running the
    pending animation timers and validating read and write the document,
    the group manager and the log only: the result of getValues and of
    hasChanges is the same before and after. *)
Theorem X8_group_operations_keep_the_values :
  forall s,
    (forall row forceExpand s',
        toggleGroup row forceExpand s = Ok s' ->
        getValues s' = getValues s /\ hasChanges s' = hasChanges s) /\
    (forall g s',
        expandGroupParents g s = Ok s' ->
        getValues s' = getValues s /\ hasChanges s' = hasChanges s) /\
    (forall n,
        getValues (run_timers n s) = getValues s /\
        hasChanges (run_timers n s) = hasChanges s) /\
    getValues (snd (validate s)) = getValues s /\
    hasChanges (snd (validate s)) = hasChanges s.
Proof.
  intros s. split; [|split; [|split]].
  - intros row force s' H. apply same_data_reads.
    now apply toggleGroup_data in H.
  - intros g s' H. apply same_data_reads.
    now apply expandGroupParents_loop_data in H.
  - intros n. apply same_data_reads, run_timers_data.
  - apply same_data_reads, validate_data.
Qed.


Lemma X8_witness :
  exists s1,
    toggleGroup 1 false example_surface = Ok s1 /\
    getValues (run_timers 1 s1) = [("color", VStr "#fff")].
Proof.
  destruct (toggleGroup 1 false example_surface) as [s1|e] eqn:E1.
  - exists s1. split; [reflexivity|].
    destruct (X8_group_operations_keep_the_values s1) as (_ & _ & T1 & _).
    destruct (X8_group_operations_keep_the_values example_surface)
      as (G1 & _).
    rewrite (proj1 (T1 1)), (proj1 (G1 _ _ _ E1)). reflexivity.
  - vm_compute in E1. discriminate.
Defined.

Lemma X2_witness :
  comparePropertyValues VUndefined VNull = false /\
  comparePropertyValues VNull VUndefined = false.
Proof.
  apply (X2_comparePropertyValues_reflexive VNull VNull). discriminate.
Defined.

(** ** The rows that build makes *)

Lemma hasClass_addClass_mono cl c x :
  hasClass cl x = true -> hasClass (addClass cl c) x = true.
Proof.
  unfold addClass. destruct (hasClass cl c); [auto|].
  unfold hasClass. rewrite existsb_app. intros ->. reflexivity.
Qed.

Lemma applyGroupIndexAttribute_row p row g b row' :
  applyGroupIndexAttribute p row g b = Ok row' ->
  row_id row' = row_id row /\ data_property row' = data_property row /\
  has_head row' = has_head row /\ has_cell row' = has_cell row /\
  data_group_level row' = data_group_level row /\
  row_class row' = row_class row /\ link_class row' = link_class row.
Proof.
  unfold applyGroupIndexAttribute.
  destruct g as [g|]; [|discriminate].
  destruct (_ || _); destruct (GroupManager.parentGroup g);
    try discriminate; intros [= <-]; repeat split.
Qed.

Lemma buildGroupExpandControl_row s row p force g row' :
  buildGroupExpandControl s row p force g = Ok row' ->
  row_id row' = row_id row /\ data_property row' = data_property row /\
  has_head row' = has_head row /\ has_cell row' = has_cell row /\
  data_group_level row' = data_group_level row /\
  row_class row' = row_class row.
Proof.
  unfold buildGroupExpandControl.
  destruct (_ && _); [intros [= <-]; repeat split|].
  destruct g as [g|]; [|discriminate].
  intros [= <-]. destruct (link_class row); repeat split.
Qed.

Lemma buildRow_row p g s row s' :
  buildRow p g s = Ok (row, s') ->
  row_id row = nextId s /\
  data_property row
  = (if is_truthy_string (property p) then property p else None) /\
  has_head row = true /\ has_cell row = false /\
  data_group_level row = None /\
  hasClass (row_class row) (itemType p) = true.
Proof.
  unfold buildRow. intros H.
  bind_ok H; [|discriminate].
  apply applyGroupIndexAttribute_row in E.
  destruct E as (A1 & A2 & A3 & A4 & A5 & A6 & A7).
  destruct g as [g|]; [|discriminate].
  bind_ok H; [|discriminate].
  apply buildGroupExpandControl_row in E.
  destruct E as (B1 & B2 & B3 & B4 & B5 & B6).
  inversion H; subst; clear H. cbn [row_id data_property has_head has_cell
    data_group_level row_class set_row_class] in *.
  rewrite B1, B2, B4, B5, B6, A1, A2, A4, A5.
  repeat split. unfold getRowCssClass, hasClass.
  cbn [app existsb]. now rewrite String.eqb_refl.
Qed.

Lemma applyGroupLevelToRow_row row g row' :
  applyGroupLevelToRow row g = Ok row' ->
  row_id row' = row_id row /\ data_property row' = data_property row /\
  has_head row' = has_head row /\ has_cell row' = has_cell row /\
  row_class row' = row_class row /\
  (has_head row = true -> data_group_level row' <> None).
Proof.
  unfold applyGroupLevelToRow.
  destruct (data_group_level row) eqn:El.
  - intros [= <-]. repeat split. now rewrite El.
  - destruct (has_head row) eqn:Eh; [|discriminate].
    destruct g as [g|]; [|discriminate].
    intros [= <-]. repeat split; [exact Eh|]. intros _. discriminate.
Qed.

Lemma buildEditor_row ns row p g s row' s' :
  buildEditor ns row p g s = Ok (row', s') ->
  row_id row' = row_id row /\ data_property row' = data_property row /\
  has_head row' = has_head row /\
  data_group_level row' = data_group_level row /\
  (forall c, hasClass (row_class row) c = true ->
             hasClass (row_class row') c = true) /\
  (has_cell row = false -> has_cell row' = true ->
   is_property_item p = true) /\
  nextId s' = (if is_property_item p then S (nextId s) else nextId s).
Proof.
  unfold buildEditor, is_property_item.
  destruct (String.eqb (itemType p) "property"); cbn [negb].
  - intros H. bind_ok H; [|discriminate].
    destruct (lookup_class _ _) as [cls|]; [|discriminate].
    destruct g as [g|]; [|discriminate].
    bind_ok H; [|discriminate]. inversion H; subst; clear H.
    cbn [nextId set_editors set_nextId].
    destruct (Editor.isGroupedEditor _).
    + bind_ok E0; [|discriminate]. bind_ok E0; [|discriminate].
      apply applyGroupIndexAttribute_row in E1.
      destruct E1 as (A1 & A2 & A3 & A4 & A5 & A6 & A7).
      apply buildGroupExpandControl_row in E2.
      destruct E2 as (B1 & B2 & B3 & B4 & B5 & B6).
      cbn [row_id data_property has_head has_cell data_group_level
             row_class set_row_class set_has_cell] in *.
      assert (K : row_id row' = row_id row /\
                  data_property row' = data_property row /\
                  has_head row' = has_head row /\
                  data_group_level row' = data_group_level row /\
                  row_class row'
                  = addClass (row_class row) "control-group").
      { destruct (Editor.cellIsEmpty _); inversion E0; subst;
          cbn [row_id data_property has_head data_group_level row_class
                 set_has_cell];
          rewrite ?B1, ?B2, ?B3, ?B5, ?B6, ?A1, ?A2, ?A3, ?A5, ?A6;
          repeat split. }
      destruct K as (K1 & K2 & K3 & K4 & K5).
      rewrite K1, K2, K3, K4, K5. repeat split.
      intros c. apply hasClass_addClass_mono.
    + inversion E0; subst. repeat split. auto.
  - intros [= <- <-]. repeat split; [auto|congruence].
Qed.

Lemma build_item_steps ns cg tbody s p :
  exists cg1 s1,
    nextId s1 = nextId s /\ tableContainer s1 = tableContainer s /\
    build_item ns (cg, tbody, s) p =
      (rs <- buildRow p cg1 s1 ;;
       let (row, s2) := rs in
       row <- (if String.eqb (itemType p) "group" then
                 applyGroupLevelToRow row
                   (match cg1 with
                    | Some g => GroupManager.parentGroup g
                    | None => None
                    end)
               else applyGroupLevelToRow row cg1) ;;
       rs <- buildEditor ns row p cg1 s2 ;;
       let (row, s3) := rs in
       Ok (cg1, (tbody ++ [row])%list, s3)).
Proof.
  unfold build_item.
  destruct (String.eqb (itemType p) "group").
  - destruct (GroupManager.createGroup _ _ _) as [g m].
    exists (Some g), (set_groupManager s m). repeat split.
  - destruct (groupIndex p).
    + exists cg, s. repeat split.
    + exists (group s), s. repeat split.
Qed.

Lemma buildEditor_container ns row p g s row' s' :
  buildEditor ns row p g s = Ok (row', s') ->
  tableContainer s' = tableContainer s.
Proof.
  intros H. apply buildEditor_ok in H.
  destruct H as [[_ ->]|(_ & _ & cls & g' & ->)]; reflexivity.
Qed.

Lemma build_item_row ns cg tbody s p cg' tbody' s' :
  build_item ns (cg, tbody, s) p = Ok (cg', tbody', s') ->
  exists row,
    tbody' = (tbody ++ [row])%list /\ row_id row = nextId s /\
    built_row p row /\ nextId s < nextId s' /\
    tableContainer s' = tableContainer s.
Proof.
  destruct (build_item_steps ns cg tbody s p) as (cg1 & s1 & Hn & Ht & ->).
  intros H.
  bind_case H E1; [|discriminate].
  destruct a as [row s2].
  pose proof (buildRow_ok _ _ _ _ _ E1) as Hs2.
  apply buildRow_row in E1.
  destruct E1 as (R1 & R2 & R3 & R4 & R5 & R6).
  bind_case H E2; [|discriminate].
  assert (L : row_id a = row_id row /\
              data_property a = data_property row /\
              has_head a = has_head row /\ has_cell a = has_cell row /\
              row_class a = row_class row /\
              (has_head row = true -> data_group_level a <> None))
    by (destruct (String.eqb (itemType p) "group");
        now apply applyGroupLevelToRow_row in E2).
  destruct L as (L1 & L2 & L3 & L4 & L5 & L6).
  bind_case H E3; [|discriminate].
  destruct a0 as [row' s3]. inversion H; subst cg' tbody' s'; clear H.
  pose proof (buildEditor_container _ _ _ _ _ _ _ E3) as Hc.
  apply buildEditor_row in E3.
  destruct E3 as (B1 & B2 & B3 & B4 & B5 & B6 & B7).
  exists row'. split; [reflexivity|].
  split; [rewrite B1, L1, R1; exact Hn|].
  split.
  - unfold built_row. rewrite B2, L2, R2, B3, L3, R3, B4.
    split; [reflexivity|]. split; [reflexivity|].
    split; [exact (L6 R3)|].
    split; [apply B5; rewrite L5; exact R6|].
    apply B6. now rewrite L4.
  - rewrite B7, Hc, Hs2. cbn [nextId tableContainer set_nextId].
    rewrite Hn, Ht. split; [destruct (is_property_item p); lia|reflexivity].
Qed.

Lemma build_loop_rows ns items :
  forall cg tbody s cg' tbody' s',
    build_loop ns items (cg, tbody, s) = Ok (cg', tbody', s') ->
    exists rows,
      tbody' = (tbody ++ rows)%list /\
      Forall2 built_row items rows /\
      (forall id, In id (row_ids rows) -> nextId s <= id < nextId s') /\
      NoDup (row_ids rows) /\
      nextId s <= nextId s' /\
      tableContainer s' = tableContainer s.
Proof.
  induction items as [|p items IH]; intros cg tbody s cg' tbody' s';
    cbn [build_loop].
  - intros [= <- <- <-]. exists []. rewrite List.app_nil_r.
    split; [reflexivity|]. split; [constructor|].
    split; [intros id []|]. split; [constructor|]. split; [lia|reflexivity].
  - intros H. bind_case H E; [|discriminate].
    destruct a as [[cg1 tbody1] s1].
    apply build_item_row in E.
    destruct E as (row & -> & Hid & Hrow & Hn & Ht).
    apply IH in H.
    destruct H as (rows & -> & Hall & Hids & Hnd & Hn' & Ht').
    exists (row :: rows). rewrite <- List.app_assoc.
    split; [reflexivity|]. split; [now constructor|].
    split; [|split; [|split; [lia|congruence]]].
    + intros id [<-|Hin]; [lia|]. apply Hids in Hin. lia.
    + cbn [row_ids map]. constructor; [|exact Hnd].
      intros Hin. apply Hids in Hin. lia.
Qed.

Lemma buildExternalParameterEditor_document ns rows :
  forall s,
    document (buildExternalParameterEditor ns rows s) = document s /\
    tableContainer (buildExternalParameterEditor ns rows s)
    = tableContainer s.
Proof.
  induction rows as [|row rows IH]; intros s;
    cbn [buildExternalParameterEditor]; [now split|].
  destruct (_ || _); [apply IH|].
  destruct (match findPropertyEditor s (data_property row) with
            | Some _ => _ | None => _ end); [apply IH|].
  match goal with
  | |- context [buildExternalParameterEditor ns rows ?s1] =>
      destruct (IH s1) as (H1 & H2)
  end.
  rewrite H1, H2. now split.
Qed.

Lemma build_rows ns s s' :
  build ns s = Ok s' ->
  Forall2 built_row (parsedProperties s)
    (dom_rows (document s') (tableContainer s')) /\
  NoDup (row_ids (dom_rows (document s') (tableContainer s'))) /\
  tableContainer s' = nextId s.
Proof.
  unfold build. intros H.
  bind_case H E; [|discriminate].
  destruct a as [[cg tbody] s1].
  apply build_loop_rows in E.
  destruct E as (rows & Ht & Hall & _ & Hnd & _ & Hc).
  cbn [app tableContainer parsedProperties set_tableContainer set_nextId]
    in Ht, Hall, Hc.
  subst tbody.
  set (s2 := set_document s1 _) in H.
  assert (F : dom_rows (document s2) (tableContainer s2) = rows /\
              tableContainer s2 = nextId s).
  { subst s2. cbn [document tableContainer set_document].
    rewrite Hc. split; [apply dom_rows_set_same|reflexivity]. }
  clearbody s2. destruct F as (F1 & F2).
  set (s3 := if enableExternalParameterEditor _ then _ else s2) in H.
  assert (G : document s3 = document s2 /\
              tableContainer s3 = tableContainer s2).
  { subst s3. destruct (enableExternalParameterEditor _); [|now split].
    apply buildExternalParameterEditor_document. }
  clearbody s3. destruct G as (G1 & G2).
  assert (K : document s' = document s3 /\
              tableContainer s' = tableContainer s3)
    by (inversion H; destruct (parentSurface s3); now split).
  destruct K as (K1 & K2).
  rewrite K1, K2, G1, G2, F1, F2. auto.
Qed.

Lemma new_Surface_build ns props vals uid opts parent grp :
  exists s0,
    new_Surface ns props vals (Some uid) opts parent grp = build ns s0 /\
    parsedProperties s0 = fst props.
Proof.
  destruct (new_Surface_model ns props vals uid opts parent grp)
    as (s0 & H & H1 & _).
  now exists s0.
Qed.

Lemma built_rows_find items rows :
  Forall2 built_row items rows ->
  forall p name,
    In p items -> property p = Some name -> name <> "" ->
    selector_plain name = true ->
    find_property_row rows name <> None.
Proof.
  unfold find_property_row.
  induction 1 as [|q row items rows Hq _ IH]; intros p name Hin Hp Hn Hs;
    [destruct Hin|].
  specialize (IH p name). rewrite Hs in *.
  cbn [find].
  destruct (opt_eqb (data_property row) (Some name)) eqn:E;
    [discriminate|].
  destruct Hin as [->|Hin]; [|now apply IH].
  destruct Hq as (Hd & _). rewrite Hp in Hd.
  assert (T : is_truthy_string (Some name) = true)
    by (destruct name; [now elim Hn|reflexivity]).
  rewrite T in Hd. rewrite Hd in E. cbn [opt_eqb] in E.
  now rewrite String.eqb_refl in E.
Qed.

(** X9: the constructor builds one row for each item of the schema, in
    the order of the schema: the row carries the name of its item, a head
    cell, a group level and the type of the item as a class, and the rows
    are different nodes.  Hence every item whose name is not empty and
    stands for itself in a selector (it has no double quote, backslash,
    line break or null character) has a row that the selector of
    markPropertyChanged finds, and setPropertyValue on it succeeds, with
    or without change events. *)
Theorem X9_constructor_builds_a_row_for_each_item :
  forall ns props vals uid opts parent grp s,
    new_Surface ns props vals uid opts parent grp = Ok s ->
    Forall2 built_row (fst props)
      (dom_rows (document s) (tableContainer s)) /\
    NoDup (row_ids (dom_rows (document s) (tableContainer s))) /\
    (forall p name,
        In p (fst props) -> property p = Some name -> name <> "" ->
        selector_plain name = true ->
        has_row s name = true /\
        forall value supress force,
          exists s', setPropertyValue name value supress force s
                     = Ok (value, s')).
Proof.
  intros ns props vals [uid|] opts parent grp s H; [|discriminate].
  destruct (new_Surface_build ns props vals uid opts parent grp)
    as (s0 & E & Hp).
  rewrite E in H. apply build_rows in H. rewrite Hp in H.
  destruct H as (Hall & Hnd & _).
  split; [exact Hall|]. split; [exact Hnd|].
  intros p name Hin Hn Hne Hplain.
  assert (Hrow : has_row s name = true).
  { unfold has_row.
    pose proof (built_rows_find _ _ Hall p name Hin Hn Hne Hplain) as F.
    now destruct (find_property_row _ name). }
  split; [exact Hrow|].
  intros value supress force.
  destruct (setPropertyValue_spec s name value supress force
              (fun _ => Hrow)) as (s' & Hs & _).
  now exists s'.
Qed.

Lemma X9_witness :
  has_row example_surface "color" = true /\
  map data_property
    (dom_rows (document example_surface) (tableContainer example_surface))
  = [None; Some "color"].
Proof.
  assert (H : new_Surface example_namespace (example_schema, true)
                (Some []) (Some "inspector") DEFAULTS None None
              = Ok example_surface) by (vm_compute; reflexivity).
  destruct (X9_constructor_builds_a_row_for_each_item _ _ _ _ _ _ _ _ H)
    as (_ & _ & Hrow).
  split; [|reflexivity].
  apply (Hrow (mkProperty (Some "color") "property" (Some "1") "" None
                 (Some "string") (VStr "#fff") false) "color");
    [right; left; reflexivity|reflexivity|discriminate|reflexivity].
Defined.

(** ** When the constructor succeeds *)

Lemma buildRow_progress p g s :
  (String.eqb (itemType p) "group" = true ->
   GroupManager.parentGroup g <> None) ->
  exists row, buildRow p (Some g) s = Ok (row, set_nextId s (S (nextId s))).
Proof.
  intros Hg. unfold buildRow, applyGroupIndexAttribute.
  rewrite orb_false_r.
  destruct (String.eqb (itemType p) "group") eqn:Eg.
  - destruct (GroupManager.parentGroup g) as [pg|];
      [|now elim (Hg eq_refl)].
    cbn [bind]. unfold buildGroupExpandControl. rewrite Eg.
    cbn [negb andb bind]. eexists. reflexivity.
  - destruct (GroupManager.parentGroup g) as [pg|]; cbn [bind];
      unfold buildGroupExpandControl; rewrite Eg; cbn [negb andb bind];
      eexists; reflexivity.
Qed.

Lemma applyGroupLevelToRow_progress row g :
  has_head row = true ->
  exists row', applyGroupLevelToRow row (Some g) = Ok row'.
Proof.
  intros Hh. unfold applyGroupLevelToRow.
  destruct (data_group_level row); [now eexists|].
  rewrite Hh. now eexists.
Qed.

Lemma buildEditor_progress ns row p g s :
  (is_property_item p = true ->
   exists cls,
     lookup_class (propertyEditors ns) (editor_type (type p)) = Some cls /\
     (Editor.isGroupedEditor (cls p g) = true ->
      exists i pg, Editor.group (cls p g) = Some (mkGroup i (Some pg)))) ->
  exists row' s',
    buildEditor ns row p (Some g) s = Ok (row', s') /\ group s' = group s.
Proof.
  unfold buildEditor, is_property_item, validateEditorType.
  destruct (String.eqb (itemType p) "property"); cbn [negb];
    [|intros _; now exists row, s].
  intros H. destruct (H eq_refl) as (cls & -> & Hgr). cbn [bind].
  unfold Editor.create at 1. cbn [Editor.isGroupedEditor].
  destruct (Editor.isGroupedEditor (cls p g)); [|eexists; eexists; now split].
  destruct (Hgr eq_refl) as (i & pg & Eg).
  unfold Editor.create at 1 2. cbn [Editor.group]. rewrite Eg.
  unfold applyGroupIndexAttribute. rewrite orb_true_r.
  cbn [GroupManager.parentGroup bind].
  unfold buildGroupExpandControl. rewrite andb_false_r. cbn [bind].
  eexists. eexists. now split.
Qed.

Lemma build_item_progress ns cg tbody s p g0 gs :
  cg = Some g0 -> group s = Some gs ->
  (is_property_item p = true ->
   exists cls,
     lookup_class (propertyEditors ns) (editor_type (type p)) = Some cls /\
     forall g,
       Editor.isGroupedEditor (cls p g) = true ->
       exists i pg, Editor.group (cls p g) = Some (mkGroup i (Some pg))) ->
  exists g1 tbody' s',
    build_item ns (cg, tbody, s) p = Ok (Some g1, tbody', s') /\
    group s' = group s.
Proof.
  intros -> Hgs Hp. unfold build_item.
  assert (Main : forall g1 s1,
    group s1 = group s ->
    (String.eqb (itemType p) "group" = true ->
     GroupManager.parentGroup g1 = group s) ->
    exists tbody' s',
      (rs <- buildRow p (Some g1) s1 ;;
       let (row, s2) := rs in
       row <- (if String.eqb (itemType p) "group" then
                 applyGroupLevelToRow row (GroupManager.parentGroup g1)
               else applyGroupLevelToRow row (Some g1)) ;;
       rs <- buildEditor ns row p (Some g1) s2 ;;
       let (row, s3) := rs in
       Ok (Some g1, (tbody ++ [row])%list, s3))
      = Ok (Some g1, tbody', s') /\ group s' = group s).
  { intros g1 s1 Hg1 Hpar.
    destruct (buildRow_progress p g1 s1) as (row & Hrow).
    { intros E. rewrite (Hpar E), Hgs. discriminate. }
    rewrite Hrow. cbn [bind].
    apply buildRow_row in Hrow. destruct Hrow as (_ & _ & Hh & _).
    assert (L : exists row',
      (if String.eqb (itemType p) "group" then
         applyGroupLevelToRow row (GroupManager.parentGroup g1)
       else applyGroupLevelToRow row (Some g1)) = Ok row').
    { destruct (String.eqb (itemType p) "group") eqn:Eg.
      - rewrite (Hpar eq_refl), Hgs.
        now apply applyGroupLevelToRow_progress.
      - now apply applyGroupLevelToRow_progress. }
    destruct L as (row' & ->). cbn [bind].
    destruct (buildEditor_progress ns row' p g1
                (set_nextId s1 (S (nextId s1))))
      as (row'' & s3 & -> & Hg3).
    { intros E. destruct (Hp E) as (cls & Hc & Hgr).
      exists cls. split; [exact Hc|apply Hgr]. }
    cbn [bind]. eexists. eexists. split; [reflexivity|].
    rewrite Hg3. exact Hg1. }
  destruct (String.eqb (itemType p) "group") eqn:Eg.
  - unfold GroupManager.createGroup.
    match goal with
    | |- context [buildRow p (Some ?g) ?s1] =>
        destruct (Main g s1 eq_refl (fun _ => eq_refl))
          as (tbody' & s' & H & Hg)
    end.
    eexists. eexists. eexists. split; [exact H|exact Hg].
  - destruct (groupIndex p).
    + destruct (Main g0 s eq_refl) as (tbody' & s' & H & Hg);
        [discriminate|].
      eexists. eexists. eexists. split; [exact H|exact Hg].
    + rewrite Hgs.
      destruct (Main gs s eq_refl) as (tbody' & s' & H & Hg);
        [discriminate|].
      eexists. eexists. eexists. split; [exact H|congruence].
Qed.

Lemma build_loop_progress ns items :
  forall cg tbody s g0 gs,
    cg = Some g0 -> group s = Some gs ->
    (forall p, In p items -> is_property_item p = true ->
       exists cls,
         lookup_class (propertyEditors ns) (editor_type (type p))
         = Some cls /\
         forall g,
           Editor.isGroupedEditor (cls p g) = true ->
           exists i pg, Editor.group (cls p g) = Some (mkGroup i (Some pg)))
    ->
    exists acc, build_loop ns items (cg, tbody, s) = Ok acc.
Proof.
  induction items as [|p items IH]; intros cg tbody s g0 gs Hcg Hgs Hall;
    cbn [build_loop]; [now eexists|].
  destruct (build_item_progress ns cg tbody s p g0 gs Hcg Hgs)
    as (g1 & tbody' & s' & -> & Hg').
  { apply Hall. now left. }
  cbn [bind]. apply (IH _ _ _ g1 gs); [reflexivity|congruence|].
  intros q Hq. apply Hall. now right.
Qed.

Lemma build_progress ns s gs :
  group s = Some gs ->
  (forall p, In p (parsedProperties s) -> is_property_item p = true ->
     exists cls,
       lookup_class (propertyEditors ns) (editor_type (type p)) = Some cls /\
       forall g,
         Editor.isGroupedEditor (cls p g) = true ->
         exists i pg, Editor.group (cls p g) = Some (mkGroup i (Some pg)))
  ->
  exists s', build ns s = Ok s'.
Proof.
  intros Hgs Hall. unfold build.
  match goal with
  | |- context [build_loop ns ?items (?cg, ?tb, ?s1)] =>
      destruct (build_loop_progress ns items cg tb s1 gs gs Hgs Hgs Hall)
        as ([[cg' tbody'] s'] & ->)
  end.
  cbn [bind]. now eexists.
Qed.

Lemma new_Surface_start ns props vals uid opts parent grp :
  parent = None \/ grp <> None ->
  exists s0 gs,
    new_Surface ns props vals (Some uid) opts parent grp = build ns s0 /\
    parsedProperties s0 = fst props /\ group s0 = Some gs.
Proof.
  intros H. unfold new_Surface, init.
  destruct parent as [parent|].
  - destruct H as [H|H]; [discriminate|].
    destruct grp as [g|]; [|now elim H].
    eexists. exists g. cbn [parentSurface group]. repeat split.
  - destruct grp as [g|]; cbn [parentSurface group].
    + eexists. exists g. repeat split.
    + unfold GroupManager.createGroup. eexists. eexists. repeat split.
Qed.

(** X10: the constructor of a root surface, or of a nested surface that is
    given its group, succeeds exactly when the unique identifier is given
    and the editor class of every property of the schema is registered
    (an editor that declares itself grouped having a group under a parent
    group): nothing else in the schema or in the values makes it throw. *)
Theorem X10_constructor_succeeds_exactly_when_classes_are_registered :
  forall ns props vals uid opts parent grp,
    parent = None \/ grp <> None ->
    (forall p cls g,
        In p (fst props) -> is_property_item p = true ->
        lookup_class (propertyEditors ns) (editor_type (type p)) = Some cls ->
        Editor.isGroupedEditor (cls p g) = true ->
        exists i pg, Editor.group (cls p g) = Some (mkGroup i (Some pg))) ->
    ((exists s, new_Surface ns props vals uid opts parent grp = Ok s) <->
     uid <> None /\
     forall p, In p (fst props) -> is_property_item p = true ->
               registered ns p = true).
Proof.
  intros ns props vals uid opts parent grp Hroot Hgrouped. split.
  - intros (s & H). destruct uid as [uid|]; [|discriminate].
    split; [discriminate|]. now apply new_Surface_ok in H.
  - intros (Hu & Hreg). destruct uid as [uid|]; [|now elim Hu].
    destruct (new_Surface_start ns props vals uid opts parent grp Hroot)
      as (s0 & gs & -> & Hp & Hg).
    apply (build_progress ns s0 gs Hg). rewrite Hp.
    intros p Hin Hitem. specialize (Hreg p Hin Hitem).
    unfold registered in Hreg.
    destruct (lookup_class _ _) as [cls|] eqn:E; [|discriminate].
    exists cls. split; [reflexivity|].
    intros g. now apply Hgrouped.
Qed.

Lemma X10_witness :
  exists s,
    new_Surface example_namespace (example_schema, true) (Some [])
      (Some "inspector") DEFAULTS None None = Ok s.
Proof.
  apply (X10_constructor_succeeds_exactly_when_classes_are_registered
           example_namespace (example_schema, true) (Some [])
           (Some "inspector") DEFAULTS None None).
  - now left.
  - intros p cls g [<-|[<-|[]]] Hp; [discriminate|].
    intros [= <-]. discriminate.
  - split; [discriminate|].
    intros p [<-|[<-|[]]] Hp; [discriminate|reflexivity].
Defined.

(** ** The external parameter editors *)

Lemma buildExternalParameterEditor_spec ns rows :
  forall s s0,
    editors s = editors s0 -> parsedProperties s = parsedProperties s0 ->
    map (ExternalParameterEditor.with_id 0)
      (externalParameterEditors (buildExternalParameterEditor ns rows s))
    = (map (ExternalParameterEditor.with_id 0) (externalParameterEditors s)
       ++ map (external_editor_of ns s0)
              (filter (wants_external_editor s0) rows))%list.
Proof.
  induction rows as [|row rows IH]; intros s s0 He Hp;
    cbn [buildExternalParameterEditor filter map].
  - now rewrite List.app_nil_r.
  - unfold wants_external_editor at 1. unfold findPropertyEditor.
    rewrite He.
    destruct (_ || _); cbn [negb andb]; [now apply IH|].
    destruct (match find _ (editors s0) with
              | Some _ => _ | None => _ end); cbn [negb];
      [now apply IH|].
    rewrite (IH _ s0) by assumption.
    cbn [externalParameterEditors set_nextId set_externalParameterEditors
           map].
    rewrite map_app, <- List.app_assoc. cbn [map app].
    unfold external_editor_of at 2. unfold findPropertyDefinition. rewrite Hp.
    reflexivity.
Qed.

Lemma wants_external_editor_frame s s' :
  editors s' = editors s ->
  forall rows,
    filter (wants_external_editor s') rows
    = filter (wants_external_editor s) rows.
Proof.
  intros He rows. apply filter_ext. intros row.
  unfold wants_external_editor, findPropertyEditor. now rewrite He.
Qed.

Lemma external_editor_of_frame ns s s' :
  parsedProperties s' = parsedProperties s ->
  forall rows,
    map (external_editor_of ns s') rows = map (external_editor_of ns s) rows.
Proof.
  intros Hp rows. apply map_ext. intros row.
  unfold external_editor_of, findPropertyDefinition. now rewrite Hp.
Qed.

Lemma build_external ns s s' :
  build ns s = Ok s' ->
  externalParameterEditors s = [] ->
  map (ExternalParameterEditor.with_id 0) (externalParameterEditors s')
  = if enableExternalParameterEditor (options s) then
      map (external_editor_of ns s')
          (filter (wants_external_editor s')
                  (dom_rows (document s') (tableContainer s')))
    else [].
Proof.
  unfold build. intros H Hx.
  bind_case H E; [|discriminate].
  destruct a as [[cg tbody] s1].
  pose proof (build_loop_ok _ _ _ _ _ _ _ _ E) as (M & _ & _).
  destruct M as (M1 & _ & _ & M4 & _ & M6).
  apply build_loop_rows in E.
  destruct E as (rows & Ht & _ & _ & _ & _ & Hc).
  cbn [app tableContainer parsedProperties set_tableContainer set_nextId
         options externalParameterEditors] in Ht, Hc, M1, M4, M6.
  subst tbody.
  set (s2 := set_document s1 _) in H.
  assert (F : dom_rows (document s2) (tableContainer s2) = rows /\
              externalParameterEditors s2 = [] /\
              options s2 = options s).
  { subst s2. cbn [document tableContainer set_document
                     externalParameterEditors options].
    rewrite Hc, M4, M6, Hx.
    split; [apply dom_rows_set_same|now split]. }
  clearbody s2. destruct F as (F1 & F2 & F3).
  try rewrite F3 in H. try rewrite M4 in H.
  assert (K : forall s3,
            document s3 = document s2 ->
            tableContainer s3 = tableContainer s2 ->
            editors s3 = editors s2 ->
            parsedProperties s3 = parsedProperties s2 ->
            Ok (match parentSurface s3 with
                | None => focusFirstEditor s3
                | Some _ => s3
                end) = Ok s' ->
            dom_rows (document s') (tableContainer s') = rows /\
            editors s' = editors s2 /\
            parsedProperties s' = parsedProperties s2 /\
            externalParameterEditors s' = externalParameterEditors s3).
  { intros s3 K1 K2 K3 K4 [= <-].
    destruct (parentSurface s3);
      cbn [focusFirstEditor add_log document tableContainer editors
             parsedProperties externalParameterEditors];
      rewrite K1, K2, F1; auto. }
  destruct (enableExternalParameterEditor (options s)).
  - destruct (buildExternalParameterEditor_frame ns rows s2)
      as (B1 & _ & _ & _ & _ & B6).
    destruct (buildExternalParameterEditor_document ns rows s2)
      as (D1 & D2).
    destruct (K _ D1 D2 B6 B1 H) as (R1 & R2 & R3 & R4).
    rewrite R4, R1.
    rewrite (buildExternalParameterEditor_spec ns rows s2 s2 eq_refl eq_refl).
    rewrite F2. cbn [map app].
    now rewrite (wants_external_editor_frame s2 s' R2),
      (external_editor_of_frame ns s2 s' R3).
  - destruct (K s2 eq_refl eq_refl eq_refl eq_refl H) as (_ & _ & _ & R4).
    now rewrite R4, F2.
Qed.

Lemma new_Surface_external ns props vals uid opts parent grp :
  exists s0,
    new_Surface ns props vals (Some uid) opts parent grp = build ns s0 /\
    externalParameterEditors s0 = [] /\ options s0 = opts.
Proof.
  unfold new_Surface, init.
  destruct parent as [parent|]; cbn [parentSurface group].
  - eexists. repeat split.
  - destruct grp as [g|].
    + eexists. repeat split.
    + unfold GroupManager.createGroup. eexists. repeat split.
Qed.

(** X11: a surface whose options do not enable the external parameter
    editors (the default) is built with none, so that none is ever
    visible.  With the option enabled, the constructor makes one external
    parameter editor for each row that carries a property name, has no
    class no-external-parameter and whose property editor, if it has
    one, supports external parameters, in the order of the rows, each
    for the definition that findPropertyDefinition gives for the row. *)
Theorem X11_external_parameter_editors_of_a_built_surface :
  forall ns props vals uid opts parent grp s,
    new_Surface ns props vals uid opts parent grp = Ok s ->
    (enableExternalParameterEditor opts = false ->
     externalParameterEditors s = [] /\
     forall name, external_visible s name = false) /\
    (enableExternalParameterEditor opts = true ->
     map (ExternalParameterEditor.with_id 0) (externalParameterEditors s)
     = map (external_editor_of ns s)
           (filter (wants_external_editor s)
                   (dom_rows (document s) (tableContainer s)))).
Proof.
  intros ns props vals [uid|] opts parent grp s H; [|discriminate].
  destruct (new_Surface_external ns props vals uid opts parent grp)
    as (s0 & E & Hx & Ho).
  rewrite E in H. apply build_external in H; [|exact Hx].
  rewrite Ho in H. split.
  - intros Hoff. rewrite Hoff in H.
    assert (Hnone : externalParameterEditors s = [])
      by (destruct (externalParameterEditors s); [reflexivity|discriminate]).
    split; [exact Hnone|].
    intros name. unfold external_visible.
    now rewrite Hnone.
  - intros Hon. now rewrite Hon in H.
Qed.

Lemma X11_witness :
  externalParameterEditors example_surface = [] /\
  external_visible example_surface (Some "color") = false.
Proof.
  assert (H : new_Surface example_namespace (example_schema, true)
                (Some []) (Some "inspector") DEFAULTS None None
              = Ok example_surface) by (vm_compute; reflexivity).
  destruct (X11_external_parameter_editors_of_a_built_surface
              _ _ _ _ _ _ _ _ H) as (Hoff & _).
  destruct (Hoff eq_refl) as (H1 & H2).
  split; [exact H1|apply H2].
Defined.

(** ** focusFirstEditor *)

Lemma focusFirstEditor_loop_none s eds :
  forallb (fun e => negb (in_expanded_group s e)) eds = true ->
  focusFirstEditor_loop s eds = [].
Proof.
  induction eds as [|e eds IH]; cbn [forallb focusFirstEditor_loop];
    [reflexivity|].
  intros H. apply andb_true_iff in H. destruct H as (He & Hr).
  unfold in_expanded_group in He.
  destruct (Editor.parentGroup e) as [g|]; [|discriminate].
  rewrite He. now apply IH.
Qed.

Lemma focusFirstEditor_loop_first s before e after :
  forallb (fun e => negb (in_expanded_group s e)) before = true ->
  in_expanded_group s e = true ->
  focusFirstEditor_loop s (before ++ e :: after) = [focus_call s e].
Proof.
  intros Hb He.
  induction before as [|x before IH]; cbn [app focusFirstEditor_loop].
  - unfold in_expanded_group in He. unfold focus_call.
    destruct (Editor.parentGroup e) as [g|]; [rewrite He|]; cbn [negb];
      destruct (findExternalParameterEditor s _) as [x|];
      try destruct (ExternalParameterEditor.isEditorVisible x);
      reflexivity.
  - cbn [forallb] in Hb. apply andb_true_iff in Hb. destruct Hb as (Hx & Hr).
    unfold in_expanded_group in Hx.
    destruct (Editor.parentGroup x) as [g|]; [|discriminate].
    rewrite Hx. cbn [negb]. now apply IH.
Qed.

(** X12: on a root surface (the surface that has the group manager and
    registers the handler) focusFirstEditor gives the focus to one editor
    at most: the first editor of the surface that is not under a
    collapsed group, or the external parameter editor of its property
    when that one is visible.  When the surface has no editor, or all of
    them are under collapsed groups, it calls nothing.  It changes
    nothing but the focus. *)
Theorem X12_focusFirstEditor_focuses_the_first_editor_in_view :
  forall s,
    parentSurface s = None ->
    (forallb (fun e => negb (in_expanded_group s e)) (editors s) = true ->
     log (focusFirstEditor s) = log s) /\
    (forall before editor after,
        editors s = (before ++ editor :: after)%list ->
        forallb (fun e => negb (in_expanded_group s e)) before = true ->
        in_expanded_group s editor = true ->
        log (focusFirstEditor s) = (log s ++ [focus_call s editor])%list) /\
    same_data s (focusFirstEditor s) /\
    document (focusFirstEditor s) = document s /\
    groupManager (focusFirstEditor s) = groupManager s.
Proof.
  intros s _. unfold focusFirstEditor. cbn [log add_log]. split; [|split].
  - intros H. rewrite (focusFirstEditor_loop_none s _ H).
    apply List.app_nil_r.
  - intros before e after -> Hb He.
    now rewrite (focusFirstEditor_loop_first s before e after Hb He).
  - repeat split.
Qed.

Lemma X12_witness :
  log (focusFirstEditor example_surface)
  = (log example_surface ++ [EvFocus 3])%list.
Proof.
  destruct (X12_focusFirstEditor_focuses_the_first_editor_in_view
              example_surface eq_refl) as (_ & H & _).
  exact (H [] _ [] eq_refl eq_refl eq_refl).
Defined.

(** ** The rows after expandOrCollapseRows *)

Lemma hasClass_addClass_other cl c x :
  x <> c -> hasClass (addClass cl c) x = hasClass cl x.
Proof.
  intros Hx. unfold addClass. destruct (hasClass cl c); [reflexivity|].
  unfold hasClass. rewrite existsb_app. cbn [existsb].
  apply String.eqb_neq in Hx. rewrite Hx. now rewrite !orb_false_r.
Qed.

Lemma hasClass_removeClass_other cl c x :
  x <> c -> hasClass (removeClass cl c) x = hasClass cl x.
Proof.
  intros Hx. unfold hasClass, removeClass.
  induction cl as [|y cl IH]; [reflexivity|]. cbn [filter existsb].
  destruct (String.eqb c y) eqn:E; cbn [negb existsb].
  - apply String.eqb_eq in E. subst y.
    apply String.eqb_neq in Hx. now rewrite Hx.
  - now rewrite IH.
Qed.

Lemma toggle_row_shown c r : shown_as c (toggle_row c r).
Proof.
  unfold shown_as, toggle_row, toggleClass. cbn [row_class set_row_class].
  destruct c; cbn [negb].
  - rewrite hasClass_removeClass_other by discriminate.
    now rewrite hasClass_addClass, hasClass_removeClass.
  - rewrite hasClass_addClass_other by discriminate.
    now rewrite hasClass_removeClass, hasClass_addClass.
Qed.

Lemma toggle_row_other c r x :
  x <> "collapsed" -> x <> "expanded" ->
  hasClass (row_class (toggle_row c r)) x = hasClass (row_class r) x.
Proof.
  intros H1 H2. unfold toggle_row, toggleClass.
  cbn [row_class set_row_class].
  destruct c; cbn [negb].
  - rewrite hasClass_removeClass_other by exact H2.
    now apply hasClass_addClass_other.
  - rewrite hasClass_addClass_other by exact H2.
    now apply hasClass_removeClass_other.
Qed.

Lemma find_is_row_map (g : Row -> Row) id rows :
  (forall r, row_id (g r) = row_id r) ->
  find (is_row id) (map g rows) = option_map g (find (is_row id) rows).
Proof.
  intros Hg. induction rows as [|r rows IH]; [reflexivity|].
  cbn [map find]. unfold is_row at 1 3. rewrite Hg.
  destruct (Nat.eqb (row_id r) id); [reflexivity|exact IH].
Qed.

Lemma dom_find_row_update d j f id :
  (forall r, row_id (f r) = row_id r) ->
  dom_find_row (dom_update_row d j f) id
  = option_map (fun r => if is_row j r then f r else r) (dom_find_row d id).
Proof.
  intros Hf. induction d as [|[c rows] d IH]; [reflexivity|].
  cbn [dom_update_row map dom_find_row fst snd].
  rewrite find_is_row_map
    by (intros r; destruct (is_row j r); [apply Hf|reflexivity]).
  destruct (find (is_row id) rows); [reflexivity|exact IH].
Qed.

Lemma dom_find_row_id d id r : dom_find_row d id = Some r -> row_id r = id.
Proof.
  induction d as [|[c rows] d IH]; [discriminate|].
  cbn [dom_find_row].
  destruct (find (is_row id) rows) as [x|] eqn:E; [|exact IH].
  intros [= ->]. apply find_some in E. destruct E as (_ & E).
  now apply Nat.eqb_eq in E.
Qed.

Lemma toggle_all_find c stack :
  forall d id r,
    dom_find_row d id = Some r ->
    exists r',
      dom_find_row (toggle_all c stack d) id = Some r' /\
      (link_class r' = link_class r /\
       data_group_index r' = data_group_index r) /\
      (In id stack -> shown_as c r') /\
      (~ In id stack -> r' = r) /\
      (shown_as c r -> shown_as c r') /\
      (forall x, x <> "collapsed" -> x <> "expanded" ->
                 hasClass (row_class r') x = hasClass (row_class r) x).
Proof.
  unfold toggle_all.
  induction stack as [|j stack IH]; intros d id r Hr; cbn [fold_left].
  - exists r. split; [exact Hr|]. split; [now split|].
    split; [intros []|]. split; [reflexivity|]. split; [auto|reflexivity].
  - pose proof (dom_find_row_id _ _ _ Hr) as Hid.
    assert (H1 : dom_find_row (dom_update_row d j (toggle_row c)) id
                 = Some (if is_row j r then toggle_row c r else r)).
    { rewrite dom_find_row_update by reflexivity. now rewrite Hr. }
    destruct (IH _ _ _ H1) as (r' & F & L & A & B & C & D).
    exists r'. split; [exact F|].
    unfold is_row in *. rewrite Hid in *.
    destruct (Nat.eqb id j) eqn:E.
    + apply Nat.eqb_eq in E. subst j.
      split; [exact L|]. split.
      * intros _. apply C, toggle_row_shown.
      * split; [intros H; elim H; now left|].
        split; [intros _; apply C, toggle_row_shown|].
        intros x X1 X2. rewrite (D x X1 X2). now apply toggle_row_other.
    + apply Nat.eqb_neq in E.
      split; [exact L|]. split.
      * intros [H|H]; [congruence|now apply A].
      * split; [intros H; apply B; intros H'; apply H; now right|].
        split; [exact C|exact D].
Qed.

Lemma stack_sync_document stack c d s :
  document (expandOrCollapseRows_stack stack c d true s)
  = toggle_all c stack (document s).
Proof.
  destruct (stack_sync stack c d s) as (_ & _ & _ & H & _). exact H.
Qed.

(** X13: after expandOrCollapseRows without animation, every row of the
    array carries the class collapsed exactly when the rows were collapsed
    and the class expanded exactly when they were expanded; its other
    classes and its link are as before, and a row that is not in the array
    is left as it was. *)
Theorem X13_rows_after_expandOrCollapseRows :
  forall rows collapse duration s id r,
    dom_find_row (document s) id = Some r ->
    exists r',
      dom_find_row
        (document (expandOrCollapseRows rows collapse duration true s)) id
      = Some r' /\
      (In id rows -> shown_as collapse r') /\
      (~ In id rows -> r' = r) /\
      (forall c, c <> "collapsed" -> c <> "expanded" ->
                 hasClass (row_class r') c = hasClass (row_class r) c) /\
      link_class r' = link_class r.
Proof.
  intros rows c d s id r Hr. unfold expandOrCollapseRows.
  rewrite stack_sync_document.
  destruct (toggle_all_find c (rev rows) _ _ _ Hr)
    as (r' & F & L & A & B & _ & D).
  exists r'. split; [exact F|]. split.
  - intros H. apply A. now apply in_rev in H.
  - split; [|split; [exact D|exact (proj1 L)]].
    intros H. apply B. intros H'. apply H. now apply in_rev.
Qed.

Lemma X13_witness :
  exists r',
    dom_find_row
      (document (expandOrCollapseRows [2; 3] true None true nested_surface))
      2 = Some r' /\
    shown_as true r'.
Proof.
  destruct (dom_find_row (document nested_surface) 2) as [r|] eqn:E;
    [|discriminate].
  destruct (X13_rows_after_expandOrCollapseRows [2; 3] true None
              nested_surface 2 r E) as (r' & H1 & H2 & _).
  exists r'. split; [exact H1|]. apply H2. now left.
Defined.

Lemma run_chain_document rest :
  forall x c d s,
    timers s = [mkTimer x rest c d] ->
    document (run_timers (S (List.length rest)) s)
    = toggle_all c (x :: rest) (document s) /\
    timers (run_timers (S (List.length rest)) s) = [].
Proof.
  induction rest as [|y rest IH]; intros x c d s Ht.
  - cbn [List.length run_timers]. rewrite Ht. unfold run_timer. rewrite Ht.
    cbn [timer_rows timer_collapse timer_duration timer_row
           expandOrCollapseRows_stack]. now split.
  - change (run_timers (S (List.length (y :: rest))) s)
      with (match timers s with
            | [] => s
            | _ => run_timers (S (List.length rest)) (run_timer s)
            end).
    rewrite Ht.
    assert (Hr : timers (run_timer s) = [mkTimer y rest c d] /\
                 document (run_timer s)
                 = dom_update_row (document s) x (toggle_row c)).
    { unfold run_timer. rewrite Ht.
      cbn [timer_rows timer_collapse timer_duration timer_row].
      rewrite stack_async. now split. }
    destruct Hr as [Hr1 Hr2].
    destruct (IH y c d (run_timer s) Hr1) as [H1 H2].
    rewrite H1, H2, Hr2. now split.
Qed.

(** X14: the animation only delays the change.  When no timer is pending,
    expandOrCollapseRows with animation sets one timer (none for an empty
    array) and toggles no row yet; once the timers have fired, one for
    each row and the last row of the array first, no timer is left and the
    document is the one that the call without animation gives at once. *)
Theorem X14_animation_ends_in_the_same_document :
  forall rows collapse duration s,
    timers s = [] ->
    let animated := expandOrCollapseRows rows collapse duration false s in
    document animated = document s /\
    List.length (timers animated)
    = match rows with [] => 0 | _ => 1 end /\
    document (run_timers (List.length rows) animated)
    = document (expandOrCollapseRows rows collapse duration true s) /\
    timers (run_timers (List.length rows) animated) = [].
Proof.
  intros rows c d s Ht animated. subst animated.
  unfold expandOrCollapseRows.
  rewrite stack_async, stack_sync_document.
  rewrite <- (length_rev rows).
  assert (Hnil : rev rows = [] -> rows = []).
  { intros H. apply (f_equal (@rev nat)) in H.
    now rewrite rev_involutive in H. }
  destruct (rev rows) as [|x rest] eqn:E.
  - rewrite (Hnil eq_refl). cbn [List.length run_timers]. rewrite Ht.
    auto.
  - assert (Hne : rows <> []) by (intros ->; discriminate).
    split; [reflexivity|]. split.
    { cbn [timers add_log set_timers]. rewrite Ht.
      destruct rows; [now elim Hne|reflexivity]. }
    match goal with
    | |- context [run_timers _ ?s0] =>
        destruct (run_chain_document rest x c d s0) as [R1 R2]
    end.
    { cbn [timers add_log set_timers]. now rewrite Ht. }
    cbn [List.length]. rewrite R1, R2. now split.
Qed.

Lemma X14_witness :
  document (run_timers 2
              (expandOrCollapseRows [2; 3] true (Some 25) false
                 nested_surface))
  = document (expandOrCollapseRows [2; 3] true (Some 25) true
                nested_surface).
Proof.
  exact (proj1 (proj2 (proj2
           (X14_animation_ends_in_the_same_document [2; 3] true (Some 25)
              nested_surface eq_refl)))).
Defined.

(** ** The link of a group row *)

Lemma stack_log_status stack c d b :
  forall s,
    status_events (log (expandOrCollapseRows_stack stack c d b s))
    = status_events (log s).
Proof.
  destruct b.
  - intros s. destruct (stack_sync stack c d s) as (H & _).
    rewrite H, status_events_app, status_events_toggles.
    apply List.app_nil_r.
  - intros s. rewrite stack_async. destruct stack; [reflexivity|].
    cbn [log add_log set_timers]. rewrite status_events_app.
    apply List.app_nil_r.
Qed.

Lemma stack_find_link stack c d b s id r :
  dom_find_row (document s) id = Some r ->
  exists r',
    dom_find_row (document (expandOrCollapseRows_stack stack c d b s)) id
    = Some r' /\ link_class r' = link_class r /\
    data_group_index r' = data_group_index r.
Proof.
  intros Hr. destruct b.
  - rewrite stack_sync_document.
    destruct (toggle_all_find c stack _ _ _ Hr) as (r' & F & L & _).
    exists r'. split; [exact F|exact L].
  - rewrite stack_async. exists r. split; [|now split].
    now destruct stack.
Qed.

Lemma toggleGroup_link :
  forall s row forceExpand r link,
    dom_find_row (document s) row = Some r ->
    link_class r = Some link ->
    let expanded := negb (hasClass link "expanded" && negb forceExpand) in
    exists s' r' link',
      toggleGroup row forceExpand s = Ok s' /\
      dom_find_row (document s') row = Some r' /\
      link_class r' = Some link' /\
      data_group_index r' = data_group_index r /\
      hasClass link' "expanded" = expanded /\
      (forall c, c <> "expanded" -> hasClass link' c = hasClass link c) /\
      status_events (log s') =
        (status_events (log s)
         ++ [(attr_text (data_group_index r), expanded)])%list.
Proof.
  intros s row force r link Hfind Hlink expanded.
  rewrite (toggleGroup_unfold s row force r link Hfind Hlink).
  cbv zeta. unfold expandOrCollapseRows.
  set (collapse := hasClass link "expanded" && negb force) in *.
  set (link' := if collapse then removeClass link "expanded"
                else addClass link "expanded").
  pose proof (dom_find_row_id _ _ _ Hfind) as Hid.
  match goal with
  | |- context [expandOrCollapseRows_stack ?st ?c ?d ?b ?s0] =>
      destruct (stack_find_link st c d b s0 row
                  (set_link_class r (Some link'))) as (r' & F & L & G);
      [|pose proof (stack_log_status st c d b s0) as Hst;
        set (s2 := expandOrCollapseRows_stack st c d b s0) in *]
  end.
  { cbn [document add_log set_document].
    rewrite dom_find_row_update by reflexivity. rewrite Hfind.
    cbn [option_map]. unfold is_row. rewrite Hid, Nat.eqb_refl.
    reflexivity. }
  clearbody s2.
  exists (add_log
            (set_groupManager s2
               (GroupManager.setGroupStatus
                  (attr_text (data_group_index r)) (negb collapse)
                  (groupManager s2)))
            [EvSetGroupStatus (attr_text (data_group_index r))
               (negb collapse)]), r', link'.
  split; [reflexivity|]. split; [exact F|]. split; [exact L|].
  split; [exact G|]. split; [|split].
  - unfold expanded, link'. destruct collapse; cbn [negb].
    + apply hasClass_removeClass.
    + apply hasClass_addClass.
  - intros c Hc. unfold link'. destruct collapse.
    + now apply hasClass_removeClass_other.
    + now apply hasClass_addClass_other.
  - cbn [log add_log set_groupManager]. rewrite status_events_app, Hst.
    cbn [log add_log set_document]. rewrite status_events_app.
    cbn [status_events]. now rewrite List.app_nil_r.
Qed.


(** X15: toggleGroup leaves the class expanded on the link of the row
    exactly when the group is now expanded, that is when it was forced or
    the link did not carry the class before, and it commits that same
    state to the group manager, once; the other classes of the link are
    as they were. *)
Theorem X15_toggleGroup_link_shows_the_committed_state :
  forall s row forceExpand r link,
    dom_find_row (document s) row = Some r ->
    link_class r = Some link ->
    let expanded := negb (hasClass link "expanded" && negb forceExpand) in
    exists s' r' link',
      toggleGroup row forceExpand s = Ok s' /\
      dom_find_row (document s') row = Some r' /\
      link_class r' = Some link' /\
      hasClass link' "expanded" = expanded /\
      (forall c, c <> "expanded" -> hasClass link' c = hasClass link c) /\
      status_events (log s') =
        (status_events (log s)
         ++ [(attr_text (data_group_index r), expanded)])%list.
Proof.
  intros s row force r link Hfind Hlink expanded.
  destruct (toggleGroup_link s row force r link Hfind Hlink)
    as (s' & r' & link' & H1 & H2 & H3 & _ & H4 & H5 & H6).
  exists s', r', link'.
  split; [exact H1|]. split; [exact H2|]. split; [exact H3|].
  split; [exact H4|]. split; [exact H5|exact H6].
Qed.

Lemma X15_witness :
  exists s' r' link',
    toggleGroup 1 false nested_surface = Ok s' /\
    dom_find_row (document s') 1 = Some r' /\
    link_class r' = Some link' /\
    hasClass link' "expanded" = false /\
    status_events (log s') = [("1", false)].
Proof.
  destruct (dom_find_row (document nested_surface) 1) as [r|] eqn:E;
    [|discriminate].
  destruct (link_class r) as [link|] eqn:L;
    [|injection E as <-; discriminate].
  destruct (X15_toggleGroup_link_shows_the_committed_state nested_surface
              1 false r link E L)
    as (s' & r' & link' & H1 & H2 & H3 & H4 & _ & H6).
  exists s', r', link'.
  injection E as <-. injection L as <-.
  split; [exact H1|]. split; [exact H2|]. split; [exact H3|].
  split; [exact H4|exact H6].
Defined.

(** ** The delay of the animation *)

(** X16: the delay that toggleGroup gives to the animation of n rows is
    50/n rounded to the nearest integer, halves going up: the delays of
    the n rows add up to 50 ms within n/2, and to 100 ms at most; more
    than 100 rows are toggled with no delay.  For no row the quotient is
    infinite (and no timer is set). *)
Theorem X16_animation_delay_is_bounded :
  forall n,
    match round_50_div n with
    | None => n = 0
    | Some d =>
        0 < n /\
        2 * n * d <= 100 + n < 2 * n * (d + 1) /\
        n * d <= 100 /\
        (100 < n -> d = 0) /\
        (n <= 100 -> 0 < d)
    end.
Proof.
  intros [|n]; unfold round_50_div; [reflexivity|].
  set (m := S n).
  assert (Hm : 0 < m) by (unfold m; lia).
  pose proof (Nat.div_mod (100 + m) (2 * m) ltac:(lia)) as D.
  pose proof (Nat.mod_upper_bound (100 + m) (2 * m) ltac:(lia)) as U.
  set (d := (100 + m) / (2 * m)) in *.
  set (r := (100 + m) mod (2 * m)) in *.
  split; [exact Hm|]. split; [nia|]. split; [|split].
  - destruct (Nat.le_gt_cases m 100); [nia|].
    assert (d = 0) by nia. lia.
  - intros H. nia.
  - intros H. destruct d; [nia|lia].
Qed.

(** ** The popup counter *)

Lemma popups_displayed options n :
  forall rest c,
    (0 <= c)%Z -> (c + Z.of_nat n <= 9007199254740992)%Z ->
    popups options (repeat true n ++ rest) c
    = let (c', calls) := popups options rest (c + Z.of_nat n)%Z in
      (c', ((if (c =? 0)%Z && (0 <? n)%nat && onPopupDisplayed options
             then [CallOnPopupDisplayed] else []) ++ calls)%list).
Proof.
  induction n as [|n IH]; intros rest c Hc Hn.
  - cbn [repeat app Z.of_nat]. rewrite Z.add_0_r, andb_false_r.
    cbn [andb]. now destruct (popups options rest c).
  - cbn [repeat app popups]. unfold popupDisplayed, increment.
    assert (L : (c <? 9007199254740992)%Z = true) by (apply Z.ltb_lt; lia).
    rewrite L. rewrite IH by lia.
    replace (c + 1 + Z.of_nat n)%Z with (c + Z.of_nat (S n))%Z by lia.
    destruct (popups options rest (c + Z.of_nat (S n))) as [c' calls].
    assert (Z1 : (c + 1 =? 0)%Z = false) by (apply Z.eqb_neq; lia).
    rewrite Z1. cbn [andb app]. rewrite andb_true_r.
    reflexivity.
Qed.

Lemma popups_hidden options n :
  forall c,
    (Z.of_nat n <= c)%Z ->
    popups options (repeat false n) c
    = ((c - Z.of_nat n)%Z,
       if (c - Z.of_nat n =? 0)%Z && (0 <? n)%nat && onPopupHidden options
       then [CallOnPopupHidden] else []).
Proof.
  induction n as [|n IH]; intros c Hc.
  - cbn [repeat popups Z.of_nat]. rewrite Z.sub_0_r, andb_false_r.
    reflexivity.
  - cbn [repeat popups]. unfold popupHidden.
    assert (L : (c - 1 <? 0)%Z = false) by (apply Z.ltb_ge; lia).
    rewrite L. rewrite IH by lia.
    replace (c - 1 - Z.of_nat n)%Z with (c - Z.of_nat (S n))%Z by lia.
    cbn [Nat.ltb Nat.leb]. rewrite andb_true_r.
    destruct n as [|n].
    + cbn [Nat.ltb Nat.leb]. rewrite andb_false_r. cbn [andb].
      replace (c - Z.of_nat 1)%Z with (c - 1)%Z by lia.
      now rewrite List.app_nil_r.
    + assert (Z1 : (c - 1 =? 0)%Z = false) by (apply Z.eqb_neq; lia).
      rewrite Z1. cbn [andb app]. now rewrite andb_true_r.
Qed.

(** X17: the popup counter is never negative; popupHidden undoes
    popupDisplayed; when n popups are displayed and then hidden,
    onPopupDisplayed is called once, for the first, and onPopupHidden
    once, for the last (each when it is configured); a popupHidden with
    no popup displayed leaves the counter at 0 and calls onPopupHidden
    again. *)
Theorem X17_popup_counter :
  forall options,
    (forall c, (0 <= c)%Z ->
               (0 <= fst (popupDisplayed options c))%Z /\
               (0 <= fst (popupHidden options c))%Z) /\
    (forall c, (0 <= c < 9007199254740992)%Z ->
               fst (popupHidden options (fst (popupDisplayed options c)))
               = c) /\
    (forall n, 0 < n -> (Z.of_nat n <= 9007199254740992)%Z ->
               popups options (repeat true n ++ repeat false n) 0
               = (0%Z,
                  ((if onPopupDisplayed options
                    then [CallOnPopupDisplayed] else [])
                   ++ (if onPopupHidden options
                       then [CallOnPopupHidden] else []))%list)) /\
    popupHidden options 0
    = (0%Z, if onPopupHidden options then [CallOnPopupHidden] else []).
Proof.
  intros options. split; [|split; [|split]].
  - intros c Hc. unfold popupDisplayed, popupHidden, increment.
    cbn [fst]. split.
    + destruct (c <? 9007199254740992)%Z; lia.
    + destruct (c - 1 <? 0)%Z eqn:E; [lia|]. apply Z.ltb_ge in E. lia.
  - intros c Hc. unfold popupDisplayed, popupHidden, increment.
    cbn [fst].
    assert (L : (c <? 9007199254740992)%Z = true) by (apply Z.ltb_lt; lia).
    rewrite L.
    assert (L' : (c + 1 - 1 <? 0)%Z = false) by (apply Z.ltb_ge; lia).
    rewrite L'. lia.
  - intros n Hn Hmax.
    rewrite popups_displayed by lia.
    rewrite popups_hidden by lia.
    replace (0 + Z.of_nat n - Z.of_nat n)%Z with 0%Z by lia.
    assert (P : (0 <? n)%nat = true) by (apply Nat.ltb_lt; exact Hn).
    rewrite P. reflexivity.
  - reflexivity.
Qed.

Lemma X17_witness :
  popups (mkOptions false false true true) [true; true; false; false] 0
  = (0%Z, [CallOnPopupDisplayed; CallOnPopupHidden]).
Proof.
  destruct (X17_popup_counter (mkOptions false false true true))
    as (_ & _ & H & _).
  apply (H 2); [lia|].
  apply Z.leb_le. reflexivity.
Defined.

(** ** Sequenced identifiers *)

Lemma number_to_string_digits n :
  (0 <= n)%Z -> all_digits (number_to_string n) = true.
Proof.
  intros Hn. unfold number_to_string.
  destruct n as [|p|p]; [reflexivity| |lia].
  cbn [Z.to_int NilEmpty.string_of_int]. apply string_of_uint_digits.
Qed.

Lemma all_digits_no_minus a b : all_digits (a ++ String "-" b) = false.
Proof.
  induction a as [|c a IH]; [reflexivity|].
  cbn [append all_digits]. rewrite IH. apply andb_false_r.
Qed.

Lemma sequenced_apart a :
  forall b d1 d2,
    all_digits d1 = true -> all_digits d2 = true ->
    a ++ "-" ++ d1 = b ++ "-" ++ d2 -> a = b /\ d1 = d2.
Proof.
  induction a as [|x a IH]; intros [|y b] d1 d2 H1 H2; cbn [append].
  - intros [= ->]. now split.
  - intros [= <- ->]. now rewrite all_digits_no_minus in H1.
  - intros [= -> <-]. now rewrite all_digits_no_minus in H2.
  - intros [= <- E]. destruct (IH b d1 d2 H1 H2 E) as (-> & ->).
    now split.
Qed.

(** X18: generateSequencedId returns the unique identifier of the
    surface, a dash and the counter after it was incremented; the first
    identifier of a surface ends with -2.  While the counter is below
    2^53 the counter grows by one at each call, and two identifiers are
    the same only for the same unique identifier and the same counter:
    a surface never gives the same identifier twice, and neither do two
    surfaces with different unique identifiers. *)
Theorem X18_sequenced_ids_are_unique :
  forall uid1 uid2 c1 c2,
    (0 <= c1 < 9007199254740992)%Z -> (0 <= c2 < 9007199254740992)%Z ->
    snd (generateSequencedId uid1 c1) = (c1 + 1)%Z /\
    fst (generateSequencedId uid1 1) = uid1 ++ "-2" /\
    (fst (generateSequencedId uid1 c1) = fst (generateSequencedId uid2 c2)
     -> uid1 = uid2 /\ c1 = c2).
Proof.
  intros uid1 uid2 c1 c2 H1 H2.
  unfold generateSequencedId, increment. cbn [fst snd].
  assert (L1 : (c1 <? 9007199254740992)%Z = true) by (apply Z.ltb_lt; lia).
  assert (L2 : (c2 <? 9007199254740992)%Z = true) by (apply Z.ltb_lt; lia).
  rewrite L1, L2. split; [reflexivity|]. split; [reflexivity|].
  intros E. apply sequenced_apart in E.
  - destruct E as (-> & E). apply number_to_string_inj in E.
    split; [reflexivity|lia].
  - apply number_to_string_digits. lia.
  - apply number_to_string_digits. lia.
Qed.

Lemma X18_witness :
  fst (generateSequencedId "inspector" 1) = "inspector-2" /\
  snd (generateSequencedId "inspector" 1) = 2%Z.
Proof.
  assert (R : (0 <= 1 < 9007199254740992)%Z) by (split; reflexivity || discriminate).
  destruct (X18_sequenced_ids_are_unique "inspector" "inspector" 1 1 R R)
    as (H1 & H2 & _).
  split; [exact H2|exact H1].
Defined.

(** ** The rows of a child surface after the merge *)

Lemma level_row_property g r : data_property (level_row g r) = data_property r.
Proof.
  unfold level_row.
  destruct (applyGroupLevelToRow r g) as [r'|] eqn:E; [|reflexivity].
  now apply applyGroupLevelToRow_row in E.
Qed.

Lemma find_some_in {A : Type} (p : A -> bool) l x :
  In x l -> p x = true -> find p l <> None.
Proof.
  induction l as [|y l IH]; [intros []|]. cbn [find].
  intros [->|Hin] Hp; [rewrite Hp; discriminate|].
  destruct (p y); [discriminate|now apply IH].
Qed.

Lemma find_property_row_moved g name child before a after :
  find_property_row child name <> None ->
  find_property_row
    (before ++ a :: map (level_row g) child ++ after)%list name <> None.
Proof.
  unfold find_property_row.
  destruct (selector_plain name); [|intros H; exact H].
  intros H.
  destruct (find _ child) as [r|] eqn:E; [|now elim H].
  apply find_some in E. destruct E as (Hin & Hp).
  apply find_some_in with (level_row g r).
  - apply in_or_app. right. right. apply in_or_app. left.
    now apply in_map.
  - now rewrite level_row_property.
Qed.

(** X19: when the anchor row is in the table of the root surface, the
    child surface finds its rows in that table after the merge: every
    property that had a row in the table of the child has a row for the
    child afterwards, so that setPropertyValue on the child goes on
    marking it.  The merge touches no other table, and leaves the values,
    the schema and the editors of both surfaces as they are. *)
Theorem X19_the_child_finds_its_rows_after_the_merge :
  forall this surface a before after,
    NoDup (map fst (document this)) ->
    getRootTableContainer this <> tableContainer surface ->
    dom_rows (document this) (getRootTableContainer this)
    = (before ++ a :: after)%list ->
    NoDup (row_ids (before ++ a :: after)
           ++ row_ids (dom_rows (document this) (tableContainer surface)))
    ->
    (forall c, c <> getRootTableContainer this ->
               c <> tableContainer surface ->
     forall id,
       In id (row_ids (before ++ a :: after)
              ++ row_ids (dom_rows (document this)
                            (tableContainer surface)))%list ->
       ~ In id (row_ids (dom_rows (document this) c))) ->
    forallb (can_level (group surface))
      (dom_rows (document this) (tableContainer surface)) = true ->
    exists this' surface',
      mergeChildSurface surface (row_id a) this = Ok (this', surface') /\
      (forall name,
          find_property_row
            (dom_rows (document this) (tableContainer surface)) name
          <> None ->
          has_row surface' name = true /\
          forall value supress force,
            exists s', setPropertyValue name value supress force surface'
                       = Ok (value, s')) /\
      (forall c, c <> getRootTableContainer this ->
                 c <> tableContainer surface ->
                 dom_rows (document this') c = dom_rows (document this) c) /\
      same_data this this' /\ same_data surface surface'.
Proof.
  intros this surface a before after Hnd Hpc HP Hnodup Hoth Hlevel.
  set (P := getRootTableContainer this) in *.
  set (C := tableContainer surface) in *.
  set (child := dom_rows (document this) C) in *.
  assert (Hinv : merge_inv P C before a after [] ([] ++ child)
                   (document this)).
  { unfold merge_inv. cbn [app].
    split; [exact Hnd|]. split; [exact Hpc|]. split; [exact HP|].
    split; [reflexivity|].
    split; [now apply NoDup_app_remove_r in Hnodup|].
    split; [now apply NoDup_app_remove_l in Hnodup|].
    split; [|exact Hoth].
    intros id Hid H.
    exact (NoDup_app_apart _ _ id Hnodup H Hid). }
  destruct (merge_loop P C before a after (group surface) child [] []
              (document this) Hinv Hlevel)
    as (d & Hloop & Hinv' & Hframe).
  destruct Hinv' as (_ & _ & H1 & _).
  rewrite List.app_nil_r in H1.
  unfold mergeChildSurface. fold C. fold child. fold P.
  change (map row_id child) with (row_ids child).
  change (group (set_tableContainer surface P)) with (group surface).
  rewrite Hloop. cbn [bind].
  eexists. eexists. split; [reflexivity|].
  split; [|split; [|split]].
  - intros name Hname.
    assert (Hrow : has_row (set_document (set_tableContainer surface P) d)
                     name = true).
    { unfold has_row. cbn [document tableContainer set_document
                             set_tableContainer].
      rewrite H1.
      pose proof (find_property_row_moved (group surface) name child
                    before a after Hname) as F.
      destruct (find_property_row (before ++ _) name);
        [reflexivity|now elim F]. }
    split; [exact Hrow|].
    intros value supress force.
    destruct (setPropertyValue_spec _ name value supress force
                (fun _ => Hrow)) as (s' & Hs & _).
    now exists s'.
  - intros c Hc1 Hc2. cbn [document set_document]. now apply Hframe.
  - repeat split.
  - repeat split.
Qed.

Lemma X19_witness :
  exists this' surface',
    mergeChildSurface merge_child 1 merge_parent = Ok (this', surface') /\
    has_row surface' "b" = true.
Proof.
  assert (H1 : NoDup (map fst (document merge_parent))).
  { repeat (constructor; [simpl; intuition discriminate|]). constructor. }
  assert (H2 : getRootTableContainer merge_parent
               <> tableContainer merge_child) by discriminate.
  assert (H3 : dom_rows (document merge_parent)
                 (getRootTableContainer merge_parent)
               = ([] ++ plain_row 1 "a" :: [plain_row 4 "d"])%list)
    by reflexivity.
  assert (H4 : NoDup (row_ids ([] ++ plain_row 1 "a" :: [plain_row 4 "d"])
                      ++ row_ids (dom_rows (document merge_parent)
                                    (tableContainer merge_child)))).
  { repeat (constructor; [simpl; intuition discriminate|]). constructor. }
  assert (H5 : forall c, c <> getRootTableContainer merge_parent ->
               c <> tableContainer merge_child ->
               forall id,
                 In id (row_ids ([] ++ plain_row 1 "a" :: [plain_row 4 "d"])
                        ++ row_ids (dom_rows (document merge_parent)
                                      (tableContainer merge_child)))%list ->
                 ~ In id (row_ids (dom_rows (document merge_parent) c))).
  { intros c Hc0 Hc5 id _.
    change (c <> 0) in Hc0. change (c <> 5) in Hc5.
    unfold merge_parent, merge_document. cbn [document dom_rows].
    destruct (Nat.eqb 0 c) eqn:E0;
      [apply Nat.eqb_eq in E0; congruence|].
    destruct (Nat.eqb 5 c) eqn:E5;
      [apply Nat.eqb_eq in E5; congruence|].
    simpl. tauto. }
  destruct (X19_the_child_finds_its_rows_after_the_merge merge_parent
              merge_child (plain_row 1 "a") [] [plain_row 4 "d"]
              H1 H2 H3 H4 H5 eq_refl)
    as (this' & surface' & Hm & Hrows & _).
  exists this', surface'. split; [exact Hm|].
  apply Hrows. discriminate.
Defined.

(** ** Built rows keep their level *)

Lemma built_row_level p r g :
  built_row p r -> applyGroupLevelToRow r g = Ok r.
Proof.
  intros (_ & _ & Hl & _). unfold applyGroupLevelToRow.
  destruct (data_group_level r); [reflexivity|now elim Hl].
Qed.

Lemma built_rows_level items rows g :
  Forall2 built_row items rows ->
  forallb (can_level g) rows = true /\ map (level_row g) rows = rows.
Proof.
  induction 1 as [|p r items rows Hp _ IH]; [now split|].
  destruct IH as (IH1 & IH2). cbn [forallb map].
  unfold can_level at 1, level_row at 1.
  rewrite (built_row_level p r g Hp), IH1, IH2. now split.
Qed.

Lemma built_rows_in items rows r :
  Forall2 built_row items rows -> In r rows -> exists p, built_row p r.
Proof.
  induction 1 as [|p x items rows Hx _ IH]; [intros []|].
  intros [->|Hin]; [now exists p|now apply IH].
Qed.

(** X20: applyGroupLevelToRow writes the level of a row once.  Every row
    of a surface that the constructor built has its level already, so
    that for any group the merge of the surface into a parent can level
    each row without throwing, and leaves each row exactly as it was
    built. *)
Theorem X20_built_rows_keep_their_level :
  forall ns props vals uid opts parent grp s,
    new_Surface ns props vals uid opts parent grp = Ok s ->
    forall g,
      forallb (can_level g) (dom_rows (document s) (tableContainer s))
      = true /\
      map (level_row g) (dom_rows (document s) (tableContainer s))
      = dom_rows (document s) (tableContainer s) /\
      (forall r, In r (dom_rows (document s) (tableContainer s)) ->
                 applyGroupLevelToRow r g = Ok r).
Proof.
  intros ns props vals [uid|] opts parent grp s H g; [|discriminate].
  destruct (new_Surface_build ns props vals uid opts parent grp)
    as (s0 & E & Hp).
  rewrite E in H. apply build_rows in H. rewrite Hp in H.
  destruct H as (Hall & _ & _).
  destruct (built_rows_level _ _ g Hall) as (H1 & H2).
  split; [exact H1|]. split; [exact H2|].
  intros r Hin.
  destruct (built_rows_in _ _ r Hall Hin) as (p & Hp').
  now apply built_row_level with p.
Qed.

Lemma X20_witness :
  map (level_row None)
    (dom_rows (document example_surface) (tableContainer example_surface))
  = dom_rows (document example_surface) (tableContainer example_surface).
Proof.
  assert (H : new_Surface example_namespace (example_schema, true)
                (Some []) (Some "inspector") DEFAULTS None None
              = Ok example_surface) by (vm_compute; reflexivity).
  exact (proj1 (proj2
           (X20_built_rows_keep_their_level _ _ _ _ _ _ _ _ H None))).
Defined.

(** ** A number and its text *)

Lemma parse_digits_acc d :
  forall acc,
    parse_digits (NilEmpty.string_of_uint d) (Zpos acc)
    = Some (Zpos (Pos.of_uint_acc d acc)).
Proof.
  induction d; intros acc;
    cbn [NilEmpty.string_of_uint parse_digits Pos.of_uint_acc];
    try reflexivity;
    change (digit_of "0") with (Some 0%Z);
    change (digit_of "1") with (Some 1%Z);
    change (digit_of "2") with (Some 2%Z);
    change (digit_of "3") with (Some 3%Z);
    change (digit_of "4") with (Some 4%Z);
    change (digit_of "5") with (Some 5%Z);
    change (digit_of "6") with (Some 6%Z);
    change (digit_of "7") with (Some 7%Z);
    change (digit_of "8") with (Some 8%Z);
    change (digit_of "9") with (Some 9%Z);
    cbv iota beta;
    rewrite <- IHd; f_equal; lia.
Qed.

Lemma parse_digits_uint d :
  parse_digits (NilEmpty.string_of_uint d) 0 = Some (Z.of_N (Pos.of_uint d)).
Proof.
  induction d;
    cbn [NilEmpty.string_of_uint parse_digits Pos.of_uint Z.of_N];
    try reflexivity;
    change (digit_of "0") with (Some 0%Z);
    change (digit_of "1") with (Some 1%Z);
    change (digit_of "2") with (Some 2%Z);
    change (digit_of "3") with (Some 3%Z);
    change (digit_of "4") with (Some 4%Z);
    change (digit_of "5") with (Some 5%Z);
    change (digit_of "6") with (Some 6%Z);
    change (digit_of "7") with (Some 7%Z);
    change (digit_of "8") with (Some 8%Z);
    change (digit_of "9") with (Some 9%Z);
    cbv iota beta;
    first [exact IHd | apply parse_digits_acc].
Qed.

Lemma parse_digits_pos p :
  parse_digits (NilEmpty.string_of_uint (Pos.to_uint p)) 0 = Some (Zpos p).
Proof.
  rewrite parse_digits_uint.
  now rewrite DecimalPos.Unsigned.of_to.
Qed.

Lemma rev_string_list s :
  forall acc,
    list_ascii_of_string (rev_string s acc)
    = (rev (list_ascii_of_string s) ++ list_ascii_of_string acc)%list.
Proof.
  induction s as [|c s IH]; intros acc; cbn [rev_string list_ascii_of_string];
    [reflexivity|].
  rewrite IH. cbn [list_ascii_of_string rev]. now rewrite <- List.app_assoc.
Qed.

Lemma trim_left_id s :
  (forall c, In c (list_ascii_of_string s) -> is_space c = false) ->
  trim_left s = s.
Proof.
  destruct s as [|c s]; [reflexivity|]. intros H. cbn [trim_left].
  rewrite (H c); [reflexivity|now left].
Qed.

Lemma trim_id s :
  (forall c, In c (list_ascii_of_string s) -> is_space c = false) ->
  trim s = s.
Proof.
  intros H. unfold trim. rewrite (trim_left_id s H).
  assert (Hr : forall c, In c (list_ascii_of_string (rev_string s "")) ->
                         is_space c = false).
  { intros c Hc. rewrite rev_string_list in Hc.
    cbn [list_ascii_of_string] in Hc. rewrite List.app_nil_r in Hc.
    apply H. now apply in_rev. }
  rewrite (trim_left_id _ Hr).
  rewrite <- (string_of_list_ascii_of_string s) at 2.
  rewrite <- (string_of_list_ascii_of_string (rev_string _ "")).
  f_equal. rewrite !rev_string_list. cbn [list_ascii_of_string].
  rewrite !List.app_nil_r. apply rev_involutive.
Qed.

Lemma is_digit_no_space c : is_digit c = true -> is_space c = false.
Proof.
  unfold is_digit, is_space. intros H.
  apply andb_true_iff in H. destruct H as (H1 & H2).
  apply Nat.leb_le in H1.
  apply orb_false_iff. split.
  - apply Nat.eqb_neq. lia.
  - apply andb_false_iff. right. apply Nat.leb_gt. lia.
Qed.

Lemma all_digits_in s c :
  all_digits s = true -> In c (list_ascii_of_string s) -> is_digit c = true.
Proof.
  induction s as [|x s IH]; [intros _ []|].
  cbn [all_digits list_ascii_of_string]. intros H.
  apply andb_true_iff in H. destruct H as (Hx & Hs).
  intros [<-|Hin]; [exact Hx|now apply IH].
Qed.

Lemma number_to_string_trim n : trim (number_to_string n) = number_to_string n.
Proof.
  apply trim_id. intros c Hc.
  destruct (number_to_string_shape n) as (x & s & E & Hx & Hs).
  rewrite E in Hc. cbn [list_ascii_of_string] in Hc.
  destruct Hc as [<-|Hc].
  - destruct Hx as [Hx| ->]; [now apply is_digit_no_space|reflexivity].
  - apply is_digit_no_space. now apply all_digits_in with s.
Qed.

Lemma string_of_uint_nonempty d :
  d <> Decimal.Nil -> NilEmpty.string_of_uint d <> "".
Proof. destruct d; cbn [NilEmpty.string_of_uint]; congruence. Qed.

Lemma string_to_number_print n :
  string_to_number (number_to_string n) = Some n.
Proof.
  unfold string_to_number. rewrite number_to_string_trim.
  unfold number_to_string.
  destruct n as [|p|p]; [reflexivity| |];
    cbn [Z.to_int NilEmpty.string_of_int].
  - pose proof (parse_digits_pos p) as P.
    pose proof (string_of_uint_digits (Pos.to_uint p)) as D.
    pose proof (string_of_uint_nonempty (Pos.to_uint p)
                  (DecimalPos.Unsigned.to_uint_nonnil p)) as N.
    destruct (NilEmpty.string_of_uint (Pos.to_uint p)) as [|c r];
      [now elim N|].
    cbn [all_digits] in D. apply andb_true_iff in D. destruct D as (Dc & _).
    assert (M : Ascii.eqb c "-" = false).
    { apply Ascii.eqb_neq. intros ->. discriminate. }
    assert (Q : Ascii.eqb c "+" = false).
    { apply Ascii.eqb_neq. intros ->. discriminate. }
    now rewrite M, Q.
  - pose proof (parse_digits_pos p) as P.
    pose proof (string_of_uint_nonempty (Pos.to_uint p)
                  (DecimalPos.Unsigned.to_uint_nonnil p)) as N.
    change (Ascii.eqb "-" "-") with true. cbv iota.
    destruct (NilEmpty.string_of_uint (Pos.to_uint p)) as [|c r];
      [now elim N|].
    now rewrite P.
Qed.

Lemma num_eq_str_print m n : num_eq_str m (number_to_string n) = Z.eqb m n.
Proof. unfold num_eq_str. now rewrite string_to_number_print. Qed.

Lemma obj_read_get o k :
  obj_get o k <> VUndefined -> obj_read o k = obj_get o k.
Proof.
  induction o as [|[k' v] o IH]; cbn [obj_get obj_read];
    [intros H; now elim H|].
  destruct (String.eqb k' k); [reflexivity|exact IH].
Qed.

(** X21: an integer from -2^53 to 2^53 compares as equal to the decimal
    text of such an integer exactly when the two integers are the same,
    in either order (the comparison is the loose equality; beyond 2^53
    the number that a text stands for is rounded).  Hence writing the
    text of the original number of a property leaves its row not marked
    as changed, while hasChanges, which compares the JSON documents,
    answers true. *)
Theorem X21_a_number_and_its_text :
  (forall m n,
      safe_integer m -> safe_integer n ->
      comparePropertyValues (VNum m) (VStr (number_to_string n))
      = Z.eqb m n /\
      comparePropertyValues (VStr (number_to_string n)) (VNum m)
      = Z.eqb m n) /\
  (forall s name n force,
      safe_integer n ->
      has_row s name = true ->
      NoDup (map fst (values s)) ->
      NoDup (map fst (originalValues s)) ->
      obj_get (originalValues s) name = VNum n ->
      exists s',
        setPropertyValue name (VStr (number_to_string n)) false force s
        = Ok (VStr (number_to_string n), s') /\
        marked_changed s' name = false /\
        hasChanges s' = true).
Proof.
  split.
  - intros m n _ _. unfold comparePropertyValues.
    cbn [is_undefined negb andb typeof].
    change (String.eqb "number" "object") with false.
    change (String.eqb "string" "object") with false.
    cbn [andb]. cbv beta iota delta [loose_eq bool_to_number].
    now rewrite num_eq_str_print.
  - intros s name n force _ Hrow Hv Ho Horig.
    destruct (setPropertyValue_spec s name (VStr (number_to_string n))
                false force (fun _ => Hrow))
      as (s' & Hs & Hv' & Ho' & _ & _ & _ & _ & _ & _ & Hm).
    assert (Hread : obj_read (originalValues s) name = VNum n)
      by (rewrite obj_read_get; rewrite Horig; [reflexivity|discriminate]).
    exists s'. split; [exact Hs|]. split.
    + rewrite (Hm eq_refl), Hread. unfold comparePropertyValues.
      cbn [is_undefined negb andb orb typeof].
      change (String.eqb "number" "object") with false.
      cbn [andb]. cbv beta iota delta [loose_eq bool_to_number].
      now rewrite num_eq_str_print, Z.eqb_refl.
    + destruct (hasChanges s') eqn:E; [reflexivity|].
      apply hasChanges_members in E. rewrite Hv', Ho' in E.
      apply members_write_differs in E; [destruct E|exact Hv|exact Ho|].
      rewrite Horig. discriminate.
Qed.

Lemma X21_witness :
  exists s',
    setPropertyValue "a" (VStr "1") false false pair_surface
    = Ok (VStr "1", s') /\
    marked_changed s' "a" = false /\
    hasChanges s' = true.
Proof.
  assert (Hnd : NoDup (map fst pair_values)).
  { repeat constructor; simpl; intuition discriminate. }
  assert (Hn : safe_integer 1) by (unfold safe_integer; lia).
  exact (proj2 X21_a_number_and_its_text pair_surface "a" 1%Z false
           Hn eq_refl Hnd Hnd eq_refl).
Defined.

(** ** Clicks on a group row *)

Lemma fire_link position s id r :
  dom_find_row (document s) id = Some r ->
  exists r',
    dom_find_row (document (fire position s)) id = Some r' /\
    link_class r' = link_class r /\
    data_group_index r' = data_group_index r.
Proof.
  intros Hr. unfold fire.
  destruct (nth_error (timers s) position) as [t|];
    [|exists r; now repeat split].
  match goal with
  | |- context [expandOrCollapseRows_stack ?st ?c ?d ?b ?s0] =>
      destruct (stack_find_link st c d b s0 id
                  (if is_row (timer_row t) r
                   then toggle_row (timer_collapse t) r else r))
        as (r' & F & L & G)
  end.
  { cbn [document add_log set_document].
    rewrite dom_find_row_update by reflexivity. now rewrite Hr. }
  exists r'. split; [exact F|].
  rewrite L, G. now destruct (is_row (timer_row t) r).
Qed.

Lemma fire_status position s :
  status_events (log (fire position s)) = status_events (log s).
Proof.
  unfold fire. destruct (nth_error (timers s) position) as [t|];
    [|reflexivity].
  rewrite stack_log_status. cbn [log add_log set_document set_timers].
  rewrite status_events_app. apply List.app_nil_r.
Qed.

Lemma fire_all_link positions :
  forall s id r,
    dom_find_row (document s) id = Some r ->
    exists r',
      dom_find_row (document (fire_all positions s)) id = Some r' /\
      link_class r' = link_class r /\
      data_group_index r' = data_group_index r /\
      status_events (log (fire_all positions s)) = status_events (log s).
Proof.
  unfold fire_all.
  induction positions as [|n positions IH]; intros s id r Hr;
    cbn [fold_left].
  - exists r. now repeat split.
  - destruct (fire_link n s id r Hr) as (r1 & F1 & L1 & G1).
    destruct (IH _ _ _ F1) as (r2 & F2 & L2 & G2 & S2).
    exists r2. split; [exact F2|]. split; [congruence|].
    split; [congruence|]. now rewrite S2, fire_status.
Qed.

(** X22: a click on a group row toggles its group; a second click brings
    the link of the row back to the classes it had, and the two clicks
    commit opposite states to the group manager, first the opposite of
    what the link showed and then what it showed.  This holds whichever
    pending timers have fired between the two clicks, in whatever order:
    none of them, some of them, or all the timers of the first
    animation. *)
Theorem X22_two_clicks_restore_the_link :
  forall s row r link fired,
    dom_find_row (document s) row = Some r ->
    link_class r = Some link ->
    exists s1 s2 r2 link2,
      onGroupClick row s = Ok s1 /\
      onGroupClick row (fire_all fired s1) = Ok s2 /\
      dom_find_row (document s2) row = Some r2 /\
      link_class r2 = Some link2 /\
      (forall c, hasClass link2 c = hasClass link c) /\
      status_events (log s2) =
        (status_events (log s)
         ++ [(attr_text (data_group_index r),
              negb (hasClass link "expanded"));
             (attr_text (data_group_index r),
              hasClass link "expanded")])%list.
Proof.
  intros s row r link fired Hfind Hlink. unfold onGroupClick.
  destruct (toggleGroup_link s row false r link Hfind Hlink)
    as (s1 & r1 & link1 & T1 & F1 & L1 & G1 & E1 & O1 & S1).
  destruct (fire_all_link fired s1 row r1 F1)
    as (r1' & F1' & L1' & G1' & S1').
  rewrite L1 in L1'.
  destruct (toggleGroup_link (fire_all fired s1) row false r1' link1
              F1' L1')
    as (s2 & r2 & link2 & T2 & F2 & L2 & G2 & E2 & O2 & S2).
  exists s1, s2, r2, link2.
  split; [exact T1|]. split; [exact T2|]. split; [exact F2|].
  split; [exact L2|].
  cbn [negb] in E1, E2, S1, S2. rewrite andb_true_r in E1, E2, S1, S2.
  rewrite E1, negb_involutive in E2. rewrite E1, negb_involutive in S2.
  split.
  - intros c. destruct (String.eqb c "expanded") eqn:Ec.
    + apply String.eqb_eq in Ec. subst c. exact E2.
    + apply String.eqb_neq in Ec. now rewrite (O2 c Ec), (O1 c Ec).
  - rewrite S2, S1', S1, G1', G1, <- List.app_assoc. reflexivity.
Qed.

Lemma X22_witness :
  exists s1 s2,
    onGroupClick 1 nested_surface = Ok s1 /\
    List.length (timers s1) = 1 /\
    onGroupClick 1 (fire_all [0] s1) = Ok s2 /\
    status_events (log s2) = [("1", false); ("1", true)].
Proof.
  destruct (dom_find_row (document nested_surface) 1) as [r|] eqn:E;
    [|discriminate].
  destruct (link_class r) as [link|] eqn:L;
    [|injection E as <-; discriminate].
  destruct (X22_two_clicks_restore_the_link nested_surface 1 r link [0]
              E L)
    as (s1 & s2 & r2 & link2 & H1 & H2 & _ & _ & _ & H6).
  exists s1, s2.
  injection E as <-. injection L as <-.
  split; [exact H1|].
  split; [|split; [exact H2|exact H6]].
  unfold onGroupClick in H1. vm_compute in H1.
  injection H1 as <-. reflexivity.
Defined.
